(** * DevOps Sentinel: the incident pipeline, embedded and verified

    A shallow embedding of the pipeline of the repository
    (message bus, health monitor, triage orchestrator, analysis engine,
    notification dispatcher) together with the properties its specification
    states about it.

    Conventions of the embedding.
    - Python [dict]s keyed by strings whose iteration order is irrelevant are
      [gmap string _]; dicts that are iterated (the pattern catalogue, the
      channel configuration) are association lists in insertion order.
    - Python [float]s are exact rationals ([Q]); [datetime]s are integers
      (microseconds since the epoch), [timedelta]s are differences of those.
    - Every reading of the wall clock and every generated identifier is an
      explicit argument of the function that makes it.
    - A Python exception is a value of [exn]; a function that may raise
      returns a [result].
    - Strings are byte strings; [str.lower] is ASCII lower-casing.
    - A dictionary passed between stages is a record of the fields the code
      reads from it, with [option] for a key that may be missing.
    - The embedding is of the bodies of the functions; the loading of the
      modules (imports, annotations) is not modelled. *)

From Stdlib Require Import Strings.Ascii Strings.String.
From Stdlib Require Import QArith Qminmax Qround Lqa.
From Stdlib Require Import Sorting.Sorted Sorting.Permutation.
From stdpp Require Import base option list strings pretty gmap fin_maps.

Local Open Scope Z_scope.

(** ** Python runtime: exceptions, results, string primitives *)

Module Py.

Inductive exn : Type :=
| ValueError (msg : string)
| TypeError (msg : string)
| UnboundLocalError (var : string)
| IndexError (msg : string)
| ZeroDivisionError
| AttributeError (msg : string)
| TimeoutError.

Inductive result (A : Type) : Type :=
| Ok (a : A)
| Raise (e : exn).
Arguments Ok {A} a.
Arguments Raise {A} e.

(** Sequencing: the first exception raised propagates ([x ← r; k]). *)
#[global] Instance result_ret : MRet result := fun A a => Ok a.
#[global] Instance result_bind : MBind result := fun A B k r =>
  match r with
  | Ok a => k a
  | Raise e => Raise e
  end.

(** [str(e)] for the exceptions the pipeline stringifies (the wording of
    [UnboundLocalError] is that of CPython 3.11 and later). *)
Definition str_exn (e : exn) : string :=
  match e with
  | ValueError m => m
  | TypeError m => m
  | IndexError m => m
  | UnboundLocalError v =>
      "cannot access local variable '" +:+ v +:+
      "' where it is not associated with a value"
  | ZeroDivisionError => "division by zero"
  | AttributeError m => m
  | TimeoutError => ""
  end.

(** Truthiness of an [Optional[str]]: [None] and the empty string are falsy. *)
Definition truthy_str (o : option string) : bool :=
  match o with
  | None => false
  | Some EmptyString => false
  | Some _ => true
  end.

(** [needle in hay] on strings. *)
Fixpoint contains (needle hay : string) : bool :=
  String.prefix needle hay ||
  match hay with
  | EmptyString => false
  | String _ rest => contains needle rest
  end.

Definition lower_ascii (c : ascii) : ascii :=
  let n := nat_of_ascii c in
  if (Nat.leb 65 n && Nat.leb n 90)%bool then ascii_of_nat (n + 32) else c.

Fixpoint lower (s : string) : string :=
  match s with
  | EmptyString => EmptyString
  | String c rest => String (lower_ascii c) (lower rest)
  end.

(** [sep.join(parts)]. *)
Fixpoint join (sep : string) (parts : list string) : string :=
  match parts with
  | [] => EmptyString
  | [p] => p
  | p :: rest => p +:+ sep +:+ join sep rest
  end.

End Py.
Import Py.

(** ** Message bus ([src/shared/messaging.py]) *)

Module Messaging.

Inductive MessageType : Type :=
| HEALTH_CHECK_FAILURE
| TRIAGE_REQUEST
| TRIAGE_RESPONSE
| ANALYSIS_REQUEST
| ANALYSIS_RESPONSE
| NOTIFICATION_REQUEST
| NOTIFICATION_SENT
| INCIDENT_RESOLVED.

#[global] Instance MessageType_eq_dec : EqDecision MessageType.
Proof. solve_decision. Defined.

(** [MessageType.value]. *)
Definition value (t : MessageType) : string :=
  match t with
  | HEALTH_CHECK_FAILURE => "health_check_failure"
  | TRIAGE_REQUEST => "triage_request"
  | TRIAGE_RESPONSE => "triage_response"
  | ANALYSIS_REQUEST => "analysis_request"
  | ANALYSIS_RESPONSE => "analysis_response"
  | NOTIFICATION_REQUEST => "notification_request"
  | NOTIFICATION_SENT => "notification_sent"
  | INCIDENT_RESOLVED => "incident_resolved"
  end.

Definition all_types : list MessageType :=
  [HEALTH_CHECK_FAILURE; TRIAGE_REQUEST; TRIAGE_RESPONSE; ANALYSIS_REQUEST;
   ANALYSIS_RESPONSE; NOTIFICATION_REQUEST; NOTIFICATION_SENT;
   INCIDENT_RESOLVED].

(** The enum constructor [MessageType(s)]: lookup by value, [ValueError]
    when no member has that value. *)
Definition MessageType_of_value (s : string) : result MessageType :=
  match List.find (fun t => String.eqb (value t) s) all_types with
  | Some t => Ok t
  | None => Raise (ValueError ("'" +:+ s +:+ "' is not a valid MessageType"))
  end.

Section Bus.

(** The payload ([data: Dict[str, Any]]) is opaque to the bus. *)
Context {Data : Type}.

Record Message : Type := mkMessage {
  id : string;
  type : MessageType;
  sender : string;
  recipient : string;
  timestamp : Z;
  data : Data;
  correlation_id : option string;
  requires_response : bool;
  response_timeout : Z
}.

Record MessageQueue : Type := mkQueue {
  queues : gmap string (list Message);
  delivered_messages : gmap string Message;
  pending_responses : gmap (option string) Message
}.

Definition empty_queue : MessageQueue :=
  {| queues := ∅; delivered_messages := ∅; pending_responses := ∅ |}.

(** [MessageQueue.send_message]: none of the dictionary and list operations
    of the [try] block can raise, so the [except] branch is never taken. *)
Definition send_message (q : MessageQueue) (m : Message) : bool * MessageQueue :=
  let inbox := default [] (queues q !! recipient m) in
  let qs := <[recipient m := inbox ++ [m]]> (queues q) in
  let dm := <[id m := m]> (delivered_messages q) in
  let pr := if requires_response m
            then <[correlation_id m := m]> (pending_responses q)
            else pending_responses q in
  (true, {| queues := qs; delivered_messages := dm; pending_responses := pr |}).

(** [MessageQueue.receive_messages]: copy, then clear, the inbox. *)
Definition receive_messages (q : MessageQueue) (agent_name : string)
  : list Message * MessageQueue :=
  match queues q !! agent_name with
  | None => ([], q)
  | Some msgs =>
      (msgs, {| queues := <[agent_name := []]> (queues q);
                delivered_messages := delivered_messages q;
                pending_responses := pending_responses q |})
  end.

(** [MessageQueue.send_response]. [mid] is the generated message id and
    [now] the clock reading.  Python evaluates the keyword arguments of
    [Message(...)] in order, so the enum lookup comes after the id. *)
Definition send_response (q : MessageQueue) (original_message : Message)
    (response_data : Data) (mid : string) (now : Z)
  : result bool * MessageQueue :=
  if negb (truthy_str (correlation_id original_message)) then (Ok false, q)
  else
    match MessageType_of_value (value (type original_message) +:+ "_response") with
    | Raise e => (Raise e, q)
    | Ok ty =>
        let response_message :=
          {| id := mid;
             type := ty;
             sender := recipient original_message;
             recipient := sender original_message;
             timestamp := now;
             data := response_data;
             correlation_id := correlation_id original_message;
             requires_response := false;
             response_timeout := 300 |} in
        let '(b, q') := send_message q response_message in
        (Ok b, q')
    end.

(** The response tag that belongs to a request tag. *)
Definition response_tag (t : MessageType) : option MessageType :=
  match t with
  | TRIAGE_REQUEST => Some TRIAGE_RESPONSE
  | ANALYSIS_REQUEST => Some ANALYSIS_RESPONSE
  | NOTIFICATION_REQUEST => Some NOTIFICATION_SENT
  | _ => None
  end.

(** [MessageQueue.register_handler]; the table [message_handlers] is kept
    beside the queue record. *)
Definition register_handler {Handler : Type}
    (message_handlers : gmap string Handler) (q : MessageQueue)
    (agent_name : string) (handler : Handler)
  : gmap string Handler * MessageQueue :=
  (<[agent_name := handler]> message_handlers,
   match queues q !! agent_name with
   | Some _ => q
   | None =>
       {| queues := <[agent_name := []]> (queues q);
          delivered_messages := delivered_messages q;
          pending_responses := pending_responses q |}
   end).

(** The loop [while time.time() - start_time < timeout: time.sleep(1)] of
    [wait_for_response]; [clock] holds the successive readings of
    [time.time()] in the loop condition.  [None]: the loop is still running
    after the last reading given. *)
Fixpoint wait_loop (start_time timeout : Q) (clock : list Q) : option unit :=
  match clock with
  | [] => None
  | t :: rest =>
      if negb (Qle_bool timeout (t - start_time)) then wait_loop start_time timeout rest
      else Some ()
  end.

(** [MessageQueue.wait_for_response]: what it returns, and the queue. *)
Definition wait_for_response (q : MessageQueue) (correlation_id : option string)
    (timeout start_time : Q) (clock : list Q)
  : option (option Message * MessageQueue) :=
  _ ← wait_loop start_time timeout clock;
  Some (None,
        {| queues := queues q;
           delivered_messages := delivered_messages q;
           pending_responses := delete correlation_id (pending_responses q) |}).

(** [AgentCommunication.process_messages]: the logging call in the second
    branch cannot raise, so the [except] branch is never taken. *)
Definition process_messages (agent_name : string) (q : MessageQueue)
  : list Message * MessageQueue :=
  let '(messages, q') := receive_messages q agent_name in
  (foldl (fun processed message =>
            if requires_response message then processed ++ [message]
            else processed ++ [message]) [] messages,
   q').

(** Messages sent one after the other. *)
Definition send_messages (q : MessageQueue) (ms : list Message) : MessageQueue :=
  foldl (fun q m => (send_message q m).2) q ms.

End Bus.

Arguments Message : clear implicits.
Arguments MessageQueue : clear implicits.

End Messaging.

(** ** Health monitor ([src/agents/monitoring/health_check.py],
       records of [src/shared/utils.py]) *)

Module Monitoring.
Import Messaging.

Inductive IncidentStatus : Type := DETECTED | INVESTIGATING | ANALYZED | RESOLVED.

Inductive AlertLevel : Type := LOW | MEDIUM | HIGH | CRITICAL.

Definition AlertLevel_value (l : AlertLevel) : string :=
  match l with
  | LOW => "low"
  | MEDIUM => "medium"
  | HIGH => "high"
  | CRITICAL => "critical"
  end.

#[global] Instance IncidentStatus_eq_dec : EqDecision IncidentStatus.
Proof. solve_decision. Defined.

(** One entry of [endpoints.yaml]; thresholds are integer milliseconds. *)
Record EndpointConfig : Type := mkEndpoint {
  name : string;
  url : string;
  method : string;
  expected_status : list Z;
  response_time_threshold : Z;
  timeout : Z
}.

Record HealthCheckResult : Type := mkResult {
  hc_endpoint_name : string;
  hc_url : string;
  hc_status_code : Z;
  hc_response_time : Q;
  hc_timestamp : Z;
  hc_success : bool;
  hc_error_message : option string;
  hc_ssl_expiry_days : option Z
}.

(** [Incident]; the fields the monitor never writes ([triage_data],
    [analysis_result], [notifications_sent]) keep their defaults and are
    left out. *)
Record Incident : Type := mkIncident {
  inc_id : string;
  inc_endpoint_name : string;
  inc_status : IncidentStatus;
  inc_alert_level : AlertLevel;
  inc_timestamp : Z;
  inc_last_updated : Z;
  inc_health_check_result : HealthCheckResult
}.

(** The assignments [incident.status = ...] and
    [incident.last_updated = ...]. *)
Definition set_status (i : Incident) (st : IncidentStatus) : Incident :=
  {| inc_id := inc_id i;
     inc_endpoint_name := inc_endpoint_name i;
     inc_status := st;
     inc_alert_level := inc_alert_level i;
     inc_timestamp := inc_timestamp i;
     inc_last_updated := inc_last_updated i;
     inc_health_check_result := inc_health_check_result i |}.

Definition set_last_updated (i : Incident) (t : Z) : Incident :=
  {| inc_id := inc_id i;
     inc_endpoint_name := inc_endpoint_name i;
     inc_status := inc_status i;
     inc_alert_level := inc_alert_level i;
     inc_timestamp := inc_timestamp i;
     inc_last_updated := t;
     inc_health_check_result := inc_health_check_result i |}.

Record HealthChecker : Type := mkChecker {
  config : EndpointConfig;
  consecutive_failures : Z
}.

(** [HealthChecker.__init__]. *)
Definition new_checker (endpoint_config : EndpointConfig) : HealthChecker :=
  {| config := endpoint_config; consecutive_failures := 0 |}.

(** What one call of [check_health] observes of the outside world. *)
Inductive HttpOutcome : Type :=
| Responded (status_code : Z)
| Failed (str_e : string).

Record Probe : Type := mkProbe {
  probe_timestamp : Z;          (* [TimestampUtils.now_utc()] on entry *)
  probe_http : HttpOutcome;     (* [_make_http_request] returns or raises *)
  probe_elapsed_ms : Q;         (* [(time.time() - start_time) * 1000] *)
  probe_ssl : option Z          (* [_check_ssl_expiry()] *)
}.

(** [NetworkUtils.is_timeout_error] and [is_ssl_error], on [str(error)]. *)
Definition is_timeout_error (str_e : string) : bool :=
  existsb (fun keyword => contains keyword (lower str_e))
          ["timeout"; "timed out"; "connection refused"].

Definition is_ssl_error (str_e : string) : bool :=
  existsb (fun keyword => contains keyword (lower str_e))
          ["ssl"; "certificate"; "tls"; "handshake"].

(** The format [{x:.0f}]: round to the nearest integer, ties to even. *)
Definition round_half_even (x : Q) : Z :=
  let f := Qfloor x in
  match (x - inject_Z f ?= 1 # 2)%Q with
  | Lt => f
  | Gt => f + 1
  | Eq => if Z.even f then f else f + 1
  end.

Definition fmt_0f (x : Q) : string := pretty (round_half_even x).

(** [HealthChecker._determine_error_message]. *)
Definition _determine_error_message (c : HealthChecker)
    (status_code : Z) (response_time : Q) : string :=
  if negb (bool_decide (status_code ∈ expected_status (config c))) then
    "HTTP " +:+ pretty status_code +:+ " error"
  else if negb (Qle_bool response_time
                         (inject_Z (response_time_threshold (config c)))) then
    "Response time " +:+ fmt_0f response_time +:+ "ms exceeds threshold " +:+
    pretty (response_time_threshold (config c)) +:+ "ms"
  else "Health check failed".

(** [HealthChecker.check_health]: the result, and the checker with its
    streak updated. *)
Definition check_health (c : HealthChecker) (p : Probe)
  : HealthCheckResult * HealthChecker :=
  match probe_http p with
  | Responded status_code =>
      let response_time := probe_elapsed_ms p in
      let ssl_expiry_days :=
        if String.prefix "https://" (url (config c)) then probe_ssl p else None in
      let success :=
        bool_decide (status_code ∈ expected_status (config c)) &&
        Qle_bool response_time (inject_Z (response_time_threshold (config c))) in
      let result error_message :=
        {| hc_endpoint_name := name (config c);
           hc_url := url (config c);
           hc_status_code := status_code;
           hc_response_time := response_time;
           hc_timestamp := probe_timestamp p;
           hc_success := success;
           hc_error_message := error_message;
           hc_ssl_expiry_days := ssl_expiry_days |} in
      if success then
        (result None, {| config := config c; consecutive_failures := 0 |})
      else
        (result (Some (_determine_error_message c status_code response_time)),
         {| config := config c;
            consecutive_failures := consecutive_failures c + 1 |})
  | Failed str_e =>
      let error_message :=
        if is_timeout_error str_e then "Connection timeout"
        else if is_ssl_error str_e then "SSL certificate error"
        else str_e in
      ({| hc_endpoint_name := name (config c);
          hc_url := url (config c);
          hc_status_code := 0;
          hc_response_time := probe_elapsed_ms p;
          hc_timestamp := probe_timestamp p;
          hc_success := false;
          hc_error_message := Some error_message;
          hc_ssl_expiry_days := None |},
       {| config := config c;
          consecutive_failures := consecutive_failures c + 1 |})
  end.

(** [HealthChecker.should_trigger_incident]. *)
Definition should_trigger_incident (c : HealthChecker) (failure_threshold : Z) : bool :=
  bool_decide (failure_threshold ≤ consecutive_failures c).

(** Payloads the monitor puts on the bus. *)
Inductive Payload : Type :=
| TriageRequestData (incident_id endpoint_name url : string)
| HealthCheckAlert (incident_id endpoint_name alert_level : string)
    (timestamp : Z) (health_check : HealthCheckResult).

(** [AgentCommunication.send_triage_request]: the correlation id when the
    bus accepted the message. *)
Definition send_triage_request (agent_name : string) (q : MessageQueue Payload)
    (incident_id endpoint_name url : string) (mid : string) (now : Z)
  : option string * MessageQueue Payload :=
  let message :=
    {| id := mid;
       type := TRIAGE_REQUEST;
       sender := agent_name;
       recipient := "triage";
       timestamp := now;
       data := TriageRequestData incident_id endpoint_name url;
       correlation_id := Some ("triage_" +:+ incident_id);
       requires_response := true;
       response_timeout := 300 |} in
  let '(sent, q') := send_message q message in
  (if sent then correlation_id message else None, q').

(** [AgentCommunication.send_health_check_failure_alert]. *)
Definition send_health_check_failure_alert (agent_name : string)
    (q : MessageQueue Payload) (incident : Payload) (mid : string) (now : Z)
  : MessageQueue Payload :=
  let message :=
    {| id := mid;
       type := HEALTH_CHECK_FAILURE;
       sender := agent_name;
       recipient := "monitoring";
       timestamp := now;
       data := incident;
       correlation_id := None;
       requires_response := false;
       response_timeout := 300 |} in
  snd (send_message q message).

(** [MessageFormatter.format_health_check_alert]. *)
Definition format_health_check_alert (incident : Incident) : Payload :=
  HealthCheckAlert (inc_id incident) (inc_endpoint_name incident)
    (AlertLevel_value (inc_alert_level incident)) (inc_timestamp incident)
    (inc_health_check_result incident).

Record MonitoringAgent : Type := mkAgent {
  failure_threshold : option Z;   (* [monitoring_config['failure_threshold']] *)
  active_incidents : gmap string Incident;
  bus : MessageQueue Payload
}.

(** [MonitoringAgent.__init__], for the part of the state modelled. *)
Definition new_agent (failure_threshold : option Z) : MonitoringAgent :=
  {| failure_threshold := failure_threshold;
     active_incidents := ∅;
     bus := empty_queue |}.

(** The clock readings and generated identifiers of one
    [_handle_endpoint_failure] call. *)
Record Readings : Type := mkReadings {
  now_utc : Z;                (* line 231 *)
  incident_id : string;       (* [IncidentIDGenerator.generate()] *)
  alert_message_id : string;
  alert_message_time : Z;
  triage_message_id : string;
  triage_message_time : Z
}.

(** [MonitoringAgent._determine_alert_level]. *)
Definition _determine_alert_level (result : HealthCheckResult) : AlertLevel :=
  if truthy_str (hc_error_message result) &&
     contains "timeout" (lower (default "" (hc_error_message result)))
  then HIGH
  else if bool_decide (500 ≤ hc_status_code result) then CRITICAL
  else if bool_decide (400 ≤ hc_status_code result) then MEDIUM
  else LOW.

(** [MonitoringAgent._trigger_triage_workflow]. *)
Definition _trigger_triage_workflow (a : MonitoringAgent) (incident : Incident)
    (r : Readings) : MonitoringAgent :=
  let '(_, q) :=
    send_triage_request "monitoring" (bus a) (inc_id incident)
      (inc_endpoint_name incident) (hc_url (inc_health_check_result incident))
      (triage_message_id r) (triage_message_time r) in
  {| failure_threshold := failure_threshold a;
     active_incidents := active_incidents a;
     bus := q |}.

(** [MonitoringAgent._handle_endpoint_failure]. *)
Definition _handle_endpoint_failure (a : MonitoringAgent)
    (result : HealthCheckResult) (r : Readings) : MonitoringAgent :=
  let endpoint_name := hc_endpoint_name result in
  match active_incidents a !! endpoint_name with
  | Some incident =>
      {| failure_threshold := failure_threshold a;
         active_incidents :=
           <[endpoint_name := set_last_updated incident (now_utc r)]>
             (active_incidents a);
         bus := bus a |}
  | None =>
      let incident :=
        {| inc_id := incident_id r;
           inc_endpoint_name := endpoint_name;
           inc_status := DETECTED;
           inc_alert_level := _determine_alert_level result;
           inc_timestamp := hc_timestamp result;
           inc_last_updated := hc_timestamp result;
           inc_health_check_result := result |} in
      let a1 :=
        {| failure_threshold := failure_threshold a;
           active_incidents := <[endpoint_name := incident]> (active_incidents a);
           bus := send_health_check_failure_alert "monitoring" (bus a)
                    (format_health_check_alert incident)
                    (alert_message_id r) (alert_message_time r) |} in
      _trigger_triage_workflow a1 incident r
  end.

(** [MonitoringAgent._check_incident_resolution]. *)
Definition _check_incident_resolution (a : MonitoringAgent)
    (result : HealthCheckResult) : MonitoringAgent :=
  let endpoint_name := hc_endpoint_name result in
  match active_incidents a !! endpoint_name with
  | Some incident =>
      {| failure_threshold := failure_threshold a;
         active_incidents :=
           <[endpoint_name :=
               set_last_updated (set_status incident RESOLVED) (hc_timestamp result)]>
             (active_incidents a);
         bus := bus a |}
  | None => a
  end.

(** [MonitoringAgent._check_endpoint]: one probe of one endpoint. *)
Definition _check_endpoint (a : MonitoringAgent) (checker : HealthChecker)
    (p : Probe) (r : Readings) : MonitoringAgent * HealthChecker :=
  let '(result, checker') := check_health checker p in
  if negb (hc_success result) &&
     should_trigger_incident checker' (default 2 (failure_threshold a))
  then (_handle_endpoint_failure a result r, checker')
  else if hc_success result then (_check_incident_resolution a result, checker')
  else (a, checker').

(** [MonitoringAgent._cleanup_resolved_incidents], [now] being its clock
    reading; 24 hours in microseconds. *)
Definition retention : Z := 24 * 3600 * 1000000.

Definition _cleanup_resolved_incidents (a : MonitoringAgent) (now : Z)
  : MonitoringAgent :=
  let cutoff_time := now - retention in
  {| failure_threshold := failure_threshold a;
     active_incidents :=
       filter (fun kv => ¬ (inc_status kv.2 = RESOLVED ∧
                            inc_last_updated kv.2 < cutoff_time))
              (active_incidents a);
     bus := bus a |}.

(** The probes of one poll cycle, endpoint after endpoint, then the purge.
    (The concurrent probes of [asyncio.gather] touch disjoint keys of
    [active_incidents]; their interleaving only orders the messages.) *)
Fixpoint check_all (a : MonitoringAgent)
    (work : list (HealthChecker * Probe * Readings))
  : MonitoringAgent * list HealthChecker :=
  match work with
  | [] => (a, [])
  | (checker, p, r) :: rest =>
      let '(a1, checker') := _check_endpoint a checker p r in
      let '(a2, checkers') := check_all a1 rest in
      (a2, checker' :: checkers')
  end.

Definition _monitoring_cycle (a : MonitoringAgent)
    (work : list (HealthChecker * Probe * Readings)) (cleanup_now : Z)
  : MonitoringAgent * list HealthChecker :=
  let '(_, q) := receive_messages (bus a) "monitoring" in
  let a0 := {| failure_threshold := failure_threshold a;
               active_incidents := active_incidents a;
               bus := q |} in
  let '(a1, checkers') := check_all a0 work in
  (_cleanup_resolved_incidents a1 cleanup_now, checkers').

(** The incidents of an endpoint that are not resolved. *)
Definition open_incident (a : MonitoringAgent) (endpoint : string) : option Incident :=
  match active_incidents a !! endpoint with
  | Some i => if decide (inc_status i = RESOLVED) then None else Some i
  | None => None
  end.

(** Every incident is stored under the name of its endpoint. *)
Definition keyed (a : MonitoringAgent) : Prop :=
  ∀ k i, active_incidents a !! k = Some i → inc_endpoint_name i = k.

(** The unresolved incidents recorded for an endpoint. *)
Definition unresolved_incidents (a : MonitoringAgent) (endpoint : string)
  : list Incident :=
  List.filter
    (fun i => bool_decide (inc_endpoint_name i = endpoint ∧ inc_status i ≠ RESOLVED))
    (map_to_list (active_incidents a)).*2.

(** The states the monitor can be in. *)
Inductive reachable : MonitoringAgent -> Prop :=
| reach_new threshold : reachable (new_agent threshold)
| reach_check a checker p r :
    reachable a -> reachable (_check_endpoint a checker p r).1
| reach_cleanup a now :
    reachable a -> reachable (_cleanup_resolved_incidents a now)
| reach_cycle a work now :
    reachable a -> reachable (_monitoring_cycle a work now).1.

(** The triage requests waiting in the triage inbox. *)
Definition triage_requests (a : MonitoringAgent) : list (Message Payload) :=
  List.filter (fun m => bool_decide (type m = TRIAGE_REQUEST))
    (default [] (queues (bus a) !! "triage")).

(** Every entry of the pending table is a triage request, filed under the
    correlation id of the incident it names. *)
Definition pending_triage (q : MessageQueue Payload) : Prop :=
  ∀ k m, pending_responses q !! k = Some m →
    ∃ incident_id endpoint_name url,
      k = Some ("triage_" +:+ incident_id) ∧ type m = TRIAGE_REQUEST ∧
      data m = TriageRequestData incident_id endpoint_name url.

(** The verdict of [check_health] on a probe of an endpoint; it does not
    depend on the streak. *)
Definition passes (cfg : EndpointConfig) (p : Probe) : bool :=
  hc_success (check_health (new_checker cfg) p).1.

(** A checker after a run of probes, oldest first. *)
Definition after_probes (c : HealthChecker) (ps : list Probe) : HealthChecker :=
  foldl (fun c p => (check_health c p).2) c ps.

Definition day_us : Z := 24 * 3600 * 1000000.

(** One turn of the loop of [_check_ssl_warnings]; [ssl_expiry_days] is what
    [checker._check_ssl_expiry()] returns in this turn (it is called for
    [https] endpoints only, and catches its own exceptions).  Gives the
    table [ssl_warnings] and the warning logged, if any: the endpoint and
    the days left. *)
Definition ssl_warning_turn (ssl_warning_days now : Z)
    (ssl_warnings : gmap string Z) (checker : HealthChecker)
    (ssl_expiry_days : option Z)
  : gmap string Z * option (string * Z) :=
  if negb (String.prefix "https://" (url (config checker))) then (ssl_warnings, None)
  else
    match ssl_expiry_days with
    | Some days =>
        if negb (Z.eqb days 0) && Z.leb days ssl_warning_days then
          let endpoint_name := name (config checker) in
          let warn := (<[endpoint_name := now]> ssl_warnings,
                       Some (endpoint_name, days)) in
          match ssl_warnings !! endpoint_name with
          | None => warn
          | Some last => if Z.ltb day_us (now - last) then warn
                         else (ssl_warnings, None)
          end
        else (ssl_warnings, None)
    | None => (ssl_warnings, None)
    end.

(** [MonitoringAgent._check_ssl_warnings]: the table after the pass and the
    warnings logged, in order.  [ssl_warning_days] is the configured value,
    if any; [now] the clock reading taken before the loop. *)
Fixpoint _check_ssl_warnings (ssl_warning_days : option Z) (now : Z)
    (ssl_warnings : gmap string Z) (work : list (HealthChecker * option Z))
  : gmap string Z * list (string * Z) :=
  match work with
  | [] => (ssl_warnings, [])
  | (checker, ssl_expiry_days) :: rest =>
      let '(ssl_warnings1, logged) :=
        ssl_warning_turn (default 30 ssl_warning_days) now ssl_warnings
          checker ssl_expiry_days in
      let '(ssl_warnings2, warnings) :=
        _check_ssl_warnings ssl_warning_days now ssl_warnings1 rest in
      (ssl_warnings2, option_list logged ++ warnings)
  end.

End Monitoring.

(** ** Triage orchestrator ([src/agents/triage/data_collector.py]) *)

Module Triage.

(** The view of a collector's result dictionary that the orchestrator
    reads ([data.get(..., default)] with the defaults applied). *)
Record CollectorResult : Type := mkCollected {
  cr_status : option string;
  cr_error_count : Z;
  cr_tests : list (string * option string);
  cr_cpu_usage_percent : Q;
  cr_memory_usage_percent : Q
}.

(** An entry of [triage_data["data_collection"]]: the collector's result,
    or the marker [{"status": "error", "error": str(result)}]. *)
Inductive Entry : Type :=
| Collected (r : CollectorResult)
| ErrorMarker (error : string).

(** A collector coroutine: how long it runs (seconds) and what awaiting it
    gives. *)
Record Coroutine : Type := mkCoroutine {
  duration : Q;
  outcome : result CollectorResult
}.

(** What the source hands to [asyncio.gather]: an awaitable, or a
    [(data_type, coroutine)] tuple. *)
Inductive GatherArg : Type :=
| Awaitable (c : Coroutine)
| Labelled (data_type : string) (c : Coroutine).

(** The future [asyncio.gather(..., return_exceptions=True)] returns. *)
Record Future : Type := mkFuture {
  completes_after : Q;
  results : list (result CollectorResult)
}.

Definition awaitable_of (a : GatherArg) : result Coroutine :=
  match a with
  | Awaitable c => Ok c
  | Labelled _ _ =>
      Raise (TypeError "An asyncio.Future, a coroutine or an awaitable is required")
  end.

Fixpoint ensure_futures (args : list GatherArg) : result (list Coroutine) :=
  match args with
  | [] => Ok []
  | a :: rest =>
      c ← awaitable_of a;
      cs ← ensure_futures rest;
      Ok (c :: cs)
  end.

(** [asyncio.gather] with [return_exceptions=True]: every argument is
    wrapped with [ensure_future] when [gather] is called, which raises
    [TypeError] for an argument that is not awaitable; the future completes
    when the slowest argument does, with exceptions as results. *)
Definition gather (args : list GatherArg) : result Future :=
  cs ← ensure_futures args;
  Ok {| completes_after := foldr Qmax 0%Q (duration <$> cs);
        results := outcome <$> cs |}.

(** [await asyncio.wait_for(fut, timeout)]. *)
Definition wait_for (fut : Future) (timeout : Q)
  : result (list (result CollectorResult)) :=
  if Qle_bool (completes_after fut) timeout then Ok (results fut)
  else Raise TimeoutError.

(** Assignment [d[k] = v] on an insertion-ordered dictionary. *)
Fixpoint dict_set {V} (d : list (string * V)) (k : string) (v : V)
  : list (string * V) :=
  match d with
  | [] => [(k, v)]
  | (k', v') :: rest =>
      if String.eqb k' k then (k, v) :: rest else (k', v') :: dict_set rest k v
  end.

Fixpoint dict_get {V} (d : list (string * V)) (k : string) : option V :=
  match d with
  | [] => None
  | (k', v) :: rest => if String.eqb k' k then Some v else dict_get rest k
  end.

Inductive Finding : Type :=
| LogErrors (error_count : Z)
| NetworkTestsFailed (failed_tests : list string)
| HighCpu (cpu_usage : Q)
| HighMemory (memory_usage : Q).

Record Summary : Type := mkSummary {
  data_sources_successful : list string;
  data_sources_failed : list string;
  key_findings : list Finding;
  recommendations : list string
}.

(** The bundle; [None] is a key the dictionary does not have. *)
Record TriageData : Type := mkTriageData {
  td_incident_id : string;
  td_endpoint_name : option string;
  td_endpoint_url : option string;
  td_collection_start_time : option Z;
  td_data_collection : option (list (string * Entry));
  td_collection_end_time : option Z;
  td_summary : option Summary;
  td_status : option string;
  td_error : option string
}.

Definition Qgt_bool (x y : Q) : bool := negb (Qle_bool x y).

Definition findings_of (data_type : string) (data : CollectorResult) : list Finding :=
  if String.eqb data_type "logs" then
    if bool_decide (0 < cr_error_count data) then [LogErrors (cr_error_count data)] else []
  else if String.eqb data_type "network_diagnostics" then
    let failed_tests :=
      (List.filter (fun t => match t.2 with
                        | Some s => String.eqb s "failed" || String.eqb s "timeout"
                        | None => false
                        end) (cr_tests data)).*1 in
    match failed_tests with
    | [] => []
    | _ => [NetworkTestsFailed failed_tests]
    end
  else if String.eqb data_type "system_metrics" then
    (if Qgt_bool (cr_cpu_usage_percent data) 80 then [HighCpu (cr_cpu_usage_percent data)] else []) ++
    (if Qgt_bool (cr_memory_usage_percent data) 80 then [HighMemory (cr_memory_usage_percent data)] else [])
  else [].

Definition entry_is_error (e : Entry) : bool :=
  match e with
  | ErrorMarker _ => true
  | Collected r => match cr_status r with
                   | Some s => String.eqb s "error"
                   | None => false
                   end
  end.

(** [TriageAgent._generate_triage_summary]. *)
Definition _generate_triage_summary (data_collection : list (string * Entry)) : Summary :=
  let failed := (List.filter (fun kv => entry_is_error kv.2) data_collection).*1 in
  let successful := List.filter (fun kv => negb (entry_is_error kv.2)) data_collection in
  let findings :=
    mjoin ((fun kv => match kv.2 with
                      | Collected r => findings_of kv.1 r
                      | ErrorMarker _ => []
                      end) <$> successful) in
  {| data_sources_successful := successful.*1;
     data_sources_failed := failed;
     key_findings := findings;
     recommendations :=
       (match failed with
        | [] => []
        | _ => ["Investigate failed data sources for access issues"]
        end) ++
       (match findings with
        | [] => ["No obvious issues detected in collected data"]
        | _ => []
        end) |}.

Definition data_type_of (a : GatherArg) : result string :=
  match a with
  | Labelled data_type _ => Ok data_type
  | Awaitable _ => Raise (TypeError "cannot unpack non-iterable coroutine object")
  end.

Definition index_error : exn := IndexError "list index out of range".

(** The entry stored for one gathered result: an exception becomes the
    marker [{"status": "error", "error": str(result)}]. *)
Definition entry_of (result : result CollectorResult) : Entry :=
  match result with
  | Raise e => ErrorMarker (str_exn e)
  | Ok r => Collected r
  end.

(** The loop [for i, (data_type, _) in enumerate(collection_tasks)]. *)
Fixpoint store_results (tasks : list GatherArg)
    (results : list (result CollectorResult)) (i : nat)
    (data_collection : list (string * Entry))
  : result (list (string * Entry)) :=
  match tasks with
  | [] => Ok data_collection
  | task :: rest =>
      data_type ← data_type_of task;
      result ← from_option Ok (Raise index_error) (results !! i);
      store_results rest results (S i)
        (dict_set data_collection data_type (entry_of result))
  end.

Record TriageConfig : Type := mkTriageConfig {
  log_window_minutes : option Z;
  diagnostic_timeout : option Q
}.

(** The clock readings of one collection. *)
Record Times : Type := mkTimes {
  collection_start : Z;
  collection_end : Z
}.

(** The three [(name, coroutine)] pairs of the source. *)
Definition collection_tasks (logs network metrics : Coroutine) : list GatherArg :=
  [Labelled "logs" logs;
   Labelled "network_diagnostics" network;
   Labelled "system_metrics" metrics].

(** What [_collect_diagnostic_data] does once the [await] of the gathered
    collectors has returned a list of results or raised. *)
Definition after_wait (incident_id endpoint_name endpoint_url : string)
    (tasks : list GatherArg) (t : Times)
    (awaited : result (list (result CollectorResult))) : TriageData :=
  match awaited ≫= (fun results => store_results tasks results 0 []) with
  | Ok data_collection =>
      {| td_incident_id := incident_id;
         td_endpoint_name := Some endpoint_name;
         td_endpoint_url := Some endpoint_url;
         td_collection_start_time := Some (collection_start t);
         td_data_collection := Some data_collection;
         td_collection_end_time := Some (collection_end t);
         td_summary := Some (_generate_triage_summary data_collection);
         td_status := None;
         td_error := None |}
  | Raise TimeoutError =>
      {| td_incident_id := incident_id;
         td_endpoint_name := None;
         td_endpoint_url := None;
         td_collection_start_time := None;
         td_data_collection := None;
         td_collection_end_time := None;
         td_summary := None;
         td_status := Some "timeout";
         td_error := Some "Data collection timed out" |}
  | Raise e =>
      {| td_incident_id := incident_id;
         td_endpoint_name := None;
         td_endpoint_url := None;
         td_collection_start_time := None;
         td_data_collection := None;
         td_collection_end_time := None;
         td_summary := None;
         td_status := Some "error";
         td_error := Some (str_exn e) |}
  end.

(** [TriageAgent._collect_diagnostic_data]: the list handed to
    [asyncio.gather] is the list of pairs itself. *)
Definition _collect_diagnostic_data (cfg : TriageConfig)
    (incident_id endpoint_name endpoint_url : string)
    (logs network metrics : Coroutine) (t : Times) : TriageData :=
  let tasks := collection_tasks logs network metrics in
  let timeout := default 120%Q (diagnostic_timeout cfg) in
  after_wait incident_id endpoint_name endpoint_url tasks t
    (gather tasks ≫= (fun fut => wait_for fut timeout)).

End Triage.

(** ** Analysis engine ([src/agents/analysis/llm_analyzer.py]) *)

Module Analysis.

(** Library services the analyser calls: regular expressions of the [re]
    module (always with [re.IGNORECASE]) and the rendering of a number in
    an f-string. *)
Record PyLib : Type := mkPyLib {
  re_search : string -> string -> bool;
  re_findall : string -> string -> list string;
  str_number : Q -> string
}.

(** A dictionary field read with [.get]: missing, [None], or a value. *)
Inductive field (A : Type) : Type :=
| Absent
| PyNone
| Value (a : A).
Arguments Absent {A}.
Arguments PyNone {A}.
Arguments Value {A} a.

(** The view of the [health_check] dictionary the analyser reads. *)
Record HealthCheck : Type := mkHealthCheck {
  error_message : field string;
  ssl_expiry_days : option Z;
  endpoint_name : option string
}.

Record NetTest : Type := mkNetTest {
  nt_status : option string;
  nt_error : string                 (* [test_result.get('error', '')] *)
}.

(** The view of [triage_data["data_collection"]] the analyser reads; a
    missing part is an empty list. *)
Record TriageData : Type := mkTriageData {
  logs : list string;                     (* [log.get('message', '')] *)
  net_tests : list (string * NetTest);    (* the dict-valued tests *)
  sys_metrics : list (string * Q);        (* the numeric metrics *)
  database_diagnostics : bool             (* truthiness *)
}.

Record PatternConfig : Type := mkPattern {
  keywords : list string;
  evidence_patterns : list string;
  confidence_boost : Q;
  actions : list string
}.

(** [LLMPatternMatcher._initialize_patterns], in insertion order. *)
Definition _initialize_patterns : list (string * PatternConfig) :=
  [("database_connection_error",
    {| keywords := ["connection refused"; "timeout"; "connection pool"; "database"; "sql"];
       evidence_patterns := ["connection.*refused"; "database.*timeout";
                             "connection.*pool.*exhausted"; "sql.*error"];
       confidence_boost := 3 # 10;
       actions := ["Check database server availability";
                   "Verify connection string and credentials";
                   "Check connection pool settings";
                   "Monitor database server resources"] |});
   ("memory_leak",
    {| keywords := ["out of memory"; "memory"; "heap"; "oom"; "allocation"];
       evidence_patterns := ["out of memory"; "memory.*usage.*high";
                             "heap.*space"; "allocation.*failed"];
       confidence_boost := 25 # 100;
       actions := ["Analyze memory usage patterns";
                   "Check for memory leaks in application code";
                   "Increase heap size if appropriate";
                   "Monitor garbage collection metrics"] |});
   ("network_connectivity",
    {| keywords := ["network"; "connection"; "timeout"; "unreachable"; "dns"];
       evidence_patterns := ["network.*unreachable"; "connection.*timeout";
                             "dns.*resolution.*failed"; "host.*unreachable"];
       confidence_boost := 2 # 10;
       actions := ["Verify network connectivity between services";
                   "Check DNS resolution";
                   "Verify firewall rules";
                   "Test network latency and packet loss"] |});
   ("ssl_certificate",
    {| keywords := ["ssl"; "certificate"; "tls"; "handshake"; "expired"];
       evidence_patterns := ["ssl.*certificate.*expired"; "certificate.*error";
                             "tls.*handshake.*failed"; "certificate.*invalid"];
       confidence_boost := 4 # 10;
       actions := ["Renew SSL certificate";
                   "Verify certificate chain";
                   "Check certificate installation";
                   "Update certificate trust store"] |});
   ("service_overload",
    {| keywords := ["overload"; "too many requests"; "rate limit"; "high cpu"; "high memory"];
       evidence_patterns := ["too many requests"; "rate limit.*exceeded";
                             "cpu.*usage.*high"; "memory.*usage.*high"];
       confidence_boost := 2 # 10;
       actions := ["Scale up service resources";
                   "Implement rate limiting";
                   "Optimize application performance";
                   "Add load balancing"] |});
   ("deployment_issue",
    {| keywords := ["deployment"; "release"; "version"; "rollback"; "config"];
       evidence_patterns := ["deployment.*failed"; "version.*mismatch";
                             "configuration.*error"; "rollback.*required"];
       confidence_boost := 35 # 100;
       actions := ["Review recent deployment changes";
                   "Consider rolling back to previous version";
                   "Verify configuration files";
                   "Check deployment logs"] |})].

Inductive SupportingData : Type :=
| PatternSupport (pattern_type : string) (matched_keywords : list string)
| CorrelationSupport (similar_incidents_count : nat).

Record AnalysisHypothesis : Type := mkHypothesis {
  id : string;
  description : string;
  confidence : Q;
  evidence : list string;
  recommended_actions : list string;
  supporting_data : SupportingData
}.

(** Provenance of a hypothesis. *)
Definition pattern_based (h : AnalysisHypothesis) : bool :=
  match supporting_data h with
  | PatternSupport _ _ => true
  | CorrelationSupport _ => false
  end.

Definition Qgt_bool (x y : Q) : bool := negb (Qle_bool x y).

(** [l.sort(key=..., reverse=True)]: descending by key, elements with equal
    keys keep their original order. *)
Fixpoint insert_desc {A} (key : A -> Q) (x : A) (l : list A) : list A :=
  match l with
  | [] => [x]
  | y :: rest =>
      if Qle_bool (key y) (key x) then x :: y :: rest
      else y :: insert_desc key x rest
  end.

Definition sort_desc {A} (key : A -> Q) (l : list A) : list A :=
  foldr (insert_desc key) [] l.

(** Descending order of the keys, and the elements whose key equals [c]. *)
Definition desc {A} (key : A -> Q) (x y : A) : Prop := (key y <= key x)%Q.

Definition tied {A} (key : A -> Q) (c : Q) (x : A) : bool := Qeq_bool (key x) c.

(** [dict == dict] on pattern configurations. *)
Definition PatternConfig_eqb (c1 c2 : PatternConfig) : bool :=
  bool_decide (keywords c1 = keywords c2) &&
  bool_decide (evidence_patterns c1 = evidence_patterns c2) &&
  Qeq_bool (confidence_boost c1) (confidence_boost c2) &&
  bool_decide (actions c1 = actions c2).

(** [d.get(k, default)] on an association list. *)
Definition get {V} (d : list (string * V)) (k : string) (dflt : V) : V :=
  match List.find (fun kv => String.eqb kv.1 k) d with
  | Some kv => kv.2
  | None => dflt
  end.

(** Two catalogue entries score alike: same name, keywords, evidence
    expressions and base boost; their action lists may differ. *)
Definition same_scoring (nc nc0 : string * PatternConfig) : Prop :=
  nc.1 = nc0.1 ∧ keywords nc.2 = keywords nc0.2 ∧
  evidence_patterns nc.2 = evidence_patterns nc0.2 ∧
  confidence_boost nc.2 = confidence_boost nc0.2.

Section PatternMatcher.

Context (lib : PyLib).

(** [LLMPatternMatcher._extract_text_data]. *)
Definition _extract_text_data (health_check : HealthCheck)
    (triage_data : TriageData) : string :=
  let text_parts :=
    (match error_message health_check with
     | Value s => if truthy_str (Some s) then [s] else []
     | _ => []
     end) ++
    take 20 (logs triage_data) ++
    ((fun t => t.1 +:+ ": " +:+ nt_error t.2) <$> net_tests triage_data) ++
    ((fun m => "High " +:+ m.1 +:+ ": " +:+ str_number lib m.2) <$>
       List.filter (fun m => Qgt_bool m.2 80) (sys_metrics triage_data)) in
  lower (join " " text_parts).

(** [LLMPatternMatcher._calculate_context_boost]. *)
Definition _calculate_context_boost (patterns : list (string * PatternConfig))
    (pattern_config : PatternConfig) (health_check : HealthCheck)
    (triage_data : TriageData) : Q :=
  match List.find (fun nc => PatternConfig_eqb nc.2 pattern_config) patterns with
  | None => 0
  | Some (pattern_name, _) =>
      if negb (truthy_str (Some pattern_name)) then 0
      else if String.eqb pattern_name "database_connection_error" then
        if database_diagnostics triage_data then 0 + (2 # 10) else 0
      else if String.eqb pattern_name "memory_leak" then
        if Qgt_bool (get (sys_metrics triage_data) "memory_usage_percent" 0) 80
        then 0 + (3 # 10) else 0
      else if String.eqb pattern_name "network_connectivity" then
        let failed_tests :=
          List.filter (fun t => match nt_status t.2 with
                           | Some s => String.eqb s "failed" || String.eqb s "timeout"
                           | None => false
                           end) (net_tests triage_data) in
        match failed_tests with
        | [] => 0
        | _ => 0 + (3 # 10)
        end
      else if String.eqb pattern_name "ssl_certificate" then
        match ssl_expiry_days health_check with
        | Some d => if negb (Z.eqb d 0) && Z.ltb d 30 then 0 + (4 # 10) else 0
        | None => 0
        end
      else if String.eqb pattern_name "service_overload" then
        if Qgt_bool (get (sys_metrics triage_data) "cpu_usage_percent" 0) 80 ||
           Qgt_bool (get (sys_metrics triage_data) "memory_usage_percent" 0) 80
        then 0 + (3 # 10) else 0
      else 0
  end%Q.

Definition keyword_matches (pattern_config : PatternConfig) (text : string) : nat :=
  length (List.filter (fun keyword => contains keyword text) (keywords pattern_config)).

Definition pattern_matches (pattern_config : PatternConfig) (text : string) : nat :=
  length (List.filter (fun pattern => re_search lib pattern text)
                      (evidence_patterns pattern_config)).

(** True division [a / b] of two lengths. *)
Definition truediv (a b : nat) : result Q :=
  match b with
  | O => Raise ZeroDivisionError
  | S _ => Ok (inject_Z (Z.of_nat a) / inject_Z (Z.of_nat b))%Q
  end.

(** [LLMPatternMatcher._calculate_pattern_confidence]. *)
Definition _calculate_pattern_confidence (patterns : list (string * PatternConfig))
    (pattern_config : PatternConfig) (text : string)
    (health_check : HealthCheck) (triage_data : TriageData) : result Q :=
  let confidence := 0%Q in
  keyword_confidence ←
    truediv (keyword_matches pattern_config text) (length (keywords pattern_config));
  let confidence := (confidence + keyword_confidence * (4 # 10))%Q in
  pattern_confidence ←
    truediv (pattern_matches pattern_config text)
            (length (evidence_patterns pattern_config));
  let confidence := (confidence + pattern_confidence * (4 # 10))%Q in
  let context_boost :=
    _calculate_context_boost patterns pattern_config health_check triage_data in
  let confidence := (confidence + context_boost)%Q in
  let confidence := (confidence + confidence_boost pattern_config)%Q in
  Ok (Qmin confidence 1).

(** [str(pattern_config).lower()] contains [word]: the word has no quote
    and no comma, so it lies inside one of the strings of the dictionary;
    the four keys contain neither "database" nor "ssl". *)
Definition config_mentions (pattern_config : PatternConfig) (word : string) : bool :=
  existsb (fun s => contains word (lower s))
    (keywords pattern_config ++ evidence_patterns pattern_config ++
     actions pattern_config).

(** [LLMPatternMatcher._extract_pattern_evidence]. *)
Definition _extract_pattern_evidence (pattern_config : PatternConfig)
    (text : string) (health_check : HealthCheck) (triage_data : TriageData)
  : list string :=
  let evidence :=
    mjoin ((fun pattern =>
              (fun m => "Pattern match: " +:+ m) <$> take 3 (re_findall lib pattern text))
           <$> evidence_patterns pattern_config) in
  let evidence :=
    if config_mentions pattern_config "database" && database_diagnostics triage_data
    then evidence ++ ["Database diagnostics available"] else evidence in
  let evidence :=
    if config_mentions pattern_config "ssl" then
      match ssl_expiry_days health_check with
      | Some d =>
          if negb (Z.eqb d 0)
          then evidence ++ ["SSL certificate expires in " +:+ pretty d +:+ " days"]
          else evidence
      | None => evidence
      end
    else evidence in
  take 5 evidence.

(** [LLMPatternMatcher._generate_pattern_description]. *)
Definition _generate_pattern_description (pattern_name : string)
    (evidence : list string) : string :=
  let descriptions :=
    [("database_connection_error", "Database connectivity issue detected");
     ("memory_leak", "Memory leak or excessive memory usage detected");
     ("network_connectivity", "Network connectivity problem identified");
     ("ssl_certificate", "SSL/TLS certificate issue detected");
     ("service_overload", "Service overload or resource exhaustion detected");
     ("deployment_issue", "Recent deployment-related issue detected")] in
  let base_desc :=
    get descriptions pattern_name ("Pattern " +:+ pattern_name +:+ " detected") in
  match evidence with
  | [] => base_desc
  | _ => base_desc +:+ " (based on " +:+ pretty (length evidence) +:+ " evidence points)"
  end.

(** [LLMPatternMatcher._find_matched_keywords]. *)
Definition _find_matched_keywords (keywords : list string) (text : string) : list string :=
  List.filter (fun keyword => contains keyword text) keywords.

(** The hypothesis [match_patterns] builds for a qualifying pattern. *)
Definition hypothesis_of (pattern_name : string) (pattern_config : PatternConfig)
    (confidence : Q) (combined_text : string) (health_check : HealthCheck)
    (triage_data : TriageData) : AnalysisHypothesis :=
  let evidence :=
    _extract_pattern_evidence pattern_config combined_text health_check triage_data in
  {| id := "pattern_" +:+ pattern_name;
     description := _generate_pattern_description pattern_name evidence;
     confidence := confidence;
     evidence := evidence;
     recommended_actions := actions pattern_config;
     supporting_data :=
       PatternSupport pattern_name
         (_find_matched_keywords (keywords pattern_config) combined_text) |}.

(** The loop of [match_patterns] over [self.patterns.items()]; [todo] is
    the part of the catalogue still to visit. *)
Fixpoint scan_patterns (patterns todo : list (string * PatternConfig))
    (combined_text : string) (health_check : HealthCheck)
    (triage_data : TriageData) : result (list AnalysisHypothesis) :=
  match todo with
  | [] => Ok []
  | (pattern_name, pattern_config) :: rest =>
      confidence ← _calculate_pattern_confidence patterns pattern_config
                      combined_text health_check triage_data;
      hypotheses ← scan_patterns patterns rest combined_text health_check triage_data;
      if Qgt_bool confidence (1 # 10) then
        Ok (hypothesis_of pattern_name pattern_config confidence combined_text
              health_check triage_data :: hypotheses)
      else Ok hypotheses
  end.

(** [LLMPatternMatcher.match_patterns]. *)
Definition match_patterns (patterns : list (string * PatternConfig))
    (health_check : HealthCheck) (triage_data : TriageData)
  : result (list AnalysisHypothesis) :=
  let combined_text := _extract_text_data health_check triage_data in
  hypotheses ← scan_patterns patterns patterns combined_text health_check triage_data;
  Ok (sort_desc confidence hypotheses).

End PatternMatcher.

(** *** Correlation engine *)

Record HistoricalIncident : Type := mkHistorical {
  hi_endpoint_name : option string;        (* [incident.get('endpoint_name', '')] *)
  hi_health_check : HealthCheck;
  hi_timestamp : option Z;                 (* the parsed [timestamp], if any *)
  hi_resolution : string;                  (* [.get("resolution", "")] *)
  hi_resolution_effectiveness : Q;         (* [.get("resolution_effectiveness", 0.5)] *)
  hi_resolution_time_minutes : option Q    (* [.get("resolution_time_minutes")] *)
}.

Record Similar : Type := mkSimilar {
  incident : HistoricalIncident;
  similarity_score : Q
}.

(** The [correlations] dictionary: the three lists, or [{"error": ...}]. *)
Inductive Correlations : Type :=
| CorrelationsDict (similar_incidents : list Similar)
    (patterns_found : list string) (recommendations : list string)
| CorrelationsError (error : string).

(** [correlations.get("similar_incidents", [])]. *)
Definition get_similar_incidents (c : Correlations) : list Similar :=
  match c with
  | CorrelationsDict similar _ _ => similar
  | CorrelationsError _ => []
  end.

(** [correlations.get("recommendations")], [[]] standing for a falsy value. *)
Definition get_recommendations (c : Correlations) : list string :=
  match c with
  | CorrelationsDict _ _ recommendations => recommendations
  | CorrelationsError _ => []
  end.

Definition is_space (c : ascii) : bool :=
  let n := nat_of_ascii c in
  (Nat.leb 9 n && Nat.leb n 13) || (Nat.leb 28 n && Nat.leb n 32).

(** [s.split()]. *)
Fixpoint split_from (s : string) (word : string) : list string :=
  match s with
  | EmptyString => match word with EmptyString => [] | _ => [word] end
  | String c rest =>
      if is_space c then
        match word with
        | EmptyString => split_from rest EmptyString
        | _ => word :: split_from rest EmptyString
        end
      else split_from rest (word +:+ String c EmptyString)
  end.

Definition split (s : string) : list string := split_from s EmptyString.

(** [.get('error_message', '').lower()]: [None] has no [lower]. *)
Definition lowered_error (health_check : HealthCheck) : result string :=
  match error_message health_check with
  | Absent => Ok (lower "")
  | PyNone => Raise (AttributeError "'NoneType' object has no attribute 'lower'")
  | Value s => Ok (lower s)
  end.

Definition day_us : Z := 86400 * 1000000.
Definition hour_us : Z := 3600 * 1000000.

(** The similarity score of one historical incident. *)
Definition similarity (current_endpoint : option string) (current_error : string)
    (now : Z) (incident : HistoricalIncident) : result Q :=
  let similarity_score := 0%Q in
  let similarity_score :=
    if bool_decide (hi_endpoint_name incident = current_endpoint)
    then (similarity_score + (5 # 10))%Q else similarity_score in
  hist_error ← lowered_error (hi_health_check incident);
  let similarity_score :=
    if truthy_str (Some hist_error) && truthy_str (Some current_error) then
      let common_words :=
        remove_dups (list_intersection (split current_error) (split hist_error)) in
      match common_words with
      | [] => similarity_score
      | _ => (similarity_score +
              inject_Z (Z.of_nat (length common_words)) * (1 # 10))%Q
      end
    else similarity_score in
  let similarity_score :=
    match hi_timestamp incident with
    | Some hist_dt =>
        let days_diff := (now - hist_dt) `div` day_us in
        if Z.ltb days_diff 7 then (similarity_score + (2 # 10))%Q
        else if Z.ltb days_diff 30 then (similarity_score + (1 # 10))%Q
        else similarity_score
    | None => similarity_score
    end in
  Ok similarity_score.

Fixpoint score_all (current_endpoint : option string) (current_error : string)
    (now : Z) (historical_incidents : list HistoricalIncident)
  : result (list Similar) :=
  match historical_incidents with
  | [] => Ok []
  | incident :: rest =>
      similarity_score ← similarity current_endpoint current_error now incident;
      similar ← score_all current_endpoint current_error now rest;
      if Qgt_bool similarity_score (3 # 10)
      then Ok ({| incident := incident; similarity_score := similarity_score |} :: similar)
      else Ok similar
  end.

(** [CorrelationEngine._find_similar_incidents]; [now] is the reading of
    [datetime.now] inside the loop. *)
Definition _find_similar_incidents (health_check : HealthCheck) (now : Z)
    (historical_incidents : list HistoricalIncident) : result (list Similar) :=
  let current_endpoint := endpoint_name health_check in
  current_error ← lowered_error health_check;
  similar_incidents ← score_all current_endpoint current_error now historical_incidents;
  Ok (take 5 (sort_desc similarity_score similar_incidents)).

(** The distinct elements in order of first occurrence. *)
Fixpoint distinct (seen l : list string) : list string :=
  match l with
  | [] => []
  | x :: rest =>
      if bool_decide (x ∈ seen) then distinct seen rest
      else x :: distinct (x :: seen) rest
  end.

(** [Counter(l).most_common(n)]. *)
Definition most_common (n : nat) (l : list string) : list (string * nat) :=
  take n (sort_desc (fun rc => inject_Z (Z.of_nat rc.2))
            ((fun r => (r, length (List.filter (String.eqb r) l))) <$> distinct [] l)).

(** [statistics.mean] of a non-empty list. *)
Definition mean (l : list Q) : Q :=
  (foldr Qplus 0 l / inject_Z (Z.of_nat (length l)))%Q.

(** [CorrelationEngine._analyze_historical_patterns]. *)
Definition _analyze_historical_patterns (similar_incidents : list Similar) : list string :=
  match similar_incidents with
  | [] => []
  | _ =>
      let resolutions :=
        List.filter (fun r => truthy_str (Some r))
          ((fun s => hi_resolution (incident s)) <$> similar_incidents) in
      let patterns :=
        (fun rc => "Common resolution: " +:+ rc.1 +:+ " (used " +:+ pretty rc.2 +:+ " times)")
          <$> most_common 3 resolutions in
      let timestamps :=
        omap (fun s => (fun ts => (ts `div` hour_us) `mod` 24) <$> hi_timestamp (incident s))
             similar_incidents in
      if Nat.leb 2 (length timestamps) then
        let avg_hour := mean (inject_Z <$> timestamps) in
        if Qle_bool 9 avg_hour && Qle_bool avg_hour 17
        then patterns ++ ["Incidents tend to occur during business hours"]
        else patterns ++ ["Incidents tend to occur outside business hours"]
      else patterns
  end.

(** [CorrelationEngine._generate_historical_recommendations]. *)
Definition _generate_historical_recommendations (similar_incidents : list Similar)
  : list string :=
  match similar_incidents with
  | [] => []
  | _ =>
      let resolutions :=
        List.filter (fun re => truthy_str (Some re.1) && Qgt_bool re.2 (7 # 10))
          ((fun s => (hi_resolution (incident s),
                      hi_resolution_effectiveness (incident s))) <$> similar_incidents) in
      let recommendations :=
        match sort_desc snd resolutions with
        | [] => []
        | best :: _ => ["Consider resolution: " +:+ best.1]
        end in
      let recommendations :=
        if Nat.leb 3 (length similar_incidents)
        then recommendations ++
             ["This type of incident occurs frequently - consider permanent fix"]
        else recommendations in
      let resolution_times :=
        List.filter (fun t => negb (Qeq_bool t 0))
          (omap (fun s => hi_resolution_time_minutes (incident s)) similar_incidents) in
      match resolution_times with
      | [] => recommendations
      | _ =>
          if Qgt_bool (mean resolution_times) 60
          then recommendations ++
               ["Historical resolution time is high - consider preventive measures"]
          else recommendations
      end
  end.

(** [CorrelationEngine.analyze_correlations]. *)
Definition analyze_correlations (health_check : HealthCheck) (now : Z)
    (historical_incidents : list HistoricalIncident) : Correlations :=
  match historical_incidents with
  | [] => CorrelationsDict [] [] []
  | _ =>
      match _find_similar_incidents health_check now historical_incidents with
      | Ok similar_incidents =>
          CorrelationsDict similar_incidents
            (_analyze_historical_patterns similar_incidents)
            (_generate_historical_recommendations similar_incidents)
      | Raise e => CorrelationsError (str_exn e)
      end
  end.

(** *** Analysis agent *)

Inductive ConfidenceLevel : Type := low | medium | high.

(** The bucketing of lines 630-637. *)
Definition confidence_level (confidence : Q) : ConfidenceLevel :=
  if Qle_bool (8 # 10) confidence then high
  else if Qle_bool (5 # 10) confidence then medium
  else low.

Definition ConfidenceLevel_value (l : ConfidenceLevel) : string :=
  match l with
  | low => "low"
  | medium => "medium"
  | high => "high"
  end.

Record PrimaryHypothesis : Type := mkPrimary {
  ph_id : string;
  ph_description : string;
  ph_confidence : Q;
  ph_evidence : list string;
  ph_recommended_actions : list string
}.

Record AnalysisResult : Type := mkAnalysisResult {
  ar_incident_id : string;
  ar_analysis_start_time : Z;
  ar_hypotheses : list AnalysisHypothesis;
  ar_primary_hypothesis : option PrimaryHypothesis;
  ar_confidence_level : ConfidenceLevel;
  ar_correlations : option Correlations;      (* [None]: still [{}] *)
  ar_recommendations : list string;
  ar_analysis_summary : string;
  ar_analysis_end_time : Z
}.

(** What [_perform_root_cause_analysis] returns: the analysis, or the
    dictionary [{"incident_id", "status": "error", "error"}]. *)
Inductive AnalysisOutcome : Type :=
| Analysed (r : AnalysisResult)
| AnalysisFailed (incident_id status error : string).

Record AnalysisAgent : Type := mkAnalysisAgent {
  patterns : list (string * PatternConfig);
  historical_incidents : list HistoricalIncident
}.

Definition new_agent : AnalysisAgent :=
  {| patterns := _initialize_patterns; historical_incidents := [] |}.

(** [AnalysisAgent._generate_correlation_hypotheses]. *)
Definition _generate_correlation_hypotheses (correlations : Correlations)
  : list AnalysisHypothesis :=
  let similar_incidents := get_similar_incidents correlations in
  if Nat.leb 2 (length similar_incidents) then
    let n := pretty (length similar_incidents) in
    [{| id := "correlation_frequent_incident";
        description := "Similar incident pattern detected (occurred " +:+ n +:+
                       " times historically)";
        confidence :=
          Qmin (inject_Z (Z.of_nat (length similar_incidents)) * (1 # 10)) (7 # 10);
        evidence := ["Found " +:+ n +:+ " similar historical incidents"];
        recommended_actions := ["Investigate root cause of recurring incidents";
                                "Implement preventive measures";
                                "Consider system architecture review"];
        supporting_data := CorrelationSupport (length similar_incidents) |}]
  else [].

Definition newline : string := String (ascii_of_nat 10) EmptyString.

(** [AnalysisAgent._generate_analysis_summary]. *)
Definition _generate_analysis_summary (primary_hypothesis : option PrimaryHypothesis)
    (level : ConfidenceLevel) (correlations : option Correlations) : string :=
  match primary_hypothesis with
  | Some primary =>
      let summary :=
        "Primary hypothesis: " +:+ ph_description primary +:+ " (confidence: " +:+
        ConfidenceLevel_value level +:+ ")" +:+ newline +:+
        "Supporting evidence: " +:+ join "; " (take 3 (ph_evidence primary)) +:+ newline +:+
        "Recommended actions: " +:+ join "; " (take 2 (ph_recommended_actions primary)) in
      match from_option get_similar_incidents [] correlations with
      | [] => summary
      | _ => summary +:+ newline +:+ "Note: Similar incidents have occurred in the past"
      end
  | None => "Insufficient data to determine root cause. Manual investigation required."
  end.

(** Step 3, lines 615-628: rank the pooled hypotheses and take the first. *)
Definition rank (hypotheses : list AnalysisHypothesis) : list AnalysisHypothesis :=
  sort_desc confidence hypotheses.

Definition select_primary (hypotheses : list AnalysisHypothesis)
  : option AnalysisHypothesis :=
  head (rank hypotheses).

(** [l.extend(extra)] on the list object shared by the primary hypothesis
    and, for a pattern hypothesis, by the catalogue entry it came from. *)
Definition extend_primary (extra : list string) (h : AnalysisHypothesis)
  : AnalysisHypothesis :=
  {| id := id h;
     description := description h;
     confidence := confidence h;
     evidence := evidence h;
     recommended_actions := recommended_actions h ++ extra;
     supporting_data := supporting_data h |}.

Definition extend_catalogue (extra : list string) (primary : AnalysisHypothesis)
    (patterns : list (string * PatternConfig)) : list (string * PatternConfig) :=
  match supporting_data primary with
  | PatternSupport pattern_name _ =>
      (fun nc =>
         if String.eqb nc.1 pattern_name then
           (nc.1, {| keywords := keywords nc.2;
                     evidence_patterns := evidence_patterns nc.2;
                     confidence_boost := confidence_boost nc.2;
                     actions := actions nc.2 ++ extra |})
         else nc) <$> patterns
  | CorrelationSupport _ => patterns
  end.

(** [analysis_result.get("confidence_level", "low")]: the error dictionary
    has no such key. *)
Definition get_confidence_level (analysis_result : AnalysisOutcome) : string :=
  match analysis_result with
  | Analysed r => ConfidenceLevel_value (ar_confidence_level r)
  | AnalysisFailed _ _ _ => "low"
  end.

(** [AnalysisAgent._determine_alert_level]. *)
Definition _determine_alert_level (health_check : HealthCheck)
    (analysis_result : AnalysisOutcome) : string :=
  let confidence := get_confidence_level analysis_result in
  if String.eqb confidence "high" then "critical"
  else if String.eqb confidence "medium" then "high"
  else "medium".

(** The history holds snapshots taken by the agent: no resolution, the
    default effectiveness, no resolution time. *)
Definition unresolved_snapshot (incident : HistoricalIncident) : Prop :=
  hi_resolution incident = "" ∧ hi_resolution_time_minutes incident = None.

(** The clock readings of one analysis. *)
Record Clock : Type := mkClock {
  analysis_start : Z;
  correlation_now : Z;
  analysis_end : Z
}.

Section Agent.

Context (lib : PyLib).

(** The [try] block of [_perform_root_cause_analysis].  The local
    [correlations] is bound only when the history is not empty;
    [None] below is the unbound local. *)
Definition analysis_body (agent : AnalysisAgent) (incident_id : string)
    (health_check : HealthCheck) (triage_data : TriageData) (clock : Clock)
  : result (AnalysisResult * list (string * PatternConfig)) :=
  pattern_hypotheses ← match_patterns lib (patterns agent) health_check triage_data;
  let correlations :=
    match historical_incidents agent with
    | [] => None
    | _ => Some (analyze_correlations health_check (correlation_now clock)
                   (historical_incidents agent))
    end in
  let hypotheses :=
    pattern_hypotheses ++ from_option _generate_correlation_hypotheses [] correlations in
  match rank hypotheses with
  | [] =>
      Ok ({| ar_incident_id := incident_id;
             ar_analysis_start_time := analysis_start clock;
             ar_hypotheses := hypotheses;
             ar_primary_hypothesis := None;
             ar_confidence_level := low;
             ar_correlations := correlations;
             ar_recommendations := [];
             ar_analysis_summary := _generate_analysis_summary None low correlations;
             ar_analysis_end_time := analysis_end clock |},
          patterns agent)
  | primary :: others =>
      let level := confidence_level (confidence primary) in
      bound ← from_option Ok (Raise (UnboundLocalError "correlations")) correlations;
      let extra := get_recommendations bound in
      let primary' := extend_primary extra primary in
      let primary_hypothesis :=
        {| ph_id := id primary';
           ph_description := description primary';
           ph_confidence := confidence primary';
           ph_evidence := evidence primary';
           ph_recommended_actions := recommended_actions primary' |} in
      Ok ({| ar_incident_id := incident_id;
             ar_analysis_start_time := analysis_start clock;
             ar_hypotheses := primary' :: others;
             ar_primary_hypothesis := Some primary_hypothesis;
             ar_confidence_level := level;
             ar_correlations := correlations;
             ar_recommendations := recommended_actions primary';
             ar_analysis_summary :=
               _generate_analysis_summary (Some primary_hypothesis) level correlations;
             ar_analysis_end_time := analysis_end clock |},
          extend_catalogue extra primary (patterns agent))
  end.

(** [AnalysisAgent._perform_root_cause_analysis]: the outcome, and the agent
    with the catalogue as the run leaves it. *)
Definition _perform_root_cause_analysis (agent : AnalysisAgent)
    (incident_id : string) (health_check : HealthCheck)
    (triage_data : TriageData) (clock : Clock)
  : AnalysisOutcome * AnalysisAgent :=
  match analysis_body agent incident_id health_check triage_data clock with
  | Ok (analysis_result, patterns') =>
      (Analysed analysis_result,
       {| patterns := patterns'; historical_incidents := historical_incidents agent |})
  | Raise e => (AnalysisFailed incident_id "error" (str_exn e), agent)
  end.

(** [AnalysisAgent._store_incident_for_history]: the snapshot has no
    resolution fields; the history keeps its last 100 entries. *)
Definition _store_incident_for_history (agent : AnalysisAgent)
    (health_check : HealthCheck) (now : Z) : AnalysisAgent :=
  let snapshot :=
    {| hi_endpoint_name := endpoint_name health_check;
       hi_health_check := health_check;
       hi_timestamp := Some now;
       hi_resolution := "";
       hi_resolution_effectiveness := 5 # 10;
       hi_resolution_time_minutes := None |} in
  let history := historical_incidents agent ++ [snapshot] in
  {| patterns := patterns agent;
     historical_incidents :=
       if Nat.ltb 100 (length history)
       then drop (length history - 100) history else history |}.

(** The states the analysis agent can be in. *)
Inductive reachable : AnalysisAgent -> Prop :=
| reach_new : reachable new_agent
| reach_analysis agent incident_id health_check triage_data clock :
    reachable agent ->
    reachable (_perform_root_cause_analysis agent incident_id health_check
                 triage_data clock).2
| reach_store agent health_check now :
    reachable agent -> reachable (_store_incident_for_history agent health_check now).

End Agent.

End Analysis.

(** ** Notification dispatcher ([src/agents/notification/delivery_service.py]) *)

Module Notification.

Record ChannelConfig : Type := mkChannel {
  enabled : option bool;            (* [None]: the key is missing *)
  min_alert_level : option string
}.

Record NotificationConfig : Type := mkNotificationConfig {
  delivery_channels : list (string * ChannelConfig);
  cooldown_period : option Z        (* minutes *)
}.

(** The view of the [incident] dictionary the dispatcher reads. *)
Record Incident : Type := mkIncident {
  id : option string;
  endpoint_name : option string;
  alert_level : option string
}.

Record DeliveryResult : Type := mkDelivery {
  channel : string;
  success : bool;
  message : string;
  timestamp : Z
}.

Record AlertDeliveryService : Type := mkService {
  notification_config : NotificationConfig;
  delivery_services : list string;      (* the keys, in insertion order *)
  recent_alerts : gmap string Z
}.

Definition channel_enabled (cfg : NotificationConfig) (channel_name : string) : bool :=
  match List.find (fun kc => String.eqb kc.1 channel_name) (delivery_channels cfg) with
  | Some kc => default false (enabled kc.2)
  | None => false
  end.

(** [AlertDeliveryService._initialize_delivery_services]. *)
Definition _initialize_delivery_services (cfg : NotificationConfig) : list string :=
  List.filter (channel_enabled cfg) ["slack"; "email"; "pagerduty"; "teams"].

(** [AlertDeliveryService.__init__]. *)
Definition new_service (cfg : NotificationConfig) : AlertDeliveryService :=
  {| notification_config := cfg;
     delivery_services := _initialize_delivery_services cfg;
     recent_alerts := ∅ |}.

Definition minute_us : Z := 60 * 1000000.
Definition hour_us : Z := 3600 * 1000000.

(** The cooldown key [f"{service_name}:{alert_level}"]. *)
Definition cooldown_key (incident : Incident) : string :=
  default "" (endpoint_name incident) +:+ ":" +:+
  default "medium" (alert_level incident).

(** [AlertDeliveryService._is_in_cooldown], [now] being its clock reading. *)
Definition _is_in_cooldown (s : AlertDeliveryService) (incident : Incident)
    (now : Z) : bool :=
  match recent_alerts s !! cooldown_key incident with
  | Some last_alert_time =>
      let time_since_last := now - last_alert_time in
      let cooldown_threshold :=
        default 15 (cooldown_period (notification_config s)) * minute_us in
      bool_decide (time_since_last < cooldown_threshold)
  | None => false
  end.

(** [level_hierarchy.get(level, dflt)]. *)
Definition level_value (dflt : Z) (level : string) : Z :=
  if String.eqb level "low" then 1
  else if String.eqb level "medium" then 2
  else if String.eqb level "high" then 3
  else if String.eqb level "critical" then 4
  else dflt.

(** The four levels of the hierarchy. *)
Definition known_level (level : string) : Prop :=
  level ∈ ["low"; "medium"; "high"; "critical"].

(** [AlertDeliveryService._should_use_channel]. *)
Definition _should_use_channel (current_level min_level : string) : bool :=
  bool_decide (level_value 1 min_level ≤ level_value 2 current_level).

(** [AlertDeliveryService._determine_delivery_channels]. *)
Definition _determine_delivery_channels (s : AlertDeliveryService)
    (incident : Incident) : list string :=
  let alert_level := default "medium" (alert_level incident) in
  let channels :=
    (List.filter
       (fun kc => default false (enabled kc.2) &&
                  _should_use_channel alert_level (default "low" (min_alert_level kc.2)))
       (delivery_channels (notification_config s))).*1 in
  match channels, delivery_services s with
  | [], _ :: _ => take 1 (delivery_services s)
  | _, _ => channels
  end.

(** [AlertDeliveryService._deliver_alerts]: one task for each channel that
    has a delivery service; [send] is what the channel's delivery returns
    ([_deliver_to_channel] turns every exception into a failed result). *)
Definition _deliver_alerts (s : AlertDeliveryService) (channels : list string)
    (send : string -> DeliveryResult) : list DeliveryResult :=
  send <$> List.filter (fun channel => bool_decide (channel ∈ delivery_services s)) channels.

(** The formatter and the delivery services as [_deliver_to_channel] uses
    them.  The methods [format_<channel>_alert] and [send_alert] catch every
    exception themselves and always return. *)
Record Delivery (Alert : Type) : Type := mkDeliveryEnv {
  format_alert : string -> Incident -> Alert;
  send_alert : string -> Alert -> DeliveryResult
}.
Arguments format_alert {Alert} d channel incident.
Arguments send_alert {Alert} d channel formatted_alert.

(** One branch of [_deliver_to_channel]: format, look the service up in
    [self.delivery_services] (a missing key raises [KeyError], which the
    [except] clause turns into a failed result), deliver. *)
Definition deliver_with {Alert} (d : Delivery Alert) (s : AlertDeliveryService)
    (incident : Incident) (now : Z) (channel : string) : DeliveryResult :=
  let formatted_alert := format_alert d channel incident in
  if bool_decide (channel ∈ delivery_services s)
  then send_alert d channel formatted_alert
  else {| channel := channel;
          success := false;
          message := "Channel delivery error: '" +:+ channel +:+ "'";
          timestamp := now |}.

(** [AlertDeliveryService._deliver_to_channel]; [now] is the clock reading
    of a result it builds itself. *)
Definition _deliver_to_channel {Alert} (d : Delivery Alert) (s : AlertDeliveryService)
    (incident : Incident) (now : Z) (channel : string) : DeliveryResult :=
  if String.eqb channel "slack" then deliver_with d s incident now "slack"
  else if String.eqb channel "email" then deliver_with d s incident now "email"
  else if String.eqb channel "pagerduty" then deliver_with d s incident now "pagerduty"
  else if String.eqb channel "teams" then deliver_with d s incident now "teams"
  else {| channel := channel;
          success := false;
          message := "Unsupported channel: " +:+ channel;
          timestamp := now |}.

(** [AlertDeliveryService._update_cooldown_tracking]; [now] and
    [cutoff_now] are its two clock readings. *)
Definition _update_cooldown_tracking (s : AlertDeliveryService)
    (incident : Incident) (now cutoff_now : Z) : AlertDeliveryService :=
  let recent := <[cooldown_key incident := now]> (recent_alerts s) in
  let cutoff_time := cutoff_now - hour_us in
  {| notification_config := notification_config s;
     delivery_services := delivery_services s;
     recent_alerts := filter (fun kt => ¬ (kt.2 < cutoff_time)) recent |}.

(** The payload handed to [self.communication.send_response]; [Failed] is
    the one of the [except] clause. *)
Inductive Response : Type :=
| Skipped (reason : string) (incident_id : string)
| NotDelivered (reason : string) (incident_id : string)
| Delivered (incident_id : string) (successful_deliveries failed_deliveries : nat)
    (delivery_results : list DeliveryResult)
| Failed (error : string) (incident_id : string).

(** The status field of a response. *)
Definition status (r : Response) : string :=
  match r with
  | Skipped _ _ => "skipped"
  | NotDelivered _ _ => "failed"
  | Delivered _ _ _ _ => "completed"
  | Failed _ _ => "error"
  end.

(** One notification request: the incident, what the channels answer, and
    the three clock readings of its processing. *)
Record Request : Type := mkRequest {
  incident : Incident;
  send : string -> DeliveryResult;
  checked_at : Z;        (* [_is_in_cooldown] *)
  recorded_at : Z;       (* [_update_cooldown_tracking], the new entry *)
  pruned_at : Z          (* [_update_cooldown_tracking], the cutoff *)
}.

(** [self.communication.send_response(message, payload)].  The attribute
    [communication] is the [AgentCommunication] that
    [create_agent_communication] returns; that class of [messaging.py] has
    the methods [send_triage_request], [send_analysis_request],
    [send_notification_request], [send_health_check_failure_alert] and
    [process_messages], and no [send_response]: looking the method up raises
    [AttributeError] before the payload is built. *)
Definition send_response (message : Request) (payload : Response) : result unit :=
  Raise (AttributeError "'AgentCommunication' object has no attribute 'send_response'").

(** What a call of the handler did: how it ended ([Ok]: it returned,
    [Raise e]: [e] left it), and the deliveries attempted ([None]: the
    delivery step was not reached). *)
Record Outcome : Type := mkOutcome {
  ended : result unit;
  attempt : option (list DeliveryResult)
}.

(** The [try] block of [_process_notification_request]. *)
Definition request_body (s : AlertDeliveryService) (r : Request)
  : Outcome * AlertDeliveryService :=
  let incident_id := default "unknown" (id (incident r)) in
  if _is_in_cooldown s (incident r) (checked_at r) then
    ({| ended := send_response r (Skipped "cooldown_period" incident_id);
        attempt := None |}, s)
  else
    match _determine_delivery_channels s (incident r) with
    | [] =>
        ({| ended := send_response r (NotDelivered "no_delivery_channels" incident_id);
            attempt := None |}, s)
    | channels =>
        let delivery_results := _deliver_alerts s channels (send r) in
        let s' := _update_cooldown_tracking s (incident r) (recorded_at r) (pruned_at r) in
        ({| ended :=
              send_response r
                (Delivered incident_id
                   (length (List.filter success delivery_results))
                   (length (List.filter (fun d => negb (success d)) delivery_results))
                   delivery_results);
            attempt := Some delivery_results |}, s')
    end.

(** [AlertDeliveryService._process_notification_request]: an exception of
    the [try] block is answered from the [except Exception] clause, by the
    same method of the communication interface; what that call raises leaves
    the handler.  Deliveries made and the cooldown entry written before the
    exception stay. *)
Definition _process_notification_request (s : AlertDeliveryService) (r : Request)
  : Outcome * AlertDeliveryService :=
  let '(o, s') := request_body s r in
  match ended o with
  | Ok _ => (o, s')
  | Raise e =>
      ({| ended := send_response r
                     (Failed (str_exn e) (default "unknown" (id (incident r))));
          attempt := attempt o |}, s')
  end.

(** Requests handled one after the other by the same service object.  The
    caller [_handle_message] logs an exception that leaves the handler and
    returns, so the next request finds the service as the previous one left
    it. *)
Fixpoint process_all (s : AlertDeliveryService) (requests : list Request)
  : list Outcome * AlertDeliveryService :=
  match requests with
  | [] => ([], s)
  | r :: rest =>
      let '(o, s1) := _process_notification_request s r in
      let '(os, s2) := process_all s1 rest in
      (o :: os, s2)
  end.

(** The number of delivery attempts among some outcomes. *)
Definition attempts (os : list Outcome) : nat :=
  length (List.filter (fun o => bool_decide (is_Some (attempt o))) os).

End Notification.

(** ** Collectors ([LogCollector] and [SystemMetricsCollector] of
       [src/agents/triage/data_collector.py]) *)

Module Collectors.

(** The view of a log entry the collector reads. *)
Record LogEntry : Type := mkLog {
  level : option string;               (* [log.get('level')] *)
  message : Analysis.field string;     (* the key [message] *)
  log_timestamp : option string        (* [log.get('timestamp')] *)
}.

Record ErrorPattern : Type := mkErrorPattern {
  pattern : string;
  ep_timestamp : option string;
  ep_message : string
}.

Record LogAnalysis : Type := mkLogAnalysis {
  error_count : nat;
  warning_count : nat;
  error_patterns : list ErrorPattern
}.

Definition error_keywords : list string :=
  ["connection refused"; "timeout"; "out of memory"; "database error";
   "null pointer"; "stack overflow"; "authentication failed";
   "authorization failed"].

(** [log.get('message', '').lower()]. *)
Definition lowered_message (log : LogEntry) : result string :=
  match message log with
  | Analysis.Absent => Ok (lower "")
  | Analysis.PyNone =>
      Raise (AttributeError "'NoneType' object has no attribute 'lower'")
  | Analysis.Value s => Ok (lower s)
  end.

(** [log.get('message')[:200]]. *)
Definition truncated_message (log : LogEntry) : result string :=
  match message log with
  | Analysis.Value s => Ok (String.substring 0 200 s)
  | _ => Raise (TypeError "'NoneType' object is not subscriptable")
  end.

(** The inner loop of [_analyze_logs] over the keywords, for one entry. *)
Fixpoint patterns_of (log : LogEntry) (lowered : string) (keywords : list string)
  : result (list ErrorPattern) :=
  match keywords with
  | [] => Ok []
  | keyword :: rest =>
      if contains keyword lowered then
        truncated ← truncated_message log;
        found ← patterns_of log lowered rest;
        Ok ({| pattern := keyword;
               ep_timestamp := log_timestamp log;
               ep_message := truncated |} :: found)
      else patterns_of log lowered rest
  end.

(** The outer loop over the entries. *)
Fixpoint scan_logs (logs : list LogEntry) : result (list ErrorPattern) :=
  match logs with
  | [] => Ok []
  | log :: rest =>
      lowered ← lowered_message log;
      found ← patterns_of log lowered error_keywords;
      more ← scan_logs rest;
      Ok (found ++ more)
  end.

(** [LogCollector._analyze_logs]. *)
Definition _analyze_logs (logs : list LogEntry) : result LogAnalysis :=
  let error_count :=
    length (List.filter (fun log => bool_decide (level log = Some "ERROR")) logs) in
  let warning_count :=
    length (List.filter (fun log => bool_decide (level log = Some "WARN")) logs) in
  error_patterns ← scan_logs logs;
  Ok {| error_count := error_count;
        warning_count := warning_count;
        error_patterns := take 10 error_patterns |}.

(** What [collect_logs] returns: the dictionary [log_data], or
    [{"error": str(e), "service_name": ...}]. *)
Inductive LogData : Type :=
| LogsCollected (logs : list LogEntry) (analysis : LogAnalysis)
| LogsFailed (error : string).

(** The loop of [collect_logs] over the log sources: each source is tried
    in turn; one that raises, or returns no entry, is passed over; the first
    that returns entries ends the loop.  A source is given by what calling
    it would give. *)
Fixpoint first_logs (sources : list (result (list LogEntry))) : list LogEntry :=
  match sources with
  | [] => []
  | Ok (log :: logs) :: _ => log :: logs
  | _ :: rest => first_logs rest
  end.

(** [LogCollector.collect_logs], given its four sources (Elasticsearch,
    Splunk, the log API, the file system). *)
Definition collect_logs (sources : list (result (list LogEntry))) : LogData :=
  match first_logs sources with
  | [] =>
      LogsCollected []
        {| error_count := 0; warning_count := 0; error_patterns := [] |}
  | logs =>
      match _analyze_logs logs with
      | Ok analysis => LogsCollected logs analysis
      | Raise e => LogsFailed (str_exn e)
      end
  end.

(** *** Prometheus metrics ([SystemMetricsCollector]) *)

(** [s.lstrip()], [s.rstrip()] and [s.strip()]. *)
Fixpoint lstrip (s : string) : string :=
  match s with
  | EmptyString => EmptyString
  | String c rest => if Analysis.is_space c then lstrip rest else s
  end.

Fixpoint rstrip (s : string) : string :=
  match s with
  | EmptyString => EmptyString
  | String c rest =>
      match rstrip rest with
      | EmptyString => if Analysis.is_space c then EmptyString else String c EmptyString
      | kept => String c kept
      end
  end.

Definition strip (s : string) : string := rstrip (lstrip s).

(** [s.split('\n')]; [line] is the line being read. *)
Fixpoint split_lines_from (s : string) (line : string) : list string :=
  match s with
  | EmptyString => [line]
  | String c rest =>
      if Ascii.eqb c (ascii_of_nat 10) then line :: split_lines_from rest EmptyString
      else split_lines_from rest (line +:+ String c EmptyString)
  end.

Definition split_lines (s : string) : list string := split_lines_from s EmptyString.

(** [line.split(' ', 1)] when [' ' in line]: what precedes the first space
    and what follows it. *)
Fixpoint split_at_space (line : string) : option (string * string) :=
  match line with
  | EmptyString => None
  | String c rest =>
      if Ascii.eqb c " " then Some (EmptyString, rest)
      else '(name, value) ← split_at_space rest; Some (String c name, value)
  end.

Section Prometheus.

(** [float(value)]: the number, or [None] for [ValueError]. *)
Context (float : string -> option Q).

(** One turn of the loop of [_parse_prometheus_metrics]. *)
Definition parse_metric_line (metrics : gmap string Q) (line : string)
  : gmap string Q :=
  let line := strip line in
  if truthy_str (Some line) && negb (String.prefix "#" line) then
    match split_at_space line with
    | Some (metric_name, value) =>
        match float value with
        | Some number => <[metric_name := number]> metrics
        | None => metrics
        end
    | None => metrics
    end
  else metrics.

(** [SystemMetricsCollector._parse_prometheus_metrics]. *)
Definition _parse_prometheus_metrics (metrics_text : string) : gmap string Q :=
  foldl parse_metric_line ∅ (split_lines (strip metrics_text)).

End Prometheus.

End Collectors.

(** ** A reference instance of the library services

    The evidence patterns of the catalogue are literals separated by [.*];
    this engine implements exactly that fragment (greedy [.*] that does not
    cross a newline, leftmost non-overlapping matches), enough to run the
    analyser on concrete inputs. *)

Module RefLib.
Import Analysis.

(** The literals of a pattern, split at each [.*]. *)
Fixpoint segments_from (p : string) (literal : string) : list string :=
  match p with
  | EmptyString => [literal]
  | String c rest =>
      match rest with
      | String c' rest' =>
          if (Ascii.eqb c "." && Ascii.eqb c' "*")%bool
          then literal :: segments_from rest' EmptyString
          else segments_from rest (literal +:+ String c EmptyString)
      | EmptyString => [literal +:+ String c EmptyString]
      end
  end.

Definition segments (p : string) : list string := segments_from p EmptyString.

Fixpoint skip (n : nat) (s : string) : string :=
  match n, s with
  | S n', String _ rest => skip n' rest
  | _, _ => s
  end.

(** Greedy [.*] followed by [k]; the length consumed. *)
Fixpoint star (k : string -> option nat) (t : string) : option nat :=
  match t with
  | EmptyString => k EmptyString
  | String c rest =>
      if Ascii.eqb c (ascii_of_nat 10) then k t
      else match star k rest with
           | Some n => Some (S n)
           | None => k t
           end
  end.

(** A match of the segments starting exactly at the head of [t]. *)
Fixpoint match_here (segs : list string) (t : string) : option nat :=
  match segs with
  | [] => Some O
  | seg :: rest =>
      if String.prefix seg t then
        let t' := skip (String.length seg) t in
        n ← match rest with
            | [] => Some O
            | _ => star (match_here rest) t'
            end;
        Some (String.length seg + n)%nat
      else None
  end.

Fixpoint search_segs (segs : list string) (t : string) : bool :=
  match match_here segs t with
  | Some _ => true
  | None => match t with
            | EmptyString => false
            | String _ rest => search_segs segs rest
            end
  end.

Fixpoint findall_segs (fuel : nat) (segs : list string) (t : string) : list string :=
  match fuel with
  | O => []
  | S fuel' =>
      match match_here segs t, t with
      | Some (S n), _ =>
          String.substring 0 (S n) t :: findall_segs fuel' segs (skip (S n) t)
      | Some O, String _ rest => EmptyString :: findall_segs fuel' segs rest
      | Some O, EmptyString => [EmptyString]
      | None, String _ rest => findall_segs fuel' segs rest
      | None, EmptyString => []
      end
  end.

(** A number with one decimal, the way [str] prints [85.5]. *)
Definition one_decimal (x : Q) : string :=
  let whole := Qfloor x in
  pretty whole +:+ "." +:+ pretty (Qfloor ((x - inject_Z whole) * 10)).

Definition lib : PyLib :=
  {| re_search := fun pattern text =>
       search_segs (segments (lower pattern)) (lower text);
     re_findall := fun pattern text =>
       findall_segs (S (String.length text)) (segments (lower pattern)) (lower text);
     str_number := one_decimal |}.

End RefLib.

(** ** Concrete scenarios *)

Module Scenarios.

(** *** Bus *)

Definition triage_request : Messaging.Message string :=
  {| Messaging.id := "MSG_20240101_000000_000001";
     Messaging.type := Messaging.TRIAGE_REQUEST;
     Messaging.sender := "monitoring";
     Messaging.recipient := "triage";
     Messaging.timestamp := 0;
     Messaging.data := "incident INC_1";
     Messaging.correlation_id := Some "triage_INC_1";
     Messaging.requires_response := true;
     Messaging.response_timeout := 300 |}.

(** *** Bus: a triage request on the bus, awaited for five minutes *)

Definition bus_with_request : Messaging.MessageQueue string :=
  (Messaging.send_message Messaging.empty_queue triage_request).2.

Definition waiting_clock : list Q := [1; 150; 300]%Q.

(** *** Monitor: [svc-a] fails twice, recovers, and fails twice again *)

Import Monitoring.

Definition svc_a : EndpointConfig :=
  {| name := "svc-a"; url := "http://svc-a/health"; method := "GET";
     expected_status := [200]; response_time_threshold := 2000; timeout := 30 |}.

Definition probe_down (t : Z) : Probe :=
  {| probe_timestamp := t; probe_http := Responded 503;
     probe_elapsed_ms := 120; probe_ssl := None |}.

Definition probe_up (t : Z) : Probe :=
  {| probe_timestamp := t; probe_http := Responded 200;
     probe_elapsed_ms := 80; probe_ssl := None |}.

Definition readings (t : Z) (n : string) : Readings :=
  {| now_utc := t + 1; incident_id := "INC_" +:+ n;
     alert_message_id := "MSG_A" +:+ n; alert_message_time := t + 2;
     triage_message_id := "MSG_T" +:+ n; triage_message_time := t + 3 |}.

Definition step (st : MonitoringAgent * HealthChecker) (p : Probe) (n : string)
  : MonitoringAgent * HealthChecker :=
  _check_endpoint st.1 st.2 p (readings (probe_timestamp p) n).

Definition st0 : MonitoringAgent * HealthChecker :=
  (new_agent (Some 2), new_checker svc_a).
Definition st1 := step st0 (probe_down 100) "1".
Definition st2 := step st1 (probe_down 200) "2".
Definition st3 := step st2 (probe_up 300) "3".
Definition st4 := step st3 (probe_down 400) "4".

(** The incident the second failure of [svc-a] opens. *)
Definition incident_2 : Incident :=
  {| inc_id := "INC_2";
     inc_endpoint_name := "svc-a";
     inc_status := DETECTED;
     inc_alert_level := CRITICAL;
     inc_timestamp := 200;
     inc_last_updated := 200;
     inc_health_check_result := (check_health st1.2 (probe_down 200)).1 |}.

(** An [https] endpoint whose certificate has twelve days left. *)
Definition svc_tls : EndpointConfig :=
  {| name := "svc-tls"; url := "https://svc-tls/health"; method := "GET";
     expected_status := [200]; response_time_threshold := 2000; timeout := 30 |}.

Definition tls_work : list (HealthChecker * option Z) :=
  [(new_checker svc_a, None); (new_checker svc_tls, Some 12)].

(** One cycle in which [svc-a] and [svc-tls] both fail for the second time. *)
Definition failed_once (cfg : EndpointConfig) : HealthChecker :=
  (check_health (new_checker cfg) (probe_down 100)).2.

Definition cycle_work : list (HealthChecker * Probe * Readings) :=
  [(failed_once svc_a, probe_down 200, readings 200 "a");
   (failed_once svc_tls, probe_down 210, readings 210 "b")].

(** *** Triage: collectors that finish in time, and one that does not *)

Definition logs_result : Triage.CollectorResult :=
  {| Triage.cr_status := None; Triage.cr_error_count := 5; Triage.cr_tests := [];
     Triage.cr_cpu_usage_percent := 0; Triage.cr_memory_usage_percent := 0 |}.

Definition network_result : Triage.CollectorResult :=
  {| Triage.cr_status := None; Triage.cr_error_count := 0;
     Triage.cr_tests := [("port_connectivity", Some "failed"); ("ping", Some "success")];
     Triage.cr_cpu_usage_percent := 0; Triage.cr_memory_usage_percent := 0 |}.

Definition quick_logs : Triage.Coroutine :=
  {| Triage.duration := 2; Triage.outcome := Ok logs_result |}.
Definition quick_network : Triage.Coroutine :=
  {| Triage.duration := 10; Triage.outcome := Ok network_result |}.
Definition failing_metrics : Triage.Coroutine :=
  {| Triage.duration := 1; Triage.outcome := Raise (ValueError "no metrics endpoint") |}.
Definition slow_metrics : Triage.Coroutine :=
  {| Triage.duration := 300; Triage.outcome := Ok logs_result |}.

Definition triage_config : Triage.TriageConfig :=
  {| Triage.log_window_minutes := Some 15; Triage.diagnostic_timeout := Some 120%Q |}.

Definition triage_times : Triage.Times :=
  {| Triage.collection_start := 1000; Triage.collection_end := 2000 |}.

(** *** Log collector: two sources out of reach, then the log API *)

Definition sample_logs : list Collectors.LogEntry :=
  [{| Collectors.level := Some "ERROR";
      Collectors.message := Analysis.Value "Connection refused by db-1: timeout";
      Collectors.log_timestamp := Some "2024-01-01T00:00:00+00:00" |};
   {| Collectors.level := Some "WARN";
      Collectors.message := Analysis.Absent;
      Collectors.log_timestamp := None |}].

Definition unreachable_sources : list (result (list Collectors.LogEntry)) :=
  [Raise TimeoutError; Ok []].

(** *** Metrics: a Prometheus page with a comment and two samples *)

Definition sample_float (value : string) : option Q :=
  if String.eqb value "1" then Some 1%Q
  else if String.eqb value "42" then Some 42%Q
  else None.

Definition metrics_page : string :=
  "# HELP up whether the service is up" +:+ Analysis.newline +:+
  "up 1" +:+ Analysis.newline +:+
  "  requests_total 42" +:+ Analysis.newline.

(** *** Analysis: a pattern hypothesis and a correlation hypothesis tied at
    the top, after a weaker pattern hypothesis *)




(** *** Analysis: the empty request, and a database outage *)

Definition empty_health_check : Analysis.HealthCheck :=
  {| Analysis.error_message := Analysis.Absent;
     Analysis.ssl_expiry_days := None;
     Analysis.endpoint_name := None |}.

Definition empty_triage_data : Analysis.TriageData :=
  {| Analysis.logs := []; Analysis.net_tests := [];
     Analysis.sys_metrics := []; Analysis.database_diagnostics := false |}.

Definition outage_health_check : Analysis.HealthCheck :=
  {| Analysis.error_message := Analysis.Value "Connection refused";
     Analysis.ssl_expiry_days := None;
     Analysis.endpoint_name := Some "svc-a" |}.

Definition outage_triage_data : Analysis.TriageData :=
  {| Analysis.logs := ["database timeout after 30s"; "connection pool exhausted"];
     Analysis.net_tests :=
       [("port_connectivity",
         {| Analysis.nt_status := Some "failed"; Analysis.nt_error := "connection refused" |})];
     Analysis.sys_metrics := [("cpu_usage_percent", 35 # 1)];
     Analysis.database_diagnostics := false |}.

Definition analysis_clock : Analysis.Clock :=
  {| Analysis.analysis_start := 1000; Analysis.correlation_now := 1001;
     Analysis.analysis_end := 1002 |}.

(** The agent after a first analysed incident has been stored. *)
Definition agent_with_history : Analysis.AnalysisAgent :=
  Analysis._store_incident_for_history
    (Analysis._perform_root_cause_analysis RefLib.lib Analysis.new_agent "INC_1"
       outage_health_check outage_triage_data analysis_clock).2
    outage_health_check 1003.

(** The agent after the same outage has been stored three times. *)
Definition agent_with_three : Analysis.AnalysisAgent :=
  Analysis._store_incident_for_history
    (Analysis._store_incident_for_history agent_with_history outage_health_check 1004)
    outage_health_check 1005.

(** The snapshot of the outage, stored at time [t]; three of them. *)
Definition stored_outage (t : Z) : Analysis.HistoricalIncident :=
  {| Analysis.hi_endpoint_name := Some "svc-a";
     Analysis.hi_health_check := outage_health_check;
     Analysis.hi_timestamp := Some t;
     Analysis.hi_resolution := "";
     Analysis.hi_resolution_effectiveness := 5 # 10;
     Analysis.hi_resolution_time_minutes := None |}.

Definition outage_history : list Analysis.HistoricalIncident :=
  [stored_outage 1003; stored_outage 1004; stored_outage 1005].

(** Twenty quiet log messages, then one that mentions the database. *)
Definition quiet_logs : list string := replicate 20 "request served".

Definition late_database_log : list string :=
  quiet_logs ++ ["database timeout after 30s"].

(** *** Notification: two channels, requests by the minute *)

Definition channels (cooldown : Z) : Notification.NotificationConfig :=
  {| Notification.delivery_channels :=
       [("slack", {| Notification.enabled := Some true;
                     Notification.min_alert_level := Some "medium" |});
        ("email", {| Notification.enabled := Some true;
                     Notification.min_alert_level := Some "medium" |})];
     Notification.cooldown_period := Some cooldown |}.

Definition sent (t : Z) (channel : string) : Notification.DeliveryResult :=
  {| Notification.channel := channel; Notification.success := true;
     Notification.message := "sent"; Notification.timestamp := t |}.

(** A request for [endpoint] at severity [severity], processed [minute]
    minutes after the start. *)
Definition request (endpoint severity : string) (minute : Z) : Notification.Request :=
  {| Notification.incident :=
       {| Notification.id := Some ("INC_" +:+ endpoint);
          Notification.endpoint_name := Some endpoint;
          Notification.alert_level := Some severity |};
     Notification.send := sent (minute * Notification.minute_us);
     Notification.checked_at := minute * Notification.minute_us;
     Notification.recorded_at := minute * Notification.minute_us + 1;
     Notification.pruned_at := minute * Notification.minute_us + 2 |}.

End Scenarios.

(** * Properties *)

(** ** Message bus *)

Section BusFacts.
Import Messaging.

Context {Data : Type}.
Implicit Types (q : MessageQueue Data) (m : Message Data).

(** No member of [MessageType] has a value of the form
    [<value of a member>_response]. *)
Lemma response_value_is_no_member (t : MessageType) :
  ∃ msg, MessageType_of_value (value t +:+ "_response") = Raise (ValueError msg).
Proof. destruct t; eexists; reflexivity. Qed.

(** Without a correlation id the response is refused and the bus is left
    as it was. *)
Lemma send_response_without_correlation_id q m d mid now :
  truthy_str (correlation_id m) = false →
  send_response q m d mid now = (Ok false, q).
Proof. intros H. unfold send_response. by rewrite H. Qed.

(** With a correlation id the enum lookup raises, whatever the type of the
    original message, and nothing is enqueued. *)
Lemma send_response_with_correlation_id q m d mid now :
  truthy_str (correlation_id m) = true →
  ∃ msg, send_response q m d mid now = (Raise (ValueError msg), q).
Proof.
  intros H. unfold send_response. rewrite H. simpl.
  destruct (response_value_is_no_member (type m)) as [msg ->]. by exists msg.
Qed.

(** [send_response] never returns [True]. *)
Lemma send_response_never_succeeds q m d mid now :
  (send_response q m d mid now).1 ≠ Ok true.
Proof.
  destruct (truthy_str (correlation_id m)) eqn:H.
  - destruct (send_response_with_correlation_id q m d mid now H) as [msg ->]. done.
  - by rewrite send_response_without_correlation_id.
Qed.

End BusFacts.

(** C6 (the code departs from the claim): responding to a triage request
    that requires a response and carries a correlation id should enqueue a
    [TRIAGE_RESPONSE] and return true; the enum lookup
    [MessageType("triage_request_response")] raises [ValueError] instead,
    and the bus is unchanged. *)
Theorem send_response_to_triage_request_raises :
  Messaging.response_tag (Messaging.type Scenarios.triage_request)
    = Some Messaging.TRIAGE_RESPONSE ∧
  Messaging.send_response Messaging.empty_queue Scenarios.triage_request
      "completed" "MSG_2" 1
    = (Raise (ValueError "'triage_request_response' is not a valid MessageType"),
       Messaging.empty_queue).
Proof. split; reflexivity. Qed.

(** ** Health monitor *)

Section MonitorFacts.
Import Messaging Monitoring.

Implicit Types (a : MonitoringAgent) (c : HealthChecker) (p : Probe)
  (r : Readings) (i : Incident).

Lemma check_health_endpoint_name c p :
  hc_endpoint_name (check_health c p).1 = name (config c).
Proof.
  unfold check_health. destruct (probe_http p); cbv zeta; [|done].
  by destruct (_ && _).
Qed.

Lemma check_health_url c p : hc_url (check_health c p).1 = url (config c).
Proof.
  unfold check_health. destruct (probe_http p); cbv zeta; [|done].
  by destruct (_ && _).
Qed.

Lemma check_health_timestamp c p :
  hc_timestamp (check_health c p).1 = probe_timestamp p.
Proof.
  unfold check_health. destruct (probe_http p); cbv zeta; [|done].
  by destruct (_ && _).
Qed.

Lemma check_health_config c p : config (check_health c p).2 = config c.
Proof.
  unfold check_health. destruct (probe_http p); cbv zeta; [|done].
  by destruct (_ && _).
Qed.

(** A probe that succeeds resets the streak, one that fails extends it. *)
Lemma check_health_streak c p :
  consecutive_failures (check_health c p).2 =
  if hc_success (check_health c p).1 then 0 else consecutive_failures c + 1.
Proof.
  unfold check_health. destruct (probe_http p); cbv zeta; [|done].
  by destruct (_ && _).
Qed.

Lemma trigger_triage_incidents a i r :
  active_incidents (_trigger_triage_workflow a i r) = active_incidents a.
Proof. reflexivity. Qed.

Lemma trigger_triage_inbox a i r :
  queues (bus (_trigger_triage_workflow a i r)) !! "triage" =
  Some (default [] (queues (bus a) !! "triage") ++
        [{| id := triage_message_id r;
            type := TRIAGE_REQUEST;
            sender := "monitoring";
            recipient := "triage";
            timestamp := triage_message_time r;
            data := TriageRequestData (inc_id i) (inc_endpoint_name i)
                      (hc_url (inc_health_check_result i));
            correlation_id := Some ("triage_" +:+ inc_id i);
            requires_response := true;
            response_timeout := 300 |}]).
Proof. cbn. by rewrite lookup_insert_eq. Qed.

Lemma alert_leaves_triage_inbox (q : MessageQueue Payload) d mid now :
  queues (send_health_check_failure_alert "monitoring" q d mid now) !! "triage" =
  queues q !! "triage".
Proof. cbn. by rewrite lookup_insert_ne. Qed.

(** *** Every incident stays filed under its endpoint *)

Lemma handle_failure_keyed a (result : HealthCheckResult) r :
  keyed a → keyed (_handle_endpoint_failure a result r).
Proof.
  intros Hk k i. unfold _handle_endpoint_failure.
  destruct (active_incidents a !! hc_endpoint_name result) as [inc|] eqn:E.
  - cbn. rewrite lookup_insert. case_decide as Hd.
    + intros [= <-]. subst k. cbn. by apply Hk.
    + apply Hk.
  - rewrite trigger_triage_incidents. cbn. rewrite lookup_insert.
    case_decide as Hd.
    + by intros [= <-].
    + apply Hk.
Qed.

Lemma resolution_keyed a (result : HealthCheckResult) :
  keyed a → keyed (_check_incident_resolution a result).
Proof.
  intros Hk k i. unfold _check_incident_resolution.
  destruct (active_incidents a !! hc_endpoint_name result) as [inc|] eqn:E;
    [|apply Hk].
  cbn. rewrite lookup_insert. case_decide as Hd.
  - intros [= <-]. subst k. cbn. by apply Hk.
  - apply Hk.
Qed.

Lemma check_endpoint_keyed a c p r : keyed a → keyed (_check_endpoint a c p r).1.
Proof.
  intros Hk. unfold _check_endpoint.
  destruct (check_health c p) as [result c'].
  destruct (negb (hc_success result) && _); [by apply handle_failure_keyed|].
  destruct (hc_success result); [by apply resolution_keyed|done].
Qed.

Lemma cleanup_keyed a now : keyed a → keyed (_cleanup_resolved_incidents a now).
Proof.
  intros Hk k i. cbn. intros [H _]%map_lookup_filter_Some. by apply Hk.
Qed.

Lemma check_all_keyed work : ∀ a, keyed a → keyed (check_all a work).1.
Proof.
  induction work as [|[[c p] r] work IH]; intros a Hk; [done|].
  cbn. pose proof (check_endpoint_keyed a c p r Hk) as H1.
  destruct (_check_endpoint a c p r) as [a1 c'].
  specialize (IH a1 H1). by destruct (check_all a1 work).
Qed.

Lemma cycle_keyed a work now : keyed a → keyed (_monitoring_cycle a work now).1.
Proof.
  intros Hk. unfold _monitoring_cycle.
  destruct (receive_messages (bus a) "monitoring") as [msgs q].
  set (a0 := {| failure_threshold := _; active_incidents := _; bus := q |}).
  assert (keyed a0) as H0 by exact Hk.
  pose proof (check_all_keyed work a0 H0) as H1.
  destruct (check_all a0 work) as [a1 cs]. by apply cleanup_keyed.
Qed.

(** The purge only removes incidents: an endpoint without an unresolved
    incident has none afterwards. *)
Lemma cleanup_keeps_resolved a now endpoint :
  open_incident a endpoint = None →
  open_incident (_cleanup_resolved_incidents a now) endpoint = None.
Proof.
  unfold open_incident. cbn. intros H.
  destruct (filter _ (active_incidents a) !! endpoint) as [i|] eqn:E; [|done].
  apply map_lookup_filter_Some in E as [E _]. by rewrite E in H.
Qed.

Lemma reachable_keyed a : reachable a → keyed a.
Proof.
  induction 1.
  - intros k i. cbn. by rewrite lookup_empty.
  - by apply check_endpoint_keyed.
  - by apply cleanup_keyed.
  - by apply cycle_keyed.
Qed.

Lemma filter_nothing {V} (P : V → bool) (l : list (string * V)) :
  (∀ k v, (k, v) ∈ l → P v = false) → List.filter P l.*2 = [].
Proof.
  induction l as [|[k v] l IH]; intros H; [done|]. cbn.
  rewrite (H k v) by left. apply IH. intros k' v' Hin. apply (H k'). by right.
Qed.

(** Among pairs with distinct keys, at most one value passes a test that
    only the value stored at key [e] can pass. *)
Lemma filter_single_key {V} (P : V → bool) (e : string) (l : list (string * V)) :
  NoDup l.*1 →
  (∀ k v, (k, v) ∈ l → P v = true → k = e) →
  (length (List.filter P l.*2) ≤ 1)%nat.
Proof.
  induction l as [|[k v] l IH]; intros Hnd Hkey; [cbn; lia|].
  rewrite fmap_cons in Hnd. apply NoDup_cons in Hnd as [Hk Hnd]. cbn.
  assert (∀ k' v', (k', v') ∈ l → P v' = true → k' = e) as Hkey'.
  { intros k' v' Hin. apply Hkey. by right. }
  destruct (P v) eqn:HP; [|by apply IH].
  assert (k = e) as -> by (eapply Hkey; [left|done]).
  rewrite filter_nothing; [cbn; lia|].
  intros k' v' Hin. destruct (P v') eqn:HP'; [|done].
  exfalso. apply Hk. apply list_elem_of_fmap. exists (k', v'). split; [|done].
  cbn. symmetry. by eapply Hkey'.
Qed.

Lemma keyed_at_most_one_unresolved a endpoint :
  keyed a → (length (unresolved_incidents a endpoint) ≤ 1)%nat.
Proof.
  intros Hk. unfold unresolved_incidents. apply (filter_single_key _ endpoint).
  - apply NoDup_fst_map_to_list.
  - intros k i Hin%elem_of_map_to_list HP.
    apply bool_decide_eq_true in HP as [<- _]. symmetry. by apply Hk.
Qed.

(** *** A resolved incident stays resolved until it is purged *)

Lemma handle_failure_keeps_resolved a (result : HealthCheckResult) r e i :
  active_incidents a !! e = Some i → inc_status i = RESOLVED →
  ∃ i', active_incidents (_handle_endpoint_failure a result r) !! e = Some i' ∧
        inc_status i' = RESOLVED.
Proof.
  intros Hi Hs. unfold _handle_endpoint_failure.
  destruct (decide (hc_endpoint_name result = e)) as [->|Hne].
  - rewrite Hi. cbn. rewrite lookup_insert_eq. by eexists.
  - destruct (active_incidents a !! hc_endpoint_name result);
      [|rewrite trigger_triage_incidents]; cbn;
      rewrite lookup_insert_ne by done; by exists i.
Qed.

Lemma resolution_keeps_resolved a (result : HealthCheckResult) e i :
  active_incidents a !! e = Some i → inc_status i = RESOLVED →
  ∃ i', active_incidents (_check_incident_resolution a result) !! e = Some i' ∧
        inc_status i' = RESOLVED.
Proof.
  intros Hi Hs. unfold _check_incident_resolution.
  destruct (decide (hc_endpoint_name result = e)) as [->|Hne].
  - rewrite Hi. cbn. rewrite lookup_insert_eq. by eexists.
  - destruct (active_incidents a !! hc_endpoint_name result); [|by exists i].
    cbn. rewrite lookup_insert_ne by done. by exists i.
Qed.

Lemma check_endpoint_keeps_resolved a c p r e i :
  active_incidents a !! e = Some i → inc_status i = RESOLVED →
  ∃ i', active_incidents (_check_endpoint a c p r).1 !! e = Some i' ∧
        inc_status i' = RESOLVED.
Proof.
  intros Hi Hs. unfold _check_endpoint.
  destruct (check_health c p) as [result c'].
  destruct (negb (hc_success result) && _);
    [by eapply handle_failure_keeps_resolved|].
  destruct (hc_success result); [by eapply resolution_keeps_resolved|by exists i].
Qed.

Lemma check_all_keeps_resolved work : ∀ a e i,
  active_incidents a !! e = Some i → inc_status i = RESOLVED →
  ∃ i', active_incidents (check_all a work).1 !! e = Some i' ∧
        inc_status i' = RESOLVED.
Proof.
  induction work as [|[[c p] r] work IH]; intros a e i Hi Hs; [by exists i|].
  cbn. destruct (check_endpoint_keeps_resolved a c p r e i Hi Hs)
    as (i1 & Hi1 & Hs1).
  destruct (_check_endpoint a c p r) as [a1 c'].
  destruct (IH a1 e i1 Hi1 Hs1) as (i2 & Hi2 & Hs2).
  destruct (check_all a1 work) as [a2 cs]. by exists i2.
Qed.

(** Whatever else is probed after an incident has been resolved, the
    endpoint has no unresolved incident when the poll cycle ends. *)
Lemma resolved_until_the_cycle_ends a work now e i :
  active_incidents a !! e = Some i → inc_status i = RESOLVED →
  open_incident (_cleanup_resolved_incidents (check_all a work).1 now) e = None.
Proof.
  intros Hi Hs. apply cleanup_keeps_resolved.
  destruct (check_all_keeps_resolved work a e i Hi Hs) as (i' & Hi' & Hs').
  unfold open_incident. rewrite Hi'. by case_decide.
Qed.

(** In every reachable state an endpoint has at most one unresolved
    incident. *)
Lemma reachable_at_most_one_unresolved a endpoint :
  reachable a → (length (unresolved_incidents a endpoint) ≤ 1)%nat.
Proof. intros Hr. by apply keyed_at_most_one_unresolved, reachable_keyed. Qed.

End MonitorFacts.

Section MonitorClaims.
Import Messaging Monitoring.

Implicit Types (a : MonitoringAgent) (c : HealthChecker) (p : Probe)
  (r : Readings) (i : Incident).

(** When the failing probe brings the streak to the threshold,
    [_check_endpoint] runs [_handle_endpoint_failure]. *)
Lemma check_endpoint_at_threshold a c p r :
  hc_success (check_health c p).1 = false →
  default 2 (failure_threshold a) ≤ consecutive_failures (check_health c p).2 →
  _check_endpoint a c p r =
  (_handle_endpoint_failure a (check_health c p).1 r, (check_health c p).2).
Proof.
  intros Hf Ht. unfold _check_endpoint.
  destruct (check_health c p) as [result c']. cbn in *.
  rewrite Hf. unfold should_trigger_incident. by rewrite bool_decide_eq_true_2.
Qed.


Lemma triage_requests_of_inbox a a' extra :
  queues (bus a') !! "triage" =
    Some (default [] (queues (bus a) !! "triage") ++ extra) →
  triage_requests a' =
  triage_requests a ++ List.filter (fun m => bool_decide (type m = TRIAGE_REQUEST)) extra.
Proof. intros H. unfold triage_requests. rewrite H. cbn. apply List.filter_app. Qed.



End MonitorClaims.


Section MonitorWitnesses.
Import Monitoring Scenarios.



End MonitorWitnesses.

(** ** Triage orchestrator *)

Section TriageFacts.
Import Triage.

Implicit Types (logs network metrics : Coroutine) (t : Times).

(** [asyncio.gather] is handed the [(name, coroutine)] pairs and refuses
    them before anything is awaited. *)
Lemma gather_refuses_the_pairs logs network metrics :
  gather (collection_tasks logs network metrics) =
  Raise (TypeError "An asyncio.Future, a coroutine or an awaitable is required").
Proof. reflexivity. Qed.

(** C2 (the code departs from the claim): the bundle should hold one entry
    for each of the three collectors under [data_collection].  Whatever the
    configuration, the incident, the collectors and the clock, the
    [TypeError] of [asyncio.gather] is caught by the [except Exception]
    clause and the function returns the dictionary with the keys
    [incident_id], [status] (which is "error") and [error] only: there is no
    [data_collection] and no entry for any collector. *)
Theorem collect_diagnostic_data_as_written cfg incident_id endpoint_name endpoint_url
    logs network metrics t :
  _collect_diagnostic_data cfg incident_id endpoint_name endpoint_url
    logs network metrics t =
  {| td_incident_id := incident_id;
     td_endpoint_name := None;
     td_endpoint_url := None;
     td_collection_start_time := None;
     td_data_collection := None;
     td_collection_end_time := None;
     td_summary := None;
     td_status := Some "error";
     td_error := Some "An asyncio.Future, a coroutine or an awaitable is required" |}.
Proof.
  unfold _collect_diagnostic_data. by rewrite gather_refuses_the_pairs.
Qed.

(** The statements that follow the [await] in the source are therefore
    never run.  The remaining lemmas of this section say what they would do
    with the outcome of a wait ([after_wait]); they are no statement about
    what [_collect_diagnostic_data] returns. *)

(** Gathering the three coroutines themselves gives their three outcomes
    when the slowest finishes by the deadline, and [TimeoutError] otherwise. *)
Lemma gather_of_awaitables logs network metrics timeout :
  gather [Awaitable logs; Awaitable network; Awaitable metrics]
    ≫= (λ fut, wait_for fut timeout) =
  if Qle_bool (Qmax (duration logs) (Qmax (duration network)
                 (Qmax (duration metrics) 0))) timeout
  then Ok [outcome logs; outcome network; outcome metrics]
  else Raise TimeoutError.
Proof. reflexivity. Qed.

(** The loop over the results stores one entry for each of [logs],
    [network_diagnostics] and [system_metrics], the collector's result or an
    error marker with the text of its exception; the clause for
    [asyncio.TimeoutError] builds a bundle marked "timeout" that has no
    [data_collection]. *)
Lemma bundle_has_every_collector_unless_timeout
    incident_id endpoint_name endpoint_url logs network metrics t
    (o1 o2 o3 : result CollectorResult) :
  let tasks := collection_tasks logs network metrics in
  let bundle := after_wait incident_id endpoint_name endpoint_url tasks t
                  (Ok [o1; o2; o3]) in
  let late := after_wait incident_id endpoint_name endpoint_url tasks t
                (Raise TimeoutError) in
  td_data_collection bundle =
    Some [("logs", entry_of o1); ("network_diagnostics", entry_of o2);
          ("system_metrics", entry_of o3)] ∧
  td_status bundle = None ∧
  (∀ r, entry_of (Ok r) = Collected r) ∧
  (∀ e, entry_of (Raise e) = ErrorMarker (str_exn e)) ∧
  td_status late = Some "timeout" ∧
  td_data_collection late = None.
Proof. repeat split. Qed.

(** In that loop a collector that raised leaves an error marker and is
    listed as failed by the summary; the others are kept. *)
Lemma failing_collector_becomes_a_marker :
  let bundle :=
    after_wait "INC_1" "svc-a" "http://svc-a/health"
      (collection_tasks Scenarios.quick_logs Scenarios.quick_network
         Scenarios.failing_metrics)
      Scenarios.triage_times
      (gather [Awaitable Scenarios.quick_logs; Awaitable Scenarios.quick_network;
               Awaitable Scenarios.failing_metrics]
         ≫= (λ fut, wait_for fut 120)) in
  td_data_collection bundle =
    Some [("logs", Collected Scenarios.logs_result);
          ("network_diagnostics", Collected Scenarios.network_result);
          ("system_metrics", ErrorMarker "no metrics endpoint")] ∧
  (data_sources_failed <$> td_summary bundle) = Some ["system_metrics"] ∧
  (key_findings <$> td_summary bundle) =
    Some [LogErrors 5; NetworkTestsFailed ["port_connectivity"]].
Proof. repeat split. Qed.

(** With a metrics collector that needs 300 s under a deadline of 120 s, a
    wait on the three coroutines would time out, and the bundle of the
    timeout clause carries no entry for the two collectors that did
    finish. *)
Lemma timeout_bundle_drops_the_finished_collectors :
  gather [Awaitable Scenarios.quick_logs; Awaitable Scenarios.quick_network;
          Awaitable Scenarios.slow_metrics]
    ≫= (λ fut, wait_for fut 120) = Raise TimeoutError ∧
  td_data_collection
    (after_wait "INC_1" "svc-a" "http://svc-a/health"
       (collection_tasks Scenarios.quick_logs Scenarios.quick_network
          Scenarios.slow_metrics)
       Scenarios.triage_times (Raise TimeoutError)) = None.
Proof. repeat split. Qed.

End TriageFacts.

(** ** Analysis engine *)

(** *** The descending stable sort *)

Section SortFacts.
Import Analysis.

Context {A : Type} (key : A → Q).

Lemma insert_desc_perm x l : insert_desc key x l ≡ₚ x :: l.
Proof.
  induction l as [|y l IH]; [done|]. cbn.
  destruct (Qle_bool (key y) (key x)); [done|].
  rewrite IH. apply perm_swap.
Qed.

Lemma sort_desc_perm l : sort_desc key l ≡ₚ l.
Proof.
  induction l as [|x l IH]; [done|]. cbn.
  fold (sort_desc key l). by rewrite insert_desc_perm, IH.
Qed.

Lemma insert_desc_sorted x l :
  StronglySorted (desc key) l → StronglySorted (desc key) (insert_desc key x l).
Proof.
  induction l as [|y l IH]; intros Hs.
  - repeat constructor.
  - apply StronglySorted_inv in Hs as [Hl Hy]. cbn.
    destruct (Qle_bool (key y) (key x)) eqn:E.
    + apply Qle_bool_iff in E. constructor.
      * by constructor.
      * constructor; [exact E|].
        eapply Forall_impl; [exact Hy|]. intros z Hz. unfold Analysis.desc in *.
        by eapply Qle_trans.
    + constructor; [by apply IH|].
      rewrite insert_desc_perm. constructor; [|done].
      unfold Analysis.desc. apply Qlt_le_weak, Qnot_le_lt. intros Hle.
      apply Qle_bool_iff in Hle. congruence.
Qed.

Lemma sort_desc_sorted l : StronglySorted (desc key) (sort_desc key l).
Proof.
  induction l as [|x l IH]; [constructor|].
  cbn. by apply insert_desc_sorted.
Qed.

(** Stability: inserting does not reorder the elements of a tie. *)
Lemma insert_desc_tied c x l :
  List.filter (tied key c) (insert_desc key x l) = List.filter (tied key c) (x :: l).
Proof.
  induction l as [|y l IH]; [done|]. cbn [insert_desc].
  destruct (Qle_bool (key y) (key x)) eqn:E; [done|].
  cbn [List.filter]. rewrite IH. cbn [List.filter].
  destruct (tied key c y) eqn:Ey, (tied key c x) eqn:Ex; try done.
  exfalso. apply Qeq_bool_iff in Ey, Ex.
  assert (Qle_bool (key y) (key x) = true); [|congruence].
  apply Qle_bool_iff. rewrite Ey, Ex. apply Qle_refl.
Qed.

Lemma sort_desc_tied c l :
  List.filter (tied key c) (sort_desc key l) = List.filter (tied key c) l.
Proof.
  induction l as [|x l IH]; [done|]. cbn [sort_desc foldr].
  fold (sort_desc key l). rewrite insert_desc_tied. cbn. by rewrite IH.
Qed.

(** The first element of the sorted list carries the largest key. *)
Lemma sort_desc_head_max l x rest :
  sort_desc key l = x :: rest → ∀ y, y ∈ l → (key y <= key x)%Q.
Proof.
  intros Hs y Hy. pose proof (sort_desc_sorted l) as Hsorted.
  rewrite Hs in Hsorted. apply StronglySorted_inv in Hsorted as [_ Hall].
  rewrite <- (sort_desc_perm l), Hs in Hy.
  apply elem_of_cons in Hy as [->|Hy]; [apply Qle_refl|].
  rewrite Forall_forall in Hall. by apply Hall.
Qed.

(** It is the first element of the input, in input order, with that key. *)
Lemma sort_desc_head_first l x rest :
  sort_desc key l = x :: rest → List.find (tied key (key x)) l = Some x.
Proof.
  intros Hs. pose proof (sort_desc_tied (key x) l) as Ht.
  rewrite Hs in Ht. cbn in Ht. unfold Analysis.tied at 1 in Ht.
  rewrite (proj2 (Qeq_bool_iff _ _) (Qeq_refl _)) in Ht.
  clear Hs. induction l as [|y l IH]; [done|]. cbn in *.
  destruct (tied key (key x) y); [by injection Ht as <-|by apply IH].
Qed.

Lemma sort_desc_nil l : sort_desc key l = [] → l = [].
Proof.
  intros H. apply Permutation_nil. by rewrite <- (sort_desc_perm l), H.
Qed.

End SortFacts.

(** *** Ranking and bucketing *)

Section RankingClaims.
Import Analysis.

Implicit Types (h : AnalysisHypothesis).

Lemma find_app_l {A} (f : A → bool) (l1 l2 : list A) x y :
  x ∈ l1 → f x = true → List.find f (l1 ++ l2) = Some y → List.find f l1 = Some y.
Proof.
  induction l1 as [|z l1 IH]; intros Hin Hx Hf; [by apply elem_of_nil in Hin|].
  cbn in *. destruct (f z) eqn:Ez; [done|].
  apply elem_of_cons in Hin as [->|Hin]; [congruence|]. by apply IH.
Qed.



(** A completed run reports the ranking of its pooled hypotheses: the same
    identifiers and confidences in the same order, the head as primary. *)
Lemma completed_run_is_ranked lib agent incident_id health_check triage_data clock
    analysis_result patterns' :
  analysis_body lib agent incident_id health_check triage_data clock
    = Ok (analysis_result, patterns') →
  ∃ pattern_hypotheses,
    match_patterns lib (patterns agent) health_check triage_data
      = Ok pattern_hypotheses ∧
    let pooled :=
      pattern_hypotheses ++
      match historical_incidents agent with
      | [] => []
      | _ => _generate_correlation_hypotheses
               (analyze_correlations health_check (correlation_now clock)
                  (historical_incidents agent))
      end in
    (λ h, (id h, confidence h)) <$> ar_hypotheses analysis_result =
      (λ h, (id h, confidence h)) <$> rank pooled ∧
    ((λ p, (ph_id p, ph_confidence p)) <$> ar_primary_hypothesis analysis_result) =
      ((λ h, (id h, confidence h)) <$> select_primary pooled) ∧
    ar_confidence_level analysis_result =
      from_option (λ h, confidence_level (confidence h)) low (select_primary pooled).
Proof.
  unfold analysis_body. intros H.
  destruct (match_patterns lib (patterns agent) health_check triage_data)
    as [pattern_hypotheses|e]; [|done].
  exists pattern_hypotheses. split; [done|]. cbn in H.
  unfold select_primary.
  destruct (historical_incidents agent) as [|hist0 history] eqn:Eh; cbn in H |- *.
  - destruct (rank (pattern_hypotheses ++ [])) as [|primary others] eqn:Er; [|done].
    injection H as <- <-. cbn. by rewrite (sort_desc_nil _ _ Er).
  - destruct (rank _) as [|primary others] eqn:Er; injection H as <- <-; [|done].
    cbn. by rewrite (sort_desc_nil _ _ Er).
Qed.

(** C9: the bucketing is a total function with exactly one outcome for
    every confidence: high from 0.8, medium from 0.5 up to 0.8, low below;
    equal confidences (whatever their representation) get the same bucket. *)
Theorem confidence_level_buckets (c : Q) :
  (((8 # 10 <= c)%Q ∧ confidence_level c = high) ∨
   ((5 # 10 <= c)%Q ∧ (c < 8 # 10)%Q ∧ confidence_level c = medium) ∨
   ((c < 5 # 10)%Q ∧ confidence_level c = low)) ∧
  ∀ c', (c == c')%Q → confidence_level c' = confidence_level c.
Proof.
  assert (∀ x y, Qle_bool x y = false → (y < x)%Q) as Hlt.
  { intros x y E. apply Qnot_le_lt. intros Hle%Qle_bool_iff. congruence. }
  split.
  - unfold confidence_level.
    destruct (Qle_bool (8 # 10) c) eqn:E8.
    { left. by apply Qle_bool_iff in E8. }
    destruct (Qle_bool (5 # 10) c) eqn:E5.
    + right; left. apply Qle_bool_iff in E5. auto.
    + right; right. auto.
  - intros c' Heq. unfold confidence_level.
    assert (∀ t, Qle_bool t c' = Qle_bool t c) as Hb.
    { intros t. apply eq_true_iff_eq. rewrite !Qle_bool_iff. by rewrite Heq. }
    by rewrite !Hb.
Qed.

(** The boundary 0.8, written as 4/5 and as 8/10, is high either way. *)
Lemma confidence_level_buckets_witness :
  (4 # 5 == 8 # 10)%Q ∧ confidence_level (8 # 10) = confidence_level (4 # 5).
Proof.
  assert (4 # 5 == 8 # 10)%Q as Heq by reflexivity.
  split; [exact Heq|].
  exact (proj2 (confidence_level_buckets (4 # 5)) (8 # 10) Heq).
Defined.

End RankingClaims.

(** *** Pattern scoring *)

Section PatternFacts.
Import Analysis.

Context (lib : PyLib).

Implicit Types (ps todo : list (string * PatternConfig)) (cfg : PatternConfig)
  (hc : HealthCheck) (td : TriageData) (text : string).

Lemma context_boost_nonneg ps cfg hc td :
  (0 <= _calculate_context_boost ps cfg hc td)%Q.
Proof. unfold _calculate_context_boost. repeat case_match; by vm_compute. Qed.

Lemma ratio_nonneg (a b : nat) :
  (0 <= inject_Z (Z.of_nat a) / inject_Z (Z.of_nat b))%Q.
Proof.
  apply Qmult_le_0_compat.
  - change 0%Q with (inject_Z 0). rewrite <- Zle_Qle. lia.
  - apply Qinv_le_0_compat. change 0%Q with (inject_Z 0). rewrite <- Zle_Qle. lia.
Qed.

Lemma length_nonzero {X} (l : list X) : l ≠ [] → length l ≠ 0%nat.
Proof. destruct l; [congruence|discriminate]. Qed.

Lemma truediv_ok (a b : nat) :
  b ≠ 0%nat → truediv a b = Ok (inject_Z (Z.of_nat a) / inject_Z (Z.of_nat b))%Q.
Proof. by destruct b. Qed.

(** The value computed for a pattern with at least one keyword and one
    evidence expression, in the order the source adds the terms up. *)
Lemma pattern_confidence_value ps cfg text hc td :
  keywords cfg ≠ [] → evidence_patterns cfg ≠ [] →
  _calculate_pattern_confidence lib ps cfg text hc td =
  Ok (Qmin (0 + inject_Z (Z.of_nat (keyword_matches cfg text)) /
                  inject_Z (Z.of_nat (length (keywords cfg))) * (4 # 10)
              + inject_Z (Z.of_nat (pattern_matches lib cfg text)) /
                  inject_Z (Z.of_nat (length (evidence_patterns cfg))) * (4 # 10)
              + _calculate_context_boost ps cfg hc td
              + confidence_boost cfg) 1)%Q.
Proof.
  intros Hk He. unfold _calculate_pattern_confidence.
  rewrite truediv_ok by (by apply length_nonzero). cbn.
  rewrite truediv_ok by (by apply length_nonzero). reflexivity.
Qed.


(** The base boost alone is a lower bound (up to the cap at 1). *)
Lemma pattern_confidence_above_base ps cfg text hc td conf (floor : Q) :
  (floor < confidence_boost cfg)%Q → (floor < 1)%Q →
  _calculate_pattern_confidence lib ps cfg text hc td = Ok conf →
  (floor < conf)%Q.
Proof.
  intros Hb H1. unfold _calculate_pattern_confidence.
  destruct (truediv (keyword_matches cfg text) _) as [kc|] eqn:Ek; [|done].
  destruct (truediv (pattern_matches lib cfg text) _) as [pc|] eqn:Ep; [|done].
  cbn. intros [= <-].
  assert (0 <= kc)%Q.
  { unfold truediv in Ek. destruct (length (keywords cfg)); [done|].
    injection Ek as <-. apply ratio_nonneg. }
  assert (0 <= pc)%Q.
  { unfold truediv in Ep. destruct (length (evidence_patterns cfg)); [done|].
    injection Ep as <-. apply ratio_nonneg. }
  pose proof (context_boost_nonneg ps cfg hc td).
  apply Q.min_glb_lt; [|done].
  assert (0 <= kc * (4 # 10))%Q by (apply Qmult_le_0_compat; done).
  assert (0 <= pc * (4 # 10))%Q by (apply Qmult_le_0_compat; done).
  lra.
Qed.

Lemma Qgt_bool_true (x y : Q) : Qgt_bool x y = true ↔ (y < x)%Q.
Proof.
  unfold Qgt_bool. rewrite negb_true_iff. split.
  - intros E. apply Qnot_le_lt. intros Hle%Qle_bool_iff. congruence.
  - intros Hlt. destruct (Qle_bool x y) eqn:E; [|done].
    apply Qle_bool_iff in E. by apply Qlt_not_le in Hlt.
Qed.

(** The loop of [match_patterns]: on a catalogue without empty keyword or
    expression lists it returns, and the hypotheses are those of the
    patterns whose confidence exceeds 0.1. *)
Lemma scan_patterns_spec ps todo text hc td :
  Forall (λ nc, keywords nc.2 ≠ [] ∧ evidence_patterns nc.2 ≠ []) todo →
  ∃ hs, scan_patterns lib ps todo text hc td = Ok hs ∧
    ∀ h, h ∈ hs ↔
      ∃ n cfg conf, (n, cfg) ∈ todo ∧
        _calculate_pattern_confidence lib ps cfg text hc td = Ok conf ∧
        Qgt_bool conf (1 # 10) = true ∧
        h = hypothesis_of lib n cfg conf text hc td.
Proof.
  induction todo as [|[n cfg] todo IH]; intros Hwf.
  - exists []. split; [done|]. intros h. split.
    + by intros ?%elem_of_nil.
    + intros (? & ? & ? & ?%elem_of_nil & _). done.
  - apply Forall_cons in Hwf as [[Hk He] Hwf].
    destruct (IH Hwf) as (hs & Hscan & Hin). cbn [scan_patterns].
    rewrite (pattern_confidence_value ps cfg text hc td Hk He). cbn.
    rewrite Hscan. cbn.
    set (conf := Qmin _ 1).
    assert (_calculate_pattern_confidence lib ps cfg text hc td = Ok conf) as Hc
      by apply (pattern_confidence_value ps cfg text hc td Hk He).
    destruct (Qgt_bool conf (1 # 10)) eqn:Eg.
    + eexists. split; [reflexivity|]. intros h. rewrite elem_of_cons, Hin. split.
      * intros [->|(n' & c' & conf' & Hin' & H1 & H2 & ->)].
        -- exists n, cfg, conf. repeat split; try done. left.
        -- exists n', c', conf'. repeat split; try done. by right.
      * intros (n' & c' & conf' & Hin' & H1 & H2 & ->).
        apply elem_of_cons in Hin' as [[= -> ->]|Hin'].
        -- left. rewrite Hc in H1. by injection H1 as <-.
        -- right. by exists n', c', conf'.
    + exists hs. split; [done|]. intros h. rewrite Hin. split.
      * intros (n' & c' & conf' & Hin' & H1 & H2 & ->).
        exists n', c', conf'. repeat split; try done. by right.
      * intros (n' & c' & conf' & Hin' & H1 & H2 & ->).
        apply elem_of_cons in Hin' as [[= -> ->]|Hin'].
        -- rewrite Hc in H1. injection H1 as <-. congruence.
        -- by exists n', c', conf'.
Qed.

(** When every base boost exceeds 0.1, every pattern yields its hypothesis,
    in catalogue order. *)
Lemma scan_patterns_all ps todo text hc td :
  Forall (λ nc, keywords nc.2 ≠ [] ∧ evidence_patterns nc.2 ≠ [] ∧
                (1 # 10 < confidence_boost nc.2)%Q) todo →
  ∃ hs, scan_patterns lib ps todo text hc td = Ok hs ∧
    id <$> hs = (λ nc, "pattern_" +:+ nc.1) <$> todo ∧
    Forall (λ h, pattern_based h = true) hs.
Proof.
  induction todo as [|[n cfg] todo IH]; intros Hwf.
  - by exists [].
  - apply Forall_cons in Hwf as [(Hk & He & Hb) Hwf].
    destruct (IH Hwf) as (hs & Hscan & Hids & Hpb). cbn [scan_patterns].
    pose proof (pattern_confidence_value ps cfg text hc td Hk He) as Hc.
    rewrite Hc. cbn. rewrite Hscan. cbn.
    rewrite (proj2 (Qgt_bool_true _ _)).
    + eexists. split; [reflexivity|]. split.
      * cbn. by rewrite Hids.
      * by constructor.
    + eapply pattern_confidence_above_base; [exact Hb|done|exact Hc].
Qed.

End PatternFacts.

(** *** The catalogue, initially and as runs leave it *)

Section CatalogueFacts.
Import Analysis.

Context (lib : PyLib).

Implicit Types (ps : list (string * PatternConfig)) (agent : AnalysisAgent).

Lemma catalogue_well_formed :
  Forall (λ nc, keywords nc.2 ≠ [] ∧ evidence_patterns nc.2 ≠ [] ∧
                (1 # 10 < confidence_boost nc.2)%Q) _initialize_patterns.
Proof. repeat constructor; done. Qed.


Lemma extend_catalogue_scoring extra primary ps :
  Forall2 same_scoring (extend_catalogue extra primary ps) ps.
Proof.
  unfold extend_catalogue. destruct (supporting_data primary) as [pattern_name ?|?].
  - apply Forall2_fmap_l, Forall_Forall2_diag, Forall_forall. intros [n cfg] _.
    cbn. by destruct (String.eqb n pattern_name).
  - by apply Forall_Forall2_diag, Forall_forall.
Qed.

Lemma same_scoring_trans ps1 ps2 ps3 :
  Forall2 same_scoring ps1 ps2 → Forall2 same_scoring ps2 ps3 →
  Forall2 same_scoring ps1 ps3.
Proof.
  intros H12. revert ps3. induction H12 as [|x y l k Hxy _ IH]; intros ps3 H23.
  - by inversion H23.
  - inversion H23 as [|? z ? k' Hyz Hk]; subst. constructor; [|by apply IH].
    destruct Hxy as (? & ? & ? & ?), Hyz as (? & ? & ? & ?).
    repeat split; congruence.
Qed.

(** No run changes how the catalogue scores. *)
Lemma reachable_catalogue agent :
  reachable lib agent → Forall2 same_scoring (patterns agent) _initialize_patterns.
Proof.
  induction 1 as [|agent incident_id hc td clock _ IH|agent hc now _ IH].
  - by apply Forall_Forall2_diag, Forall_forall.
  - unfold _perform_root_cause_analysis.
    destruct (analysis_body lib agent incident_id hc td clock)
      as [[analysis_result ps']|e] eqn:E; [|done].
    cbn. unfold analysis_body in E.
    destruct (match_patterns lib (patterns agent) hc td) as [ph|]; [|done].
    cbn in E.
    destruct (historical_incidents agent) as [|hist0 history]; cbn in E;
      (destruct (rank _) as [|primary others]; [by injection E as <- <-|]);
      [done|].
    injection E as <- <-.
    eapply same_scoring_trans; [apply extend_catalogue_scoring|done].
  - done.
Qed.

Lemma same_scoring_well_formed ps :
  Forall2 same_scoring ps _initialize_patterns →
  Forall (λ nc, keywords nc.2 ≠ [] ∧ evidence_patterns nc.2 ≠ [] ∧
                (1 # 10 < confidence_boost nc.2)%Q) ps.
Proof.
  intros H. eapply Forall2_Forall_l; [exact H|].
  eapply Forall_impl; [apply catalogue_well_formed|].
  intros nc0 (Hk & He & Hb) nc (_ & -> & -> & ->). done.
Qed.

Lemma same_scoring_names ps ps0 : Forall2 same_scoring ps ps0 → ps.*1 = ps0.*1.
Proof.
  intros H. induction H as [|x y l k Hxy _ IH]; [done|].
  destruct Hxy as (Hn & _). cbn. by rewrite Hn, IH.
Qed.


End CatalogueFacts.

(** *** Pattern hypotheses *)

Section PatternClaims.
Import Analysis.

Implicit Types (lib : PyLib) (ps : list (string * PatternConfig))
  (cfg : PatternConfig) (hc : HealthCheck) (td : TriageData)
  (agent : AnalysisAgent).




(** On the catalogue of a reachable agent [match_patterns] returns one
    hypothesis for each of the six patterns. *)
Lemma match_patterns_on_reachable lib agent hc td :
  reachable lib agent →
  ∃ hs,
    match_patterns lib (patterns agent) hc td = Ok hs ∧
    length hs = 6%nat ∧
    (∀ name, name ∈ _initialize_patterns.*1 →
       ∃ h, h ∈ hs ∧ id h = "pattern_" +:+ name ∧ pattern_based h = true) ∧
    Forall (λ h, pattern_based h = true) hs.
Proof.
  intros Hr. pose proof (reachable_catalogue lib agent Hr) as Hcat.
  destruct (scan_patterns_all lib (patterns agent) (patterns agent)
              (_extract_text_data lib hc td) hc td
              (same_scoring_well_formed _ Hcat)) as (hs0 & Hscan & Hids & Hpb).
  assert (match_patterns lib (patterns agent) hc td = Ok (sort_desc confidence hs0))
    as Hm by (unfold match_patterns; by rewrite Hscan).
  assert (length hs0 = 6%nat) as Hlen.
  { rewrite <- (length_fmap id), Hids, length_fmap.
    rewrite <- (length_fmap fst), (same_scoring_names _ _ Hcat). reflexivity. }
  exists (sort_desc confidence hs0). split; [exact Hm|]. split.
  { by rewrite sort_desc_perm. }
  split; [|by rewrite sort_desc_perm].
  intros name Hname. rewrite <- (same_scoring_names _ _ Hcat) in Hname.
  apply list_elem_of_fmap in Hname as ([n cfg] & -> & Hin).
  assert ("pattern_" +:+ n ∈ id <$> hs0) as Hid.
  { rewrite Hids. apply list_elem_of_fmap. by exists (n, cfg). }
  apply list_elem_of_fmap in Hid as (h & Hid & Hh).
  exists h. rewrite sort_desc_perm. split; [done|]. split; [done|].
  rewrite Forall_forall in Hpb. by apply Hpb.
Qed.

(** In a completed run the primary hypothesis heads the reported list with
    the largest confidence, and it is pattern-based whenever some
    pattern-based hypothesis reaches that confidence. *)
Lemma completed_run_prefers_patterns lib agent incident_id hc td clock analysis_result :
  reachable lib agent →
  (_perform_root_cause_analysis lib agent incident_id hc td clock).1
    = Analysed analysis_result →
  ∃ primary,
    head (ar_hypotheses analysis_result) = Some primary ∧
    (∀ h, h ∈ ar_hypotheses analysis_result →
          (confidence h <= confidence primary)%Q) ∧
    ((∃ p, p ∈ ar_hypotheses analysis_result ∧ pattern_based p = true ∧
           (confidence p == confidence primary)%Q) →
     pattern_based primary = true).
Proof.
  intros Hr.
  destruct (match_patterns_on_reachable lib agent hc td Hr)
    as (hs & Hm & Hlen & _ & Hpb).
  unfold _perform_root_cause_analysis, analysis_body. rewrite Hm. cbn.
  set (ch := from_option _generate_correlation_hypotheses [] _).
  assert (Forall (λ h, pattern_based h = false) ch) as Hch.
  { subst ch. destruct (historical_incidents agent); [constructor|]. cbn.
    unfold _generate_correlation_hypotheses.
    destruct (Nat.leb 2 _); repeat constructor. }
  destruct (rank (hs ++ ch)) as [|primary others] eqn:Er.
  { apply sort_desc_nil, app_eq_nil in Er as [-> _]. done. }
  destruct (historical_incidents agent) as [|hist0 history]; [done|].
  cbn. intros [= <-]. cbn.
  exists (extend_primary
            (get_recommendations
               (analyze_correlations hc (correlation_now clock) (hist0 :: history)))
            primary).
  split; [done|]. cbn [confidence extend_primary].
  assert (∀ h, h ∈ others → h ∈ hs ++ ch) as Hothers.
  { intros h Hh. rewrite <- (sort_desc_perm confidence (hs ++ ch)).
    unfold rank in Er. rewrite Er. by right. }
  split.
  - intros h [->|Hh]%elem_of_cons; [apply Qle_refl|].
    eapply sort_desc_head_max; [exact Er|]. by apply Hothers.
  - intros (p & Hp & Hpat & Heq). unfold pattern_based. cbn.
    apply elem_of_cons in Hp as [->|Hp]; [exact Hpat|].
    apply Hothers, elem_of_app in Hp as [Hp|Hp].
    + pose proof (sort_desc_head_first confidence _ _ _ Er) as Hfirst.
      eapply find_app_l in Hfirst; [|exact Hp|by apply Qeq_bool_iff].
      apply List.find_some in Hfirst as [Hin _].
      rewrite Forall_forall in Hpb. apply Hpb. by apply list_elem_of_In.
    + rewrite Forall_forall in Hch. rewrite (Hch p Hp) in Hpat. done.
Qed.

(** C10: whatever the health check and the triage data, [match_patterns]
    on the catalogue of a reachable agent returns six hypotheses, one for
    every pattern of the catalogue, each pattern-based; hence an analysis
    that completes has a non-empty hypothesis list and a primary
    hypothesis: the outcome without primary hypothesis does not occur. *)
Theorem every_pattern_yields_a_hypothesis lib agent hc td :
  reachable lib agent →
  ∃ hs,
    match_patterns lib (patterns agent) hc td = Ok hs ∧
    length hs = 6%nat ∧
    (∀ name, name ∈ _initialize_patterns.*1 →
       ∃ h, h ∈ hs ∧ id h = "pattern_" +:+ name ∧ pattern_based h = true) ∧
    ∀ incident_id clock analysis_result,
      (_perform_root_cause_analysis lib agent incident_id hc td clock).1
        = Analysed analysis_result →
      ar_hypotheses analysis_result ≠ [] ∧
      is_Some (ar_primary_hypothesis analysis_result).
Proof.
  intros Hr.
  destruct (match_patterns_on_reachable lib agent hc td Hr)
    as (hs & Hm & Hlen & Hall & _).
  exists hs. do 3 (split; [done|]).
  intros incident_id clock analysis_result.
  unfold _perform_root_cause_analysis, analysis_body. rewrite Hm. cbn.
  destruct (rank _) as [|primary others] eqn:Er.
  { apply sort_desc_nil, app_eq_nil in Er as [-> _]. done. }
  destruct (historical_incidents agent) as [|hist0 history]; [done|].
  cbn. intros [= <-]. cbn. split; [done|by eexists].
Qed.

(** The fresh agent, with an empty health check and empty triage data. *)
Lemma every_pattern_yields_a_hypothesis_witness :
  reachable RefLib.lib new_agent ∧
  ∃ hs,
    match_patterns RefLib.lib _initialize_patterns Scenarios.empty_health_check
      Scenarios.empty_triage_data = Ok hs ∧
    length hs = 6%nat.
Proof.
  assert (reachable RefLib.lib new_agent) as Hr by constructor.
  split; [exact Hr|].
  destruct (every_pattern_yields_a_hypothesis RefLib.lib new_agent
              Scenarios.empty_health_check Scenarios.empty_triage_data Hr)
    as (hs & Hm & Hlen & _).
  exists hs. exact (conj Hm Hlen).
Defined.

End PatternClaims.

(** *** Recommendations *)

Section RecommendationClaims.
Import Analysis.

Implicit Types (lib : PyLib) (agent : AnalysisAgent) (hc : HealthCheck)
  (td : TriageData).

(** With at least one historical incident the run completes, and its
    recommendations are the actions of the primary hypothesis followed by
    the recommendations of the correlation analysis. *)
Lemma recommendations_with_history lib agent incident_id hc td clock :
  reachable lib agent →
  historical_incidents agent ≠ [] →
  ∃ analysis_result pattern_hypotheses primary others,
    (_perform_root_cause_analysis lib agent incident_id hc td clock).1
      = Analysed analysis_result ∧
    match_patterns lib (patterns agent) hc td = Ok pattern_hypotheses ∧
    rank (pattern_hypotheses ++
          _generate_correlation_hypotheses
            (analyze_correlations hc (correlation_now clock)
               (historical_incidents agent))) = primary :: others ∧
    ar_recommendations analysis_result =
      recommended_actions primary ++
      get_recommendations
        (analyze_correlations hc (correlation_now clock) (historical_incidents agent)).
Proof.
  intros Hr Hh.
  destruct (match_patterns_on_reachable lib agent hc td Hr)
    as (hs & Hm & Hlen & _ & _).
  unfold _perform_root_cause_analysis, analysis_body. rewrite Hm. cbn.
  destruct (historical_incidents agent) as [|hist0 history] eqn:Eh; [done|].
  cbn. destruct (rank _) as [|primary others] eqn:Er.
  { apply sort_desc_nil, app_eq_nil in Er as [-> _]. done. }
  cbn. by eexists _, hs, primary, others.
Qed.

(** With an empty history the local [correlations] is read before it is
    bound, and the run returns the error dictionary. *)
Lemma empty_history_run_fails lib agent incident_id hc td clock :
  reachable lib agent →
  historical_incidents agent = [] →
  _perform_root_cause_analysis lib agent incident_id hc td clock =
  (AnalysisFailed incident_id "error" (str_exn (UnboundLocalError "correlations")),
   agent).
Proof.
  intros Hr Hh.
  destruct (match_patterns_on_reachable lib agent hc td Hr)
    as (hs & Hm & Hlen & _ & _).
  unfold _perform_root_cause_analysis, analysis_body. rewrite Hm, Hh. cbn.
  destruct (rank _) as [|primary others] eqn:Er; [|done].
  apply sort_desc_nil, app_eq_nil in Er as [-> _]. done.
Qed.

(** Once the first incident is in the history, the same outage is analysed
    to completion: the database pattern is primary with confidence 0.92, and
    the recommendations are its four actions (the single stored incident
    yields no correlation recommendation). *)
Lemma second_analysis_completes :
  ∃ analysis_result,
    (_perform_root_cause_analysis RefLib.lib Scenarios.agent_with_history "INC_2"
       Scenarios.outage_health_check Scenarios.outage_triage_data
       Scenarios.analysis_clock).1 = Analysed analysis_result ∧
    (ph_id <$> ar_primary_hypothesis analysis_result) =
      Some "pattern_database_connection_error" ∧
    ((λ p, Qred (ph_confidence p)) <$> ar_primary_hypothesis analysis_result) =
      Some (23 # 25) ∧
    ar_confidence_level analysis_result = high ∧
    ar_recommendations analysis_result =
      ["Check database server availability";
       "Verify connection string and credentials";
       "Check connection pool settings";
       "Monitor database server resources"].
Proof. eexists. split; [by vm_compute|]. by vm_compute. Qed.

(** With three similar incidents in the history the correlation analysis
    recommends a permanent fix; the recommendation is appended in place to
    the action list of the primary hypothesis, which is the list of the
    catalogue entry: the database pattern of the agent has five actions
    after the run. *)
Lemma run_extends_the_catalogue_entry :
  let run :=
    _perform_root_cause_analysis RefLib.lib Scenarios.agent_with_three "INC_4"
      Scenarios.outage_health_check Scenarios.outage_triage_data
      Scenarios.analysis_clock in
  (∃ analysis_result,
     run.1 = Analysed analysis_result ∧
     ar_recommendations analysis_result =
       ["Check database server availability";
        "Verify connection string and credentials";
        "Check connection pool settings";
        "Monitor database server resources";
        "This type of incident occurs frequently - consider permanent fix"]) ∧
  (actions <$> (snd <$> head (patterns Scenarios.agent_with_three))) =
    Some ["Check database server availability";
          "Verify connection string and credentials";
          "Check connection pool settings";
          "Monitor database server resources"] ∧
  (actions <$> (snd <$> head (patterns run.2))) =
    Some ["Check database server availability";
          "Verify connection string and credentials";
          "Check connection pool settings";
          "Monitor database server resources";
          "This type of incident occurs frequently - consider permanent fix"].
Proof.
  split; [eexists; split; by vm_compute|]. split; by vm_compute.
Qed.

End RecommendationClaims.

(** C8 (the code departs from the claim): the first analysis of a fresh
    agent, whose historical-incident store is empty, should complete with
    the primary hypothesis' actions as recommendations; it returns the
    error dictionary instead, because the local [correlations] is only
    bound when the store is not empty. *)
Theorem first_analysis_returns_error :
  Analysis.historical_incidents Analysis.new_agent = [] ∧
  Analysis._perform_root_cause_analysis RefLib.lib Analysis.new_agent "INC_1"
    Scenarios.outage_health_check Scenarios.outage_triage_data
    Scenarios.analysis_clock =
  (Analysis.AnalysisFailed "INC_1" "error"
     (str_exn (UnboundLocalError "correlations")),
   Analysis.new_agent).
Proof. split; [reflexivity|]. by vm_compute. Qed.

(** ** Notification dispatcher *)

Section DispatcherFacts.
Import Notification.

Implicit Types (s : AlertDeliveryService) (r : Request) (k : string).

(** The [except] clause changes neither the deliveries attempted nor the
    service. *)
Lemma process_of_body s r :
  attempt (_process_notification_request s r).1 = attempt (request_body s r).1 ∧
  (_process_notification_request s r).2 = (request_body s r).2.
Proof.
  unfold _process_notification_request.
  destruct (request_body s r) as [o s']. by destruct (ended o).
Qed.

(** No request is answered: whichever branch is taken, the call of
    [send_response] raises, the one of the [except] clause raises again, and
    that exception leaves the handler. *)
Lemma process_ends_in_attribute_error s r :
  ended (_process_notification_request s r).1 =
  Raise (AttributeError "'AgentCommunication' object has no attribute 'send_response'").
Proof.
  unfold _process_notification_request, request_body.
  destruct (_is_in_cooldown s (incident r) (checked_at r)); [done|].
  by destruct (_determine_delivery_channels s (incident r)).
Qed.

(** A request either leaves the service as it was, with no delivery
    attempted, or attempts delivery and records its key. *)
Lemma process_cases s r :
  (attempt (_process_notification_request s r).1 = None ∧
   (_process_notification_request s r).2 = s) ∨
  (is_Some (attempt (_process_notification_request s r).1) ∧
   (_process_notification_request s r).2 =
     _update_cooldown_tracking s (incident r) (recorded_at r) (pruned_at r)).
Proof.
  destruct (process_of_body s r) as [-> ->]. unfold request_body.
  destruct (_is_in_cooldown s (incident r) (checked_at r)); [by left|].
  destruct (_determine_delivery_channels s (incident r)); [by left|].
  right. by split; [eexists|].
Qed.

Lemma process_config s r :
  notification_config (_process_notification_request s r).2
    = notification_config s.
Proof. destruct (process_cases s r) as [[_ ->]|[_ ->]]; done. Qed.

Lemma process_all_config (requests : list Request) :
  ∀ s, notification_config (process_all s requests).2 = notification_config s.
Proof.
  induction requests as [|r requests IH]; intros s; [done|]. cbn.
  pose proof (process_config s r) as H1.
  destruct (_process_notification_request s r) as [o s1].
  specialize (IH s1). destruct (process_all s1 requests) as [os s2].
  cbn in *. congruence.
Qed.

(** The entry written by a delivery survives its own pruning pass unless
    the two clock readings are more than an hour apart. *)
Lemma update_records_key s (inc : Incident) now cutoff_now :
  cutoff_now - hour_us ≤ now →
  recent_alerts (_update_cooldown_tracking s inc now cutoff_now) !! cooldown_key inc
    = Some now.
Proof.
  intros H. cbn. apply map_lookup_filter_Some. split; [apply lookup_insert_eq|].
  cbn. lia.
Qed.

(** An entry not older than [t0] survives a request whose pruning cutoff
    is not after [t0]; the request may replace it by a later one. *)
Lemma process_keeps_entry s r k t0 t :
  recent_alerts s !! k = Some t → t0 ≤ t →
  pruned_at r - hour_us ≤ t0 → t0 ≤ recorded_at r →
  ∃ t', recent_alerts (_process_notification_request s r).2 !! k = Some t' ∧
        t0 ≤ t'.
Proof.
  intros Hk Ht Hp Hrec.
  destruct (process_cases s r) as [[_ ->]|[_ ->]]; [by exists t|].
  cbn. destruct (decide (cooldown_key (incident r) = k)) as [<-|Hne].
  - exists (recorded_at r). split; [|done].
    apply map_lookup_filter_Some. split; [apply lookup_insert_eq|]. cbn. lia.
  - exists t. split; [|done].
    apply map_lookup_filter_Some. split; [by rewrite lookup_insert_ne|]. cbn. lia.
Qed.

Lemma process_all_keeps_entry (between : list Request) k t0 :
  Forall (λ m, pruned_at m - hour_us ≤ t0) between →
  Forall (λ m, t0 ≤ recorded_at m) between →
  ∀ s t, recent_alerts s !! k = Some t → t0 ≤ t →
  ∃ t', recent_alerts (process_all s between).2 !! k = Some t' ∧ t0 ≤ t'.
Proof.
  induction between as [|m between IH]; intros Hp Hrec s t Hk Ht; [by exists t|].
  apply Forall_cons in Hp as [Hp1 Hp], Hrec as [Hr1 Hrec]. cbn.
  destruct (process_keeps_entry s m k t0 t Hk Ht Hp1 Hr1) as (t1 & Hk1 & Ht1).
  destruct (_process_notification_request s m) as [o s1].
  destruct (IH Hp Hrec s1 t1 Hk1 Ht1) as (t2 & Hk2 & Ht2).
  destruct (process_all s1 between) as [os s2]. by exists t2.
Qed.

(** A request whose key has an entry younger than the cooldown window
    takes the cooldown branch: no delivery, the service untouched. *)
Lemma process_in_cooldown s r t :
  recent_alerts s !! cooldown_key (incident r) = Some t →
  checked_at r - t < default 15 (cooldown_period (notification_config s)) * minute_us →
  _is_in_cooldown s (incident r) (checked_at r) = true ∧
  attempt (_process_notification_request s r).1 = None ∧
  (_process_notification_request s r).2 = s.
Proof.
  intros Hk Ht.
  assert (_is_in_cooldown s (incident r) (checked_at r) = true) as Hcool.
  { unfold _is_in_cooldown. rewrite Hk. by rewrite bool_decide_eq_true_2. }
  split; [done|]. destruct (process_of_body s r) as [-> ->].
  unfold request_body. by rewrite Hcool.
Qed.

(** With a cooldown window of at most one hour and a clock that does not
    run backwards, no pruning pass before the second request can remove
    the entry of the first delivery. *)
Lemma cooldown_within_horizon (cooldown t0 t2 : Z) (requests : list Request) :
  cooldown * minute_us ≤ hour_us →
  t2 - t0 < cooldown * minute_us →
  Forall (λ m, pruned_at m ≤ t2) requests →
  Forall (λ m, pruned_at m - hour_us ≤ t0) requests.
Proof.
  intros Hc Ht H. eapply Forall_impl; [exact H|]. intros m Hm. cbn in *. lia.
Qed.

End DispatcherFacts.

Section DispatcherClaims.
Import Notification.

(** C3, as amended: when a request attempts delivery and a request with
    the same cooldown key is checked less than the cooldown window after
    the first one's entry, the second is found in cooldown, attempts no
    delivery and leaves the cooldown map as it is, so the pair sees exactly
    one delivery attempt; the entry of the key is the one written by the
    delivery attempt.  This holds provided the entry of the first delivery
    has not been pruned: no delivery up to the second request (the first
    one included) takes its pruning cutoff more than one hour after that
    entry, which a cooldown window of at most 60 minutes guarantees.  What
    becomes of the response is no part of the statement. *)
Theorem cooldown_skips_the_second_request
    (s : AlertDeliveryService) (r1 r2 : Request) (between : list Request) :
  cooldown_key (incident r1) = cooldown_key (incident r2) →
  is_Some (attempt (_process_notification_request s r1).1) →
  checked_at r2 - recorded_at r1 <
    default 15 (cooldown_period (notification_config s)) * minute_us →
  Forall (λ m, pruned_at m - hour_us ≤ recorded_at r1) (r1 :: between) →
  Forall (λ m, recorded_at r1 ≤ recorded_at m) between →
  let s1 := (_process_notification_request s r1).2 in
  let s2 := (process_all s1 between).2 in
  recent_alerts s1 !! cooldown_key (incident r1) = Some (recorded_at r1) ∧
  _is_in_cooldown s2 (incident r2) (checked_at r2) = true ∧
  attempt (_process_notification_request s2 r2).1 = None ∧
  (_process_notification_request s2 r2).2 = s2 ∧
  attempts
    [(_process_notification_request s r1).1;
     (_process_notification_request s2 r2).1] = 1%nat.
Proof.
  intros Hkey Hatt Hwin Hprune Hchron s1 s2.
  apply Forall_cons in Hprune as [Hp1 Hprune].
  assert (recent_alerts s1 !! cooldown_key (incident r1) = Some (recorded_at r1))
    as H1.
  { subst s1. destruct (process_cases s r1) as [[Hnone _]|[_ ->]].
    - rewrite Hnone in Hatt. by destruct Hatt.
    - by apply update_records_key. }
  pose proof (process_config s r1) as Hcfg1. fold s1 in Hcfg1.
  destruct (process_all_keeps_entry between _ _ Hprune Hchron
              s1 _ H1 (Z.le_refl _)) as (t' & Hk' & Ht').
  pose proof (process_all_config between s1) as Hcfg2.
  fold s2 in Hk', Hcfg2.
  destruct (process_in_cooldown s2 r2 t') as (Hcool & Hnone & Hsame).
  { by rewrite <- Hkey. }
  { rewrite Hcfg2, Hcfg1. lia. }
  do 4 (split; [done|]).
  destruct Hatt as [d Hd]. unfold attempts.
  cbn [List.filter]. by rewrite Hd, Hnone.
Qed.

End DispatcherClaims.

Section DispatcherWitnesses.
Import Notification Scenarios.

(** Under the default 15 minutes: [svc-a] is notified at minute 0, [svc-b]
    at minute 2, and the request for [svc-a] at minute 5 attempts no
    delivery. *)
Lemma cooldown_skips_the_second_request_witness :
  cooldown_key (incident (request "svc-a" "high" 0)) =
    cooldown_key (incident (request "svc-a" "high" 5)) ∧
  is_Some (attempt (_process_notification_request
                      (new_service (channels 15)) (request "svc-a" "high" 0)).1) ∧
  checked_at (request "svc-a" "high" 5) - recorded_at (request "svc-a" "high" 0) <
    default 15 (cooldown_period (notification_config (new_service (channels 15))))
    * minute_us ∧
  attempt
    (_process_notification_request
       (process_all
          (_process_notification_request (new_service (channels 15))
             (request "svc-a" "high" 0)).2
          [request "svc-b" "high" 2]).2
       (request "svc-a" "high" 5)).1 = None.
Proof.
  assert (cooldown_key (incident (request "svc-a" "high" 0)) =
          cooldown_key (incident (request "svc-a" "high" 5))) as Hkey
    by reflexivity.
  assert (is_Some (attempt (_process_notification_request
                              (new_service (channels 15))
                              (request "svc-a" "high" 0)).1)) as Hatt
    by (vm_compute; eexists; reflexivity).
  assert (checked_at (request "svc-a" "high" 5) -
          recorded_at (request "svc-a" "high" 0) <
          default 15 (cooldown_period
                        (notification_config (new_service (channels 15))))
          * minute_us) as Hwin
    by (vm_compute; reflexivity).
  assert (Forall (λ m, pruned_at m - hour_us ≤ recorded_at (request "svc-a" "high" 0))
            [request "svc-a" "high" 0; request "svc-b" "high" 2]) as Hprune
    by (repeat constructor; vm_compute; discriminate).
  assert (Forall (λ m, recorded_at (request "svc-a" "high" 0) ≤ recorded_at m)
            [request "svc-b" "high" 2]) as Hchron
    by (repeat constructor; vm_compute; discriminate).
  do 3 (split; [assumption|]).
  exact (proj1 (proj2 (proj2
    (cooldown_skips_the_second_request
       (new_service (channels 15))
       (request "svc-a" "high" 0) (request "svc-a" "high" 5)
       [request "svc-b" "high" 2] Hkey Hatt Hwin Hprune Hchron)))).
Defined.

(** The claim C3 as stated fails for a cooldown window of 120 minutes:
    [svc-a] is notified at minute 0; the delivery for [svc-b] at minute 61
    prunes the entry of [svc-a], older than one hour; the request for
    [svc-a] at minute 90, well inside the window, is not found in cooldown
    and is delivered again, on both channels. *)
Lemma long_cooldown_entry_is_pruned :
  cooldown_key (incident (request "svc-a" "high" 0)) =
    cooldown_key (incident (request "svc-a" "high" 90)) ∧
  is_Some (attempt (_process_notification_request
                      (new_service (channels 120)) (request "svc-a" "high" 0)).1) ∧
  checked_at (request "svc-a" "high" 90) - recorded_at (request "svc-a" "high" 0) <
    default 15 (cooldown_period (notification_config (new_service (channels 120))))
    * minute_us ∧
  attempt
    (_process_notification_request
       (process_all
          (_process_notification_request (new_service (channels 120))
             (request "svc-a" "high" 0)).2
          [request "svc-b" "high" 61]).2
       (request "svc-a" "high" 90)).1
    = Some [sent (90 * minute_us) "slack"; sent (90 * minute_us) "email"] ∧
  attempts
    (process_all (new_service (channels 120))
       [request "svc-a" "high" 0; request "svc-b" "high" 61;
        request "svc-a" "high" 90]).1 = 3%nat.
Proof.
  split; [reflexivity|]. split; [vm_compute; eexists; reflexivity|].
  split; [vm_compute; reflexivity|]. split; by vm_compute.
Qed.

End DispatcherWitnesses.

(** * Properties of the operations around the claims *)

(** ** Message bus: inboxes, the pending table, waiting *)

Section BusOperations.
Import Messaging.

Context {Data : Type}.
Implicit Types (q : MessageQueue Data) (m : Message Data).

Lemma receive_messages_inbox q r :
  (receive_messages q r).1 = default [] (queues q !! r).
Proof. unfold receive_messages. by destruct (queues q !! r). Qed.

Lemma send_message_inbox q m r :
  default [] (queues (send_message q m).2 !! r) =
  default [] (queues q !! r) ++ (if bool_decide (recipient m = r) then [m] else []).
Proof.
  unfold send_message. cbn [snd queues]. case_bool_decide as E.
  - subst r. by rewrite lookup_insert_eq.
  - rewrite lookup_insert_ne by done. by rewrite app_nil_r.
Qed.

Lemma send_messages_inbox q ms r :
  default [] (queues (send_messages q ms) !! r) =
  default [] (queues q !! r) ++ List.filter (fun m => bool_decide (recipient m = r)) ms.
Proof.
  unfold send_messages. revert q. induction ms as [|m ms IH]; intros q.
  - by rewrite app_nil_r.
  - cbn [foldl List.filter]. rewrite IH, send_message_inbox.
    rewrite <- app_assoc. by case_bool_decide.
Qed.

(** Messages for one recipient are received in the order they were sent,
    after those already waiting and whatever was sent to others in between;
    receiving empties the inbox. *)
Theorem inbox_is_first_in_first_out q ms r :
  (receive_messages (send_messages q ms) r).1 =
    default [] (queues q !! r) ++
    List.filter (fun m => bool_decide (recipient m = r)) ms ∧
  (receive_messages (receive_messages (send_messages q ms) r).2 r).1 = [].
Proof.
  split.
  - by rewrite receive_messages_inbox, send_messages_inbox.
  - rewrite receive_messages_inbox. unfold receive_messages.
    destruct (queues (send_messages q ms) !! r) eqn:E; cbn [snd queues].
    + by rewrite lookup_insert_eq.
    + by rewrite E.
Qed.

Lemma process_loop_appends (messages processed : list (Message Data)) :
  foldl (fun processed message =>
           if requires_response message then processed ++ [message]
           else processed ++ [message]) processed messages
  = processed ++ messages.
Proof.
  revert processed. induction messages as [|m ms IH]; intros processed.
  - by rewrite app_nil_r.
  - cbn [foldl]. destruct (requires_response m); rewrite IH, <- app_assoc; done.
Qed.

(** [process_messages] hands back the whole inbox, in order, whether or not
    a message requires a response, and leaves the inbox empty: it is
    [receive_messages]. *)
Theorem process_messages_returns_the_inbox agent_name q :
  process_messages agent_name q = receive_messages q agent_name.
Proof.
  unfold process_messages. destruct (receive_messages q agent_name) as [ms q'].
  by rewrite process_loop_appends.
Qed.

(** Registering a handler loses no message: every inbox, the one of the
    registered agent included, holds what it held before. *)
Theorem register_handler_keeps_the_inboxes {Handler : Type}
    (handlers : gmap string Handler) q agent_name (handler : Handler) :
  (register_handler handlers q agent_name handler).1 !! agent_name = Some handler ∧
  ∀ r, (receive_messages (register_handler handlers q agent_name handler).2 r).1
       = (receive_messages q r).1.
Proof.
  split.
  - unfold register_handler. cbn [fst]. by rewrite lookup_insert_eq.
  - intros r. rewrite !receive_messages_inbox. unfold register_handler. cbn [snd].
    destruct (queues q !! agent_name) eqn:E; [done|]. cbn [queues].
    destruct (decide (r = agent_name)) as [->|Hne].
    + by rewrite lookup_insert_eq, E.
    + by rewrite lookup_insert_ne.
Qed.

Lemma wait_loop_ends start_time timeout clock :
  Exists (fun t => (timeout <= t - start_time)%Q) clock →
  wait_loop start_time timeout clock = Some ().
Proof.
  induction 1 as [t rest H|t rest _ IH]; cbn [wait_loop].
  - apply Qle_bool_iff in H. by rewrite H.
  - destruct (Qle_bool timeout (t - start_time)); [done|]. exact IH.
Qed.

Lemma wait_loop_running start_time timeout clock :
  Forall (fun t => (t - start_time < timeout)%Q) clock →
  wait_loop start_time timeout clock = None.
Proof.
  induction 1 as [|t rest H _ IH]; [done|]. cbn [wait_loop].
  destruct (Qle_bool timeout (t - start_time)) eqn:E; [|exact IH].
  apply Qle_bool_iff in E. by apply Qlt_not_le in H.
Qed.

(** Once the clock has passed the timeout, [wait_for_response] returns
    [None], whatever the queues hold, and the pending request registered
    under the correlation id is forgotten; the other entries and the
    inboxes are left alone. *)
Theorem wait_for_response_gives_no_message q correlation_id timeout start_time clock :
  Exists (fun t => (timeout <= t - start_time)%Q) clock →
  ∃ q', wait_for_response q correlation_id timeout start_time clock = Some (None, q') ∧
        pending_responses q' !! correlation_id = None ∧
        (∀ k, k ≠ correlation_id →
              pending_responses q' !! k = pending_responses q !! k) ∧
        queues q' = queues q.
Proof.
  intros H. unfold wait_for_response. rewrite (wait_loop_ends _ _ _ H).
  eexists. split; [reflexivity|]. cbn [pending_responses queues].
  split; [by rewrite lookup_delete_eq|]. split; [|done].
  intros k Hk. by rewrite lookup_delete_ne.
Qed.

(** Before that it has not returned. *)
Lemma wait_for_response_still_waiting q correlation_id timeout start_time clock :
  Forall (fun t => (t - start_time < timeout)%Q) clock →
  wait_for_response q correlation_id timeout start_time clock = None.
Proof. intros H. unfold wait_for_response. by rewrite (wait_loop_running _ _ _ H). Qed.

(** Sending, receiving and responding never remove an entry of the
    pending table: answering a request does not clear it. *)
Theorem pending_entry_outlives_the_response q k :
  is_Some (pending_responses q !! k) →
  (∀ m, is_Some (pending_responses (send_message q m).2 !! k)) ∧
  (∀ agent_name, is_Some (pending_responses (receive_messages q agent_name).2 !! k)) ∧
  (∀ m d mid now, is_Some (pending_responses (send_response q m d mid now).2 !! k)).
Proof.
  intros Hk. split; [|split].
  - intros m. unfold send_message. cbn [snd pending_responses].
    destruct (requires_response m); [|done].
    destruct (decide (correlation_id m = k)) as [->|Hne].
    + by rewrite lookup_insert_eq.
    + by rewrite lookup_insert_ne.
  - intros a. unfold receive_messages. by destruct (queues q !! a).
  - intros m d mid now. unfold send_response.
    destruct (negb (truthy_str (correlation_id m))); [done|].
    destruct (MessageType_of_value _); [|done].
    unfold send_message. cbn [snd pending_responses requires_response]. done.
Qed.

End BusOperations.

Lemma wait_for_response_gives_no_message_witness :
  ∃ q', Messaging.wait_for_response Scenarios.bus_with_request
          (Some "triage_INC_1") 300 0 Scenarios.waiting_clock = Some (None, q') ∧
        Messaging.pending_responses q' !! Some "triage_INC_1" = None ∧
        (∀ k, k ≠ Some "triage_INC_1" →
              Messaging.pending_responses q' !! k =
              Messaging.pending_responses Scenarios.bus_with_request !! k) ∧
        Messaging.queues q' = Messaging.queues Scenarios.bus_with_request.
Proof.
  apply (wait_for_response_gives_no_message Scenarios.bus_with_request
           (Some "triage_INC_1") 300 0 Scenarios.waiting_clock).
  unfold Scenarios.waiting_clock.
  apply Exists_cons_tl, Exists_cons_tl, Exists_cons_hd. lra.
Defined.

Lemma pending_entry_outlives_the_response_witness :
  is_Some (Messaging.pending_responses Scenarios.bus_with_request !! Some "triage_INC_1") ∧
  is_Some (Messaging.pending_responses
             (Messaging.send_response Scenarios.bus_with_request
                Scenarios.triage_request "completed" "MSG_2" 1).2
           !! Some "triage_INC_1").
Proof.
  assert (is_Some (Messaging.pending_responses Scenarios.bus_with_request
                   !! Some "triage_INC_1")) as H
    by (vm_compute; eexists; reflexivity).
  split; [exact H|].
  apply (pending_entry_outlives_the_response Scenarios.bus_with_request _ H).
Defined.

(** ** Health monitor: streaks, severities, the purge, certificate warnings *)

Section MonitorOperations.
Import Messaging Monitoring.

Implicit Types (a : MonitoringAgent) (c : HealthChecker) (p : Probe)
  (r : Readings) (i : Incident).

Lemma check_health_passes c p : hc_success (check_health c p).1 = passes (config c) p.
Proof.
  unfold passes, check_health, new_checker. cbn [config].
  destruct (probe_http p); cbv zeta; [|done]. by destruct (_ && _).
Qed.

Lemma after_probes_snoc c ps p :
  after_probes c (ps ++ [p]) = (check_health (after_probes c ps) p).2.
Proof. unfold after_probes. by rewrite foldl_app. Qed.

Lemma after_probes_config c ps : config (after_probes c ps) = config c.
Proof.
  induction ps as [|p ps IH] using rev_ind; [done|].
  by rewrite after_probes_snoc, check_health_config.
Qed.

(** Without a success the streak grows by one with each probe. *)
Lemma streak_without_success c ps :
  Forall (fun p => passes (config c) p = false) ps →
  consecutive_failures (after_probes c ps) =
  consecutive_failures c + Z.of_nat (length ps).
Proof.
  induction ps as [|p ps IH] using rev_ind; intros H.
  - cbn. lia.
  - apply Forall_app in H as [Hps Hp]. apply Forall_inv in Hp.
    rewrite after_probes_snoc, check_health_streak, check_health_passes.
    rewrite after_probes_config, Hp, IH by done. rewrite length_app. cbn. lia.
Qed.

(** The streak of a checker is the number of failed probes since its last
    successful one, and an incident is due exactly when that number has
    reached the threshold. *)
Theorem streak_counts_failures_since_last_success c before p_ok after :
  passes (config c) p_ok = true →
  Forall (fun p => passes (config c) p = false) after →
  consecutive_failures (after_probes c (before ++ p_ok :: after)) =
    Z.of_nat (length after) ∧
  ∀ threshold,
    should_trigger_incident (after_probes c (before ++ p_ok :: after)) threshold =
    bool_decide (threshold ≤ Z.of_nat (length after)).
Proof.
  intros Hok Hafter.
  assert (consecutive_failures (after_probes c (before ++ p_ok :: after)) =
          Z.of_nat (length after)) as E.
  { unfold after_probes. rewrite foldl_app. cbn [foldl].
    fold (after_probes c before).
    set (c1 := (check_health (after_probes c before) p_ok).2).
    fold (after_probes c1 after).
    assert (config c1 = config c) as Hc
      by (unfold c1; by rewrite check_health_config, after_probes_config).
    rewrite streak_without_success by (by rewrite Hc).
    unfold c1. rewrite check_health_streak, check_health_passes.
    rewrite after_probes_config, Hok. lia. }
  split; [exact E|]. intros threshold. unfold should_trigger_incident. by rewrite E.
Qed.

(** *** The formatted error messages never mention a timeout *)

Lemma lower_app s1 s2 : lower (s1 +:+ s2) = lower s1 +:+ lower s2.
Proof.
  induction s1 as [|ch s1 IH]; [done|].
  change (String ch s1 +:+ s2) with (String ch (s1 +:+ s2)).
  cbn [lower]. by rewrite IH.
Qed.

Lemma lower_unchanged s :
  Forall (fun ch => lower_ascii ch = ch) (list_ascii_of_string s) → lower s = s.
Proof.
  induction s as [|ch s IH]; [done|]. cbn [list_ascii_of_string lower].
  intros [Hc Hs]%Forall_cons. by rewrite Hc, IH.
Qed.

Lemma timeout_not_in_prefix d s :
  Forall (fun ch => ch ≠ "t"%char) (list_ascii_of_string d) →
  contains "timeout" (d +:+ s) = contains "timeout" s.
Proof.
  induction d as [|ch d IH]; [done|]. cbn [list_ascii_of_string].
  intros [Hc Hd]%Forall_cons.
  change (String ch d +:+ s) with (String ch (d +:+ s)).
  cbn [contains]. rewrite IH by done. cbn [String.prefix].
  by destruct (ascii_dec "t" ch) as [<-|].
Qed.

Lemma pretty_N_go_chars (P : ascii → Prop) (x : N) (s : string) :
  (∀ d, P (pretty_N_char d)) →
  Forall P (list_ascii_of_string s) →
  Forall P (list_ascii_of_string (pretty_N_go x s)).
Proof.
  intros HP. revert s. induction (N.lt_wf_0 x) as [x _ IH]; intros s Hs.
  assert (x = 0 ∨ 0 < x)%N as [->|Hx] by lia.
  - by rewrite pretty_N_go_0.
  - rewrite pretty_N_go_step by done. apply IH; [by apply N.div_lt|].
    cbn [list_ascii_of_string]. by constructor.
Qed.

Lemma pretty_Z_chars (P : ascii → Prop) (z : Z) :
  (∀ d, P (pretty_N_char d)) → P "-"%char →
  Forall P (list_ascii_of_string (pretty z)).
Proof.
  intros HP Hdash.
  assert (∀ x : N, Forall P (list_ascii_of_string (pretty x))) as HN.
  { intros x. unfold pretty, pretty_N. case_decide.
    - cbn. constructor; [exact (HP 0%N)|constructor].
    - by apply pretty_N_go_chars. }
  destruct z as [|x|x]; unfold pretty, pretty_Z.
  - cbn. constructor; [exact (HP 0%N)|constructor].
  - apply HN.
  - cbn [String.append list_ascii_of_string]. constructor; [done|]. apply HN.
Qed.

Lemma pretty_N_char_plain d :
  pretty_N_char d ≠ "t"%char ∧ lower_ascii (pretty_N_char d) = pretty_N_char d.
Proof. unfold pretty_N_char. by repeat case_match. Qed.

Lemma pretty_Z_has_no_t (z : Z) :
  Forall (fun ch => ch ≠ "t"%char) (list_ascii_of_string (pretty z)).
Proof. apply pretty_Z_chars; [intros d; apply pretty_N_char_plain|done]. Qed.

Lemma pretty_Z_lower (z : Z) : lower (pretty z) = pretty z.
Proof.
  apply lower_unchanged, pretty_Z_chars; [intros d; apply pretty_N_char_plain|done].
Qed.

Ltac push_append :=
  repeat first
    [ progress change (String ?ch ?s1 +:+ ?s2) with (String ch (s1 +:+ s2))
    | progress change (EmptyString +:+ ?s2) with s2 ].

Lemma status_message_has_no_timeout (status_code : Z) :
  contains "timeout" (lower ("HTTP " +:+ pretty status_code +:+ " error")) = false.
Proof.
  rewrite !lower_app, pretty_Z_lower.
  change (lower "HTTP ") with "http ". change (lower " error") with " error".
  push_append. cbn. by rewrite timeout_not_in_prefix by apply pretty_Z_has_no_t.
Qed.

Lemma slow_message_has_no_timeout (response_time : Q) (threshold : Z) :
  contains "timeout"
    (lower ("Response time " +:+ fmt_0f response_time +:+ "ms exceeds threshold " +:+
            pretty threshold +:+ "ms")) = false.
Proof.
  unfold fmt_0f. rewrite !lower_app, !pretty_Z_lower.
  change (lower "Response time ") with "response time ".
  change (lower "ms exceeds threshold ") with "ms exceeds threshold ".
  change (lower "ms") with "ms".
  push_append. cbn. rewrite timeout_not_in_prefix by apply pretty_Z_has_no_t.
  push_append. cbn. by rewrite timeout_not_in_prefix by apply pretty_Z_has_no_t.
Qed.

Lemma determine_error_message_has_no_timeout c status_code response_time :
  contains "timeout" (lower (_determine_error_message c status_code response_time))
  = false.
Proof.
  unfold _determine_error_message.
  destruct (negb (bool_decide _)); [apply status_message_has_no_timeout|].
  destruct (negb (Qle_bool _ _)); [apply slow_message_has_no_timeout|done].
Qed.

(** The severity of the incident a probe can open.  A probe that raised is
    rated High when the error is timeout-like and Low otherwise (so an
    endpoint that fails on its certificate, or cannot be resolved, is rated
    Low); a probe that was answered is rated by its status code alone:
    Critical from 500, Medium from 400, Low below, however slow it was. *)
Theorem alert_level_of_a_probe c p :
  _determine_alert_level (check_health c p).1 =
  match probe_http p with
  | Failed str_e => if is_timeout_error str_e then HIGH else LOW
  | Responded status_code =>
      if bool_decide (500 ≤ status_code) then CRITICAL
      else if bool_decide (400 ≤ status_code) then MEDIUM
      else LOW
  end.
Proof.
  unfold check_health, _determine_alert_level.
  destruct (probe_http p) as [status_code|str_e]; cbv zeta.
  - destruct (bool_decide (status_code ∈ expected_status (config c)) && _);
      cbn [fst hc_error_message hc_status_code truthy_str default].
    + done.
    + unfold Datatypes.id.
      rewrite determine_error_message_has_no_timeout. by rewrite andb_false_r.
  - cbn [fst hc_error_message hc_status_code default]. unfold Datatypes.id.
    destruct (is_timeout_error str_e) eqn:Et; [done|].
    assert (contains "timeout" (lower str_e) = false) as Hno.
    { unfold is_timeout_error in Et. cbn [existsb] in Et.
      by apply orb_false_elim in Et as [Et _]. }
    destruct (is_ssl_error str_e); [done|].
    rewrite Hno, andb_false_r. done.
Qed.

(** The verdict on a probe that was answered.  It fails exactly when the
    status code is unexpected or the response slower than the threshold; the
    message then names the status code when that is unexpected, even if the
    response was slow as well, and the response time otherwise.  The third
    message of [_determine_error_message], "Health check failed", is never
    produced. *)
Theorem answered_probe_verdict c p status_code :
  probe_http p = Responded status_code →
  hc_success (check_health c p).1 =
    bool_decide (status_code ∈ expected_status (config c)) &&
    Qle_bool (probe_elapsed_ms p) (inject_Z (response_time_threshold (config c))) ∧
  hc_error_message (check_health c p).1 =
    (if negb (bool_decide (status_code ∈ expected_status (config c))) then
       Some ("HTTP " +:+ pretty status_code +:+ " error")
     else if negb (Qle_bool (probe_elapsed_ms p)
                            (inject_Z (response_time_threshold (config c)))) then
       Some ("Response time " +:+ fmt_0f (probe_elapsed_ms p) +:+
             "ms exceeds threshold " +:+
             pretty (response_time_threshold (config c)) +:+ "ms")
     else None) ∧
  hc_error_message (check_health c p).1 ≠ Some "Health check failed".
Proof.
  intros Hp. unfold check_health, _determine_error_message. rewrite Hp. cbv zeta.
  destruct (bool_decide (status_code ∈ expected_status (config c)));
    destruct (Qle_bool (probe_elapsed_ms p) _);
    cbn [andb negb fst hc_success hc_error_message]; repeat split; try done.
Qed.

(** *** The purge *)

Lemma cleanup_lookup a now k i :
  active_incidents (_cleanup_resolved_incidents a now) !! k = Some i ↔
  active_incidents a !! k = Some i ∧
  ¬ (inc_status i = RESOLVED ∧ inc_last_updated i < now - retention).
Proof. cbn. by rewrite map_lookup_filter_Some. Qed.

(** An incident that is not resolved is never purged, however old. *)
Lemma cleanup_keeps_unresolved a now k i :
  active_incidents a !! k = Some i → inc_status i ≠ RESOLVED →
  active_incidents (_cleanup_resolved_incidents a now) !! k = Some i.
Proof. intros Hi Hs. apply cleanup_lookup. split; [done|]. by intros [? _]. Qed.

Lemma cleanup_removes_old_resolved a now k i :
  active_incidents a !! k = Some i → inc_status i = RESOLVED →
  inc_last_updated i < now - retention →
  active_incidents (_cleanup_resolved_incidents a now) !! k = None.
Proof.
  intros Hi Hs Hold.
  destruct (active_incidents (_cleanup_resolved_incidents a now) !! k) as [j|] eqn:E;
    [|done].
  apply cleanup_lookup in E as [E Hn]. rewrite Hi in E. injection E as <-.
  by destruct Hn.
Qed.

(** Once the purge has removed the resolved incident of an endpoint, more
    than 24 hours after its last update, the endpoint is free again: the
    next failing probe that reaches the threshold opens a new incident,
    with a new identifier, and sends a triage request for it. *)
Theorem purged_incident_frees_the_endpoint a c p r inc now :
  active_incidents a !! name (config c) = Some inc →
  inc_status inc = RESOLVED →
  inc_last_updated inc < now - retention →
  hc_success (check_health c p).1 = false →
  default 2 (failure_threshold a) ≤ consecutive_failures (check_health c p).2 →
  ∃ inc' request,
    active_incidents (_check_endpoint (_cleanup_resolved_incidents a now) c p r).1
      !! name (config c) = Some inc' ∧
    inc_id inc' = incident_id r ∧
    inc_status inc' = DETECTED ∧
    inc_timestamp inc' = probe_timestamp p ∧
    triage_requests (_check_endpoint (_cleanup_resolved_incidents a now) c p r).1 =
      triage_requests a ++ [request] ∧
    data request = TriageRequestData (incident_id r) (name (config c)) (url (config c)).
Proof.
  intros Hi Hs Hold Hf Ht.
  pose proof (cleanup_removes_old_resolved a now _ _ Hi Hs Hold) as Hnone.
  set (a' := _cleanup_resolved_incidents a now) in *.
  assert (default 2 (failure_threshold a') ≤
          consecutive_failures (check_health c p).2) as Ht' by exact Ht.
  rewrite (check_endpoint_at_threshold a' c p r Hf Ht'). cbn [fst].
  pose proof (check_health_endpoint_name c p) as He.
  pose proof (check_health_url c p) as Hu.
  pose proof (check_health_timestamp c p) as Hts.
  destruct (check_health c p) as [result c']. cbn [fst snd] in *.
  unfold _handle_endpoint_failure. rewrite He, Hnone.
  eexists _, _. rewrite trigger_triage_incidents. cbn [active_incidents].
  split; [by rewrite lookup_insert_eq|].
  do 2 (split; [reflexivity|]). split; [exact Hts|].
  split.
  - rewrite (triage_requests_of_inbox _ _ _ (trigger_triage_inbox _ _ _)).
    unfold triage_requests. cbn [bus]. rewrite alert_leaves_triage_inbox.
    f_equal.
  - cbn [data inc_id inc_endpoint_name inc_health_check_result]. by rewrite Hu.
Qed.

(** *** Certificate warnings *)

Lemma ssl_warning_turn_cases threshold now (table : gmap string Z) checker reading :
  match (ssl_warning_turn threshold now table checker reading).2 with
  | Some (endpoint, days) =>
      endpoint = name (config checker) ∧ reading = Some days ∧
      days ≠ 0 ∧ days ≤ threshold ∧
      String.prefix "https://" (url (config checker)) = true ∧
      (∀ last, table !! endpoint = Some last → day_us < now - last) ∧
      (ssl_warning_turn threshold now table checker reading).1 =
        <[endpoint := now]> table
  | None => (ssl_warning_turn threshold now table checker reading).1 = table
  end.
Proof.
  unfold ssl_warning_turn.
  destruct (String.prefix "https://" (url (config checker))) eqn:Hp; [|done].
  cbn [negb]. destruct reading as [days|]; [|done].
  destruct (negb (days =? 0) && (days <=? threshold)) eqn:Hd; [|done].
  apply andb_true_iff in Hd as [Hz Hle].
  apply negb_true_iff, Z.eqb_neq in Hz. apply Z.leb_le in Hle.
  destruct (table !! name (config checker)) as [last|] eqn:El.
  - destruct (day_us <? now - last) eqn:Hlt; [|done]. apply Z.ltb_lt in Hlt.
    cbn [snd fst]. repeat split; try done.
    intros last' E. rewrite El in E. by injection E as <-.
  - cbn [snd fst]. repeat split; try done. intros last' E. by rewrite El in E.
Qed.

(** An entry written in this pass stays as written until the pass ends. *)
Lemma ssl_warnings_keep_now ssl_warning_days now work : ∀ (table : gmap string Z) endpoint,
  table !! endpoint = Some now →
  (_check_ssl_warnings ssl_warning_days now table work).1 !! endpoint = Some now.
Proof.
  induction work as [|[checker reading] work IH]; intros table endpoint Ht; [done|].
  cbn [_check_ssl_warnings].
  pose proof (ssl_warning_turn_cases (default 30 ssl_warning_days) now table
                checker reading) as Hturn.
  destruct (ssl_warning_turn _ now table checker reading) as [table1 logged].
  cbn [fst snd] in Hturn.
  assert (table1 !! endpoint = Some now) as Ht1.
  { destruct logged as [[e d]|]; [|by rewrite Hturn].
    destruct Hturn as (_ & _ & _ & _ & _ & _ & ->).
    destruct (decide (e = endpoint)) as [->|Hne];
      [by rewrite lookup_insert_eq|by rewrite lookup_insert_ne]. }
  specialize (IH table1 endpoint Ht1).
  by destruct (_check_ssl_warnings ssl_warning_days now table1 work).
Qed.

(** Every warning [_check_ssl_warnings] logs is due: it is about an [https]
    endpoint whose certificate has a number of days left that is not zero
    and at most the configured [ssl_warning_days] (30 by default), and the
    endpoint was not warned about during the day before; the pass records
    the warning at its clock reading.  So a certificate that expires today
    (0 days) is never warned about, and an endpoint is warned about at most
    once a day. *)
Theorem ssl_warning_is_due ssl_warning_days now ssl_warnings work endpoint days :
  (endpoint, days) ∈ (_check_ssl_warnings ssl_warning_days now ssl_warnings work).2 →
  days ≠ 0 ∧ days ≤ default 30 ssl_warning_days ∧
  (∃ checker, (checker, Some days) ∈ work ∧ name (config checker) = endpoint ∧
              String.prefix "https://" (url (config checker)) = true) ∧
  (∀ last, ssl_warnings !! endpoint = Some last → day_us < now - last) ∧
  (_check_ssl_warnings ssl_warning_days now ssl_warnings work).1 !! endpoint = Some now.
Proof.
  revert ssl_warnings. induction work as [|[checker reading] work IH];
    intros table Hin; [by apply elem_of_nil in Hin|].
  cbn [_check_ssl_warnings] in *.
  pose proof (ssl_warning_turn_cases (default 30 ssl_warning_days) now table
                checker reading) as Hturn.
  pose proof (ssl_warnings_keep_now ssl_warning_days now work) as Hkeep.
  destruct (ssl_warning_turn _ now table checker reading) as [table1 logged].
  cbn [fst snd] in Hturn.
  specialize (IH table1). specialize (Hkeep table1).
  destruct (_check_ssl_warnings ssl_warning_days now table1 work)
    as [table2 warnings].
  cbn [fst snd] in *. apply elem_of_app in Hin as [Hin|Hin].
  - destruct logged as [[e d]|]; [|by apply elem_of_nil in Hin].
    apply list_elem_of_singleton in Hin. injection Hin as -> ->.
    destruct Hturn as (-> & -> & Hz & Hle & Hp & Hlast & ->).
    split; [done|]. split; [done|]. split; [|split; [done|]].
    + exists checker. split; [left|done].
    + apply Hkeep. by rewrite lookup_insert_eq.
  - destruct (IH Hin) as (Hz & Hle & (ch & Hch & Hn & Hp) & Hlast & Hrec).
    split; [done|]. split; [done|]. split; [|split; [|done]].
    + exists ch. split; [by right|done].
    + intros last El. destruct logged as [[e d]|]; [|rewrite Hturn in Hlast; eauto].
      destruct Hturn as (_ & _ & _ & _ & _ & _ & ->).
      destruct (decide (e = endpoint)) as [->|Hne].
      * rewrite lookup_insert_eq in Hlast. specialize (Hlast now eq_refl).
        unfold day_us in Hlast. lia.
      * rewrite lookup_insert_ne in Hlast by done. eauto.
Qed.

(** *** Every incident has had its triage request *)

Lemma check_endpoint_pending_triage a c p r :
  pending_triage (bus a) → pending_triage (bus (_check_endpoint a c p r).1).
Proof.
  intros IH k m. unfold _check_endpoint.
  destruct (check_health c p) as [result c'].
  destruct (negb (hc_success result) && _).
  - cbn [fst]. unfold _handle_endpoint_failure.
    destruct (active_incidents a !! hc_endpoint_name result); [apply IH|].
    cbn. rewrite lookup_insert. case_decide as Hk; [|apply IH].
    intros [= <-]. subst k. by eexists _, _, _.
  - destruct (hc_success result); cbn [fst]; [|apply IH].
    unfold _check_incident_resolution.
    destruct (active_incidents a !! hc_endpoint_name result); apply IH.
Qed.

Lemma check_all_pending_triage work : ∀ a,
  pending_triage (bus a) → pending_triage (bus (check_all a work).1).
Proof.
  induction work as [|[[c p] r] work IHw]; intros a IH; [exact IH|].
  cbn [check_all]. pose proof (check_endpoint_pending_triage a c p r IH) as Hstep.
  destruct (_check_endpoint a c p r) as [a1 c']. cbn [fst] in Hstep.
  specialize (IHw a1 Hstep). by destruct (check_all a1 work).
Qed.

Lemma receive_keeps_pending (q : MessageQueue Payload) agent_name :
  pending_responses (receive_messages q agent_name).2 = pending_responses q.
Proof. unfold receive_messages. by destruct (queues q !! agent_name). Qed.

Lemma reachable_pending_triage a : reachable a → pending_triage (bus a).
Proof.
  induction 1 as [threshold|? c p r _ IH|? now _ IH|a0 work now _ IH].
  - intros k m. cbn. by rewrite lookup_empty.
  - by apply check_endpoint_pending_triage.
  - exact IH.
  - unfold _monitoring_cycle.
    pose proof (receive_keeps_pending (bus a0) "monitoring") as Hp.
    destruct (receive_messages (bus a0) "monitoring") as [msgs q]. cbn [snd] in Hp.
    set (a1 := {| failure_threshold := _; active_incidents := _; bus := q |}).
    assert (pending_triage (bus a1)) as H0.
    { unfold pending_triage. cbn [bus a1]. by rewrite Hp. }
    pose proof (check_all_pending_triage work a1 H0) as Hall.
    by destruct (check_all a1 work).
Qed.

(** The correlation id of every incident on record has an entry. *)
Lemma check_endpoint_requested a c p r :
  (∀ e i, active_incidents a !! e = Some i →
     is_Some (pending_responses (bus a) !! Some ("triage_" +:+ inc_id i))) →
  ∀ e i, active_incidents (_check_endpoint a c p r).1 !! e = Some i →
     is_Some (pending_responses (bus (_check_endpoint a c p r).1)
              !! Some ("triage_" +:+ inc_id i)).
Proof.
  intros IH e i. unfold _check_endpoint.
  destruct (check_health c p) as [result c'].
  destruct (negb (hc_success result) && _).
  - cbn [fst]. unfold _handle_endpoint_failure.
    destruct (active_incidents a !! hc_endpoint_name result) as [inc|] eqn:E.
    + cbn. rewrite lookup_insert. case_decide as Hk; [|apply IH].
      intros [= <-]. cbn. by apply (IH _ _ E).
    + cbn. rewrite lookup_insert. case_decide as Hk.
      * intros [= <-]. cbn. by rewrite lookup_insert_eq.
      * intros Hi. rewrite lookup_insert. case_decide; [done|]. by apply (IH e).
  - destruct (hc_success result); cbn [fst]; [|apply IH].
    unfold _check_incident_resolution.
    destruct (active_incidents a !! hc_endpoint_name result) as [inc|] eqn:E;
      [|apply IH].
    cbn. rewrite lookup_insert. case_decide as Hk; [|apply IH].
    intros [= <-]. cbn. by apply (IH _ _ E).
Qed.

Lemma check_all_requested work : ∀ a,
  (∀ e i, active_incidents a !! e = Some i →
     is_Some (pending_responses (bus a) !! Some ("triage_" +:+ inc_id i))) →
  ∀ e i, active_incidents (check_all a work).1 !! e = Some i →
     is_Some (pending_responses (bus (check_all a work).1)
              !! Some ("triage_" +:+ inc_id i)).
Proof.
  induction work as [|[[c p] r] work IHw]; intros a IH; [exact IH|].
  cbn [check_all]. pose proof (check_endpoint_requested a c p r IH) as Hstep.
  destruct (_check_endpoint a c p r) as [a1 c']. cbn [fst] in Hstep.
  specialize (IHw a1 Hstep). by destruct (check_all a1 work).
Qed.

Lemma reachable_requested a :
  reachable a →
  ∀ e i, active_incidents a !! e = Some i →
     is_Some (pending_responses (bus a) !! Some ("triage_" +:+ inc_id i)).
Proof.
  induction 1 as [threshold|? c p r _ IH|a0 now _ IH|a0 work now _ IH].
  - intros e i. cbn. by rewrite lookup_empty.
  - by apply check_endpoint_requested.
  - intros e i [Hi _]%cleanup_lookup. by apply (IH e).
  - unfold _monitoring_cycle.
    pose proof (receive_keeps_pending (bus a0) "monitoring") as Hp.
    destruct (receive_messages (bus a0) "monitoring") as [msgs q]. cbn [snd] in Hp.
    set (a1 := {| failure_threshold := _; active_incidents := _; bus := q |}).
    assert (∀ e i, active_incidents a1 !! e = Some i →
              is_Some (pending_responses (bus a1) !! Some ("triage_" +:+ inc_id i)))
      as H0.
    { cbn [bus active_incidents a1]. rewrite Hp. exact IH. }
    pose proof (check_all_requested work a1 H0) as Hall.
    destruct (check_all a1 work) as [a2 cs]. cbn [fst] in *.
    intros e i [Hi _]%cleanup_lookup. by apply (Hall e).
Qed.

Lemma triage_key_inj (x y : string) : "triage_" +:+ x = "triage_" +:+ y → x = y.
Proof. intros H. cbv in H. by injection H. Qed.

(** In every state the monitor can reach, each incident on record, open or
    resolved, has a triage request registered in the pending table of the
    bus under its correlation id, and that request names the identifier of
    the incident: no incident is recorded without its triage request having
    been sent, and the monitor never clears the entry. *)
Theorem incident_has_a_pending_triage_request a endpoint i :
  reachable a →
  active_incidents a !! endpoint = Some i →
  ∃ m endpoint_name url,
    pending_responses (bus a) !! Some ("triage_" +:+ inc_id i) = Some m ∧
    type m = TRIAGE_REQUEST ∧
    data m = TriageRequestData (inc_id i) endpoint_name url.
Proof.
  intros Hr Hi.
  destruct (reachable_requested a Hr endpoint i Hi) as [m Hm].
  destruct (reachable_pending_triage a Hr _ _ Hm) as (id & e & u & Hk & Ht & Hd).
  assert ("triage_" +:+ inc_id i = "triage_" +:+ id) as Hk' by congruence.
  apply triage_key_inj in Hk'. subst id.
  by exists m, e, u.
Qed.

(** *** Probing order *)

(** What a probe does to the incident map depends on the incident map and
    the threshold only. *)
Lemma check_endpoint_incidents a a' c p r :
  active_incidents a = active_incidents a' →
  failure_threshold a = failure_threshold a' →
  active_incidents (_check_endpoint a c p r).1 =
    active_incidents (_check_endpoint a' c p r).1 ∧
  failure_threshold (_check_endpoint a c p r).1 =
    failure_threshold (_check_endpoint a' c p r).1.
Proof.
  intros Hi Ht. unfold _check_endpoint.
  destruct (check_health c p) as [result c']. rewrite Ht.
  destruct (negb (hc_success result) && _).
  - cbn [fst]. unfold _handle_endpoint_failure. rewrite Hi.
    destruct (active_incidents a' !! hc_endpoint_name result); cbn; by rewrite ?Hi.
  - destruct (hc_success result); cbn [fst]; [|done].
    unfold _check_incident_resolution. rewrite Hi.
    destruct (active_incidents a' !! hc_endpoint_name result); cbn; by rewrite ?Hi.
Qed.

Lemma check_endpoint_threshold a c p r :
  failure_threshold (_check_endpoint a c p r).1 = failure_threshold a.
Proof.
  unfold _check_endpoint. destruct (check_health c p) as [result c'].
  destruct (negb (hc_success result) && _).
  - cbn [fst]. unfold _handle_endpoint_failure.
    by destruct (active_incidents a !! hc_endpoint_name result).
  - destruct (hc_success result); cbn [fst]; [|done].
    unfold _check_incident_resolution.
    by destruct (active_incidents a !! hc_endpoint_name result).
Qed.

(** A probe touches the incident of its own endpoint only. *)
Lemma check_endpoint_frame a c p r endpoint :
  endpoint ≠ name (config c) →
  active_incidents (_check_endpoint a c p r).1 !! endpoint =
  active_incidents a !! endpoint.
Proof.
  intros Hne. unfold _check_endpoint.
  pose proof (check_health_endpoint_name c p) as He.
  destruct (check_health c p) as [result c']. cbn [fst] in He.
  destruct (negb (hc_success result) && _).
  - cbn [fst]. unfold _handle_endpoint_failure. rewrite He.
    destruct (active_incidents a !! name (config c));
      cbn; by rewrite lookup_insert_ne.
  - destruct (hc_success result); cbn [fst]; [|done].
    unfold _check_incident_resolution. rewrite He.
    destruct (active_incidents a !! name (config c)); [|done].
    cbn. by rewrite lookup_insert_ne.
Qed.

(** What it does to the incident of its own endpoint depends on that
    incident and the threshold only. *)
Lemma check_endpoint_own a a' c p r :
  active_incidents a !! name (config c) = active_incidents a' !! name (config c) →
  failure_threshold a = failure_threshold a' →
  active_incidents (_check_endpoint a c p r).1 !! name (config c) =
  active_incidents (_check_endpoint a' c p r).1 !! name (config c).
Proof.
  intros Hi Ht. unfold _check_endpoint.
  pose proof (check_health_endpoint_name c p) as He.
  destruct (check_health c p) as [result c']. cbn [fst] in He. rewrite Ht.
  destruct (negb (hc_success result) && _).
  - cbn [fst]. unfold _handle_endpoint_failure. rewrite He, Hi.
    destruct (active_incidents a' !! name (config c));
      cbn; by rewrite !lookup_insert_eq.
  - destruct (hc_success result); cbn [fst]; [|done].
    unfold _check_incident_resolution. rewrite He, Hi.
    destruct (active_incidents a' !! name (config c)) eqn:E; [|by rewrite Hi, E].
    cbn. by rewrite !lookup_insert_eq.
Qed.

Lemma check_endpoint_commute a c1 p1 r1 c2 p2 r2 :
  name (config c1) ≠ name (config c2) →
  active_incidents (_check_endpoint (_check_endpoint a c1 p1 r1).1 c2 p2 r2).1 =
  active_incidents (_check_endpoint (_check_endpoint a c2 p2 r2).1 c1 p1 r1).1.
Proof.
  intros Hne. apply map_eq. intros endpoint.
  destruct (decide (endpoint = name (config c1))) as [->|H1].
  - rewrite check_endpoint_frame by done.
    apply check_endpoint_own.
    + by rewrite check_endpoint_frame.
    + by rewrite check_endpoint_threshold.
  - destruct (decide (endpoint = name (config c2))) as [->|H2].
    + rewrite (check_endpoint_frame (_check_endpoint a c2 p2 r2).1) by done.
      apply check_endpoint_own.
      * by rewrite check_endpoint_frame.
      * by rewrite check_endpoint_threshold.
    + by rewrite !check_endpoint_frame.
Qed.

Lemma check_all_incidents work : ∀ a a',
  active_incidents a = active_incidents a' →
  failure_threshold a = failure_threshold a' →
  active_incidents (check_all a work).1 = active_incidents (check_all a' work).1 ∧
  failure_threshold (check_all a work).1 = failure_threshold (check_all a' work).1.
Proof.
  induction work as [|[[c p] r] work IH]; intros a a' Hi Ht; [done|].
  cbn [check_all].
  destruct (check_endpoint_incidents a a' c p r Hi Ht) as [Hi1 Ht1].
  destruct (_check_endpoint a c p r) as [a1 c1].
  destruct (_check_endpoint a' c p r) as [a1' c1'].
  cbn [fst] in *. specialize (IH a1 a1' Hi1 Ht1).
  destruct (check_all a1 work), (check_all a1' work). done.
Qed.

Lemma check_all_cons a c p r work :
  (check_all a ((c, p, r) :: work)).1 = (check_all (_check_endpoint a c p r).1 work).1.
Proof.
  cbn [check_all]. destruct (_check_endpoint a c p r) as [a1 c1]. cbn [fst].
  by destruct (check_all a1 work).
Qed.

Lemma check_all_order work work' :
  work ≡ₚ work' →
  NoDup ((fun w : HealthChecker * Probe * Readings => name (config w.1.1)) <$> work) →
  ∀ a a',
    active_incidents a = active_incidents a' →
    failure_threshold a = failure_threshold a' →
    active_incidents (check_all a work).1 = active_incidents (check_all a' work').1 ∧
    failure_threshold (check_all a work).1 = failure_threshold (check_all a' work').1.
Proof.
  induction 1 as [|[[c p] r] l l' Hp IH|[[c1 p1] r1] [[c2 p2] r2] l|l l' l'' Hp1 IH1 Hp2 IH2];
    intros Hnd a a' Hi Ht.
  - done.
  - rewrite fmap_cons in Hnd. apply NoDup_cons in Hnd as [_ Hnd].
    rewrite !check_all_cons. apply IH; [done|..];
      by apply check_endpoint_incidents.
  - rewrite !fmap_cons in Hnd. cbn [fst] in Hnd.
    apply NoDup_cons in Hnd as [Hne _].
    assert (name (config c1) ≠ name (config c2)) as Hne'.
    { intros E. apply Hne. rewrite E. left. }
    rewrite !check_all_cons. apply check_all_incidents.
    + rewrite check_endpoint_commute by done.
      destruct (check_endpoint_incidents a a' c1 p1 r1 Hi Ht) as [Hi1 Ht1].
      by apply check_endpoint_incidents.
    + by rewrite !check_endpoint_threshold.
  - destruct (IH1 Hnd a a' Hi Ht) as [Hi1 Ht1].
    assert (NoDup ((fun w : HealthChecker * Probe * Readings =>
                      name (config w.1.1)) <$> l')) as Hnd'.
    { by rewrite <- Hp1. }
    destruct (IH2 Hnd' a' a' eq_refl eq_refl) as [Hi2 Ht2].
    split; congruence.
Qed.

(** The incidents on record after the probes of a cycle do not depend on
    the order in which the endpoints were probed, each endpoint being
    probed once: the concurrent probes of a cycle can be taken one after
    the other, in any order. *)
Theorem probing_order_does_not_matter a work work' :
  work ≡ₚ work' →
  NoDup ((fun w : HealthChecker * Probe * Readings => name (config w.1.1)) <$> work) →
  active_incidents (check_all a work).1 = active_incidents (check_all a work').1 ∧
  ∀ now,
    active_incidents (_monitoring_cycle a work now).1 =
    active_incidents (_monitoring_cycle a work' now).1.
Proof.
  intros Hp Hnd. split.
  - by apply (check_all_order work work' Hp Hnd a a).
  - intros now. unfold _monitoring_cycle.
    destruct (receive_messages (bus a) "monitoring") as [msgs q].
    set (a0 := {| failure_threshold := _; active_incidents := _; bus := q |}).
    destruct (check_all_order work work' Hp Hnd a0 a0 eq_refl eq_refl) as [Hi _].
    destruct (check_all a0 work) as [a1 cs], (check_all a0 work') as [a1' cs'].
    cbn [fst _cleanup_resolved_incidents active_incidents] in *. by rewrite Hi.
Qed.

(** *** The alerts the monitor sends to itself *)

Lemma check_endpoint_monitoring_inbox a c p r :
  ∃ new,
    default [] (queues (bus (_check_endpoint a c p r).1) !! "monitoring") =
      default [] (queues (bus a) !! "monitoring") ++ new ∧
    Forall (fun m => type m = HEALTH_CHECK_FAILURE ∧ sender m = "monitoring" ∧
                     id m = alert_message_id r ∧ requires_response m = false) new.
Proof.
  unfold _check_endpoint. destruct (check_health c p) as [result c'].
  destruct (negb (hc_success result) && _).
  - cbn [fst]. unfold _handle_endpoint_failure.
    destruct (active_incidents a !! hc_endpoint_name result).
    + exists []. by rewrite app_nil_r.
    + eexists [_]. cbn. rewrite lookup_insert_ne by done.
      rewrite lookup_insert_eq. cbn. split; [reflexivity|]. by repeat constructor.
  - exists []. rewrite app_nil_r. split; [|done].
    destruct (hc_success result); cbn [fst]; [|done].
    unfold _check_incident_resolution.
    by destruct (active_incidents a !! hc_endpoint_name result).
Qed.

Lemma check_all_monitoring_inbox work : ∀ a,
  ∃ new,
    default [] (queues (bus (check_all a work).1) !! "monitoring") =
      default [] (queues (bus a) !! "monitoring") ++ new ∧
    Forall (fun m => type m = HEALTH_CHECK_FAILURE ∧ sender m = "monitoring" ∧
                     requires_response m = false ∧
                     id m ∈ (fun w : HealthChecker * Probe * Readings =>
                               alert_message_id w.2) <$> work) new.
Proof.
  induction work as [|[[c p] r] work IH]; intros a.
  - exists []. by rewrite app_nil_r.
  - rewrite check_all_cons.
    destruct (check_endpoint_monitoring_inbox a c p r) as (new1 & E1 & H1).
    destruct (IH (_check_endpoint a c p r).1) as (new2 & E2 & H2).
    exists (new1 ++ new2). rewrite E2, E1, app_assoc. split; [done|].
    apply Forall_app. split.
    + eapply Forall_impl; [exact H1|]. intros m (? & ? & -> & ?).
      repeat split; try done. rewrite fmap_cons. left.
    + eapply Forall_impl; [exact H2|]. intros m (? & ? & ? & ?).
      repeat split; try done. rewrite fmap_cons. by right.
Qed.

(** The health-check failure alerts are addressed to the monitor itself,
    and each poll cycle starts by emptying the monitor's inbox without
    reading it: when a cycle ends, the inbox holds the alerts of that cycle
    only, and whatever was sent to the monitor before is gone. *)
Theorem alerts_are_discarded_unread a work now m :
  m ∈ default [] (queues (bus (_monitoring_cycle a work now).1) !! "monitoring") →
  type m = HEALTH_CHECK_FAILURE ∧ sender m = "monitoring" ∧
  requires_response m = false ∧
  id m ∈ (fun w : HealthChecker * Probe * Readings => alert_message_id w.2) <$> work.
Proof.
  unfold _monitoring_cycle.
  assert (default [] (queues (receive_messages (bus a) "monitoring").2
                      !! "monitoring") = []) as Hempty.
  { unfold receive_messages.
    destruct (queues (bus a) !! "monitoring") eqn:E; cbn [snd queues].
    - by rewrite lookup_insert_eq.
    - by rewrite E. }
  destruct (receive_messages (bus a) "monitoring") as [msgs q]. cbn [snd] in Hempty.
  set (a0 := {| failure_threshold := _; active_incidents := _; bus := q |}).
  destruct (check_all_monitoring_inbox work a0) as (new & E & Hnew).
  destruct (check_all a0 work) as [a1 cs].
  cbn [fst _cleanup_resolved_incidents bus a0] in *.
  rewrite E, Hempty. cbn [app]. intros Hin.
  by apply (proj1 (Forall_forall _ _) Hnew).
Qed.

End MonitorOperations.

Section MonitorOperationsWitnesses.
Import Monitoring Scenarios.

(** [svc-a] fails, recovers, and fails twice. *)
Lemma streak_counts_failures_since_last_success_witness :
  consecutive_failures
    (after_probes (new_checker svc_a)
       ([probe_down 100] ++ probe_up 300 :: [probe_down 400; probe_down 500])) = 2 ∧
  should_trigger_incident
    (after_probes (new_checker svc_a)
       ([probe_down 100] ++ probe_up 300 :: [probe_down 400; probe_down 500])) 2 = true.
Proof.
  assert (passes (config (new_checker svc_a)) (probe_up 300) = true) as Hok
    by (vm_compute; reflexivity).
  assert (Forall (fun p => passes (config (new_checker svc_a)) p = false)
            [probe_down 400; probe_down 500]) as Hafter
    by (repeat constructor).
  destruct (streak_counts_failures_since_last_success (new_checker svc_a)
              [probe_down 100] (probe_up 300) [probe_down 400; probe_down 500]
              Hok Hafter) as [H1 H2].
  split; [exact H1|]. exact (H2 2).
Defined.

(** The incident of [svc-a], resolved at 300, is purged a day later; the
    second of two further failures opens a new one. *)
Lemma purged_incident_frees_the_endpoint_witness :
  ∃ inc' request,
    active_incidents
      (_check_endpoint (_cleanup_resolved_incidents st4.1 (retention + 1000))
         st4.2 (probe_down 500) (readings 500 "5")).1 !! "svc-a" = Some inc' ∧
    inc_id inc' = "INC_5" ∧
    inc_status inc' = DETECTED ∧
    inc_timestamp inc' = 500 ∧
    triage_requests
      (_check_endpoint (_cleanup_resolved_incidents st4.1 (retention + 1000))
         st4.2 (probe_down 500) (readings 500 "5")).1 =
      triage_requests st4.1 ++ [request] ∧
    Messaging.data request =
      TriageRequestData "INC_5" "svc-a" "http://svc-a/health".
Proof.
  assert (active_incidents st4.1 !! name (config st4.2) =
          Some (set_last_updated (set_status incident_2 RESOLVED) 300)) as Hi
    by (vm_compute; reflexivity).
  assert (hc_success (check_health st4.2 (probe_down 500)).1 = false) as Hf
    by (vm_compute; reflexivity).
  assert (default 2 (failure_threshold st4.1) ≤
          consecutive_failures (check_health st4.2 (probe_down 500)).2) as Ht
    by (vm_compute; discriminate).
  assert (inc_last_updated (set_last_updated (set_status incident_2 RESOLVED) 300) <
          retention + 1000 - retention) as Hold by (vm_compute; reflexivity).
  exact (purged_incident_frees_the_endpoint st4.1 st4.2 (probe_down 500)
           (readings 500 "5") _ (retention + 1000) Hi eq_refl Hold Hf Ht).
Defined.

Lemma answered_probe_verdict_witness :
  hc_success (check_health (new_checker svc_a) (probe_down 100)).1 = false ∧
  hc_error_message (check_health (new_checker svc_a) (probe_down 100)).1 =
    Some "HTTP 503 error" ∧
  hc_error_message (check_health (new_checker svc_a) (probe_down 100)).1 ≠
    Some "Health check failed".
Proof.
  exact (answered_probe_verdict (new_checker svc_a) (probe_down 100) 503 eq_refl).
Defined.

Lemma ssl_warning_is_due_witness :
  (12 ≠ 0 ∧ 12 ≤ default 30 (Some 30) ∧
   (∃ checker, (checker, Some 12) ∈ tls_work ∧ name (config checker) = "svc-tls" ∧
               String.prefix "https://" (url (config checker)) = true) ∧
   (∀ last, (∅ : gmap string Z) !! "svc-tls" = Some last → day_us < 5000 - last) ∧
   (_check_ssl_warnings (Some 30) 5000 ∅ tls_work).1 !! "svc-tls" = Some 5000).
Proof.
  apply (ssl_warning_is_due (Some 30) 5000 ∅ tls_work "svc-tls" 12).
  vm_compute. left.
Defined.

Lemma incident_has_a_pending_triage_request_witness :
  ∃ m endpoint_name url,
    Messaging.pending_responses (bus st2.1) !! Some ("triage_" +:+ inc_id incident_2)
      = Some m ∧
    Messaging.type m = Messaging.TRIAGE_REQUEST ∧
    Messaging.data m = TriageRequestData (inc_id incident_2) endpoint_name url.
Proof.
  assert (reachable st2.1) as Hr by (do 2 apply reach_check; apply reach_new).
  assert (active_incidents st2.1 !! "svc-a" = Some incident_2) as Hi
    by (vm_compute; reflexivity).
  exact (incident_has_a_pending_triage_request st2.1 "svc-a" incident_2 Hr Hi).
Defined.

Lemma probing_order_does_not_matter_witness :
  active_incidents (check_all (new_agent (Some 2)) cycle_work).1 =
  active_incidents (check_all (new_agent (Some 2)) (reverse cycle_work)).1.
Proof.
  assert (cycle_work ≡ₚ reverse cycle_work) as Hp by apply perm_swap.
  assert (NoDup ((fun w : HealthChecker * Probe * Readings =>
                    name (config w.1.1)) <$> cycle_work)) as Hnd
    by (apply (bool_decide_unpack _); vm_compute; exact I).
  exact (proj1 (probing_order_does_not_matter (new_agent (Some 2)) cycle_work
                  (reverse cycle_work) Hp Hnd)).
Defined.

Lemma alerts_are_discarded_unread_witness :
  ∃ m,
    m ∈ default [] (Messaging.queues
                      (bus (_monitoring_cycle st2.1 cycle_work 1000).1)
                    !! "monitoring") ∧
    Messaging.type m = Messaging.HEALTH_CHECK_FAILURE ∧
    Messaging.sender m = "monitoring" ∧
    Messaging.requires_response m = false ∧
    Messaging.id m ∈ (fun w : HealthChecker * Probe * Readings =>
                        alert_message_id w.2) <$> cycle_work.
Proof.
  destruct (default [] (Messaging.queues
                          (bus (_monitoring_cycle st2.1 cycle_work 1000).1)
                        !! "monitoring")) as [|m l] eqn:E;
    [vm_compute in E; discriminate|].
  exists m. split; [left|].
  apply (alerts_are_discarded_unread st2.1 cycle_work 1000 m). rewrite E. left.
Defined.

End MonitorOperationsWitnesses.

(** ** Triage: the summary and the log collector *)

Section TriageOperations.
Import Triage.

Lemma filter_partition_perm {A} (P : A → bool) (l : list A) :
  List.filter (fun x => negb (P x)) l ++ List.filter P l ≡ₚ l.
Proof.
  induction l as [|x l IH]; [done|]. cbn [List.filter].
  destruct (P x); cbn [negb].
  - rewrite <- Permutation_middle. by constructor.
  - cbn. by constructor.
Qed.

Lemma findings_of_errors (data_collection : list (string * Entry)) :
  Forall (fun kv => entry_is_error kv.2 = true) data_collection →
  List.filter (fun kv => negb (entry_is_error kv.2)) data_collection = [].
Proof.
  induction 1 as [|kv l H _ IH]; [done|]. cbn [List.filter]. by rewrite H.
Qed.

(** The summary sorts every collected source into exactly one of its two
    lists: failed when its entry is an error marker or has status "error",
    successful otherwise.  Findings are drawn from the successful sources
    only, so when every source failed the summary has no finding and
    recommends both to investigate the failed sources and that no obvious
    issue was detected. *)
Theorem summary_partitions_the_sources (data_collection : list (string * Entry)) :
  data_sources_successful (_generate_triage_summary data_collection) ++
    data_sources_failed (_generate_triage_summary data_collection)
    ≡ₚ data_collection.*1 ∧
  (∀ k, k ∈ data_sources_failed (_generate_triage_summary data_collection) ↔
        ∃ e, (k, e) ∈ data_collection ∧ entry_is_error e = true) ∧
  (data_collection ≠ [] →
   Forall (fun kv => entry_is_error kv.2 = true) data_collection →
   data_sources_successful (_generate_triage_summary data_collection) = [] ∧
   key_findings (_generate_triage_summary data_collection) = [] ∧
   recommendations (_generate_triage_summary data_collection) =
     ["Investigate failed data sources for access issues";
      "No obvious issues detected in collected data"]).
Proof.
  unfold _generate_triage_summary.
  cbn [data_sources_successful data_sources_failed key_findings recommendations].
  split; [|split].
  - rewrite <- fmap_app. apply fmap_Permutation.
    apply (filter_partition_perm (fun kv => entry_is_error kv.2)).
  - intros k. rewrite list_elem_of_fmap. split.
    + intros ([k' e] & -> & Hin). apply list_elem_of_In, filter_In in Hin as [Hin He].
      exists e. split; [by apply list_elem_of_In|done].
    + intros (e & Hin & He). exists (k, e). split; [done|].
      apply list_elem_of_In, filter_In. split; [by apply list_elem_of_In|done].
  - intros Hne Hall. rewrite (findings_of_errors _ Hall). cbn.
    split; [done|]. split; [done|].
    destruct data_collection as [|[k e] rest]; [done|].
    apply Forall_cons in Hall as [He _]. cbn in He. cbn [List.filter]. cbn.
    by rewrite He.
Qed.

End TriageOperations.

Section CollectorOperations.
Import Collectors.

Lemma result_bind_ok {A B} (x : A) (f : A → result B) : Ok x ≫= f = f x.
Proof. done. Qed.

Lemma keywords_not_in_empty keyword :
  keyword ∈ error_keywords → contains keyword (lower "") = false.
Proof.
  unfold error_keywords. rewrite !elem_of_cons.
  intros H. repeat (destruct H as [->|H]; [done|]). by apply elem_of_nil in H.
Qed.

Lemma substring_length (n : nat) (s : string) :
  (String.length (String.substring 0 n s) ≤ n)%nat.
Proof.
  revert s. induction n as [|n IH]; intros s; destruct s as [|ch s]; cbn; try lia.
  specialize (IH s). lia.
Qed.

Lemma patterns_of_ok (log : LogEntry) (lowered : string) (keywords : list string) :
  (message log = Analysis.Absent → ∀ k, k ∈ keywords → contains k lowered = false) →
  message log ≠ Analysis.PyNone →
  ∃ found, patterns_of log lowered keywords = Ok found ∧
    Forall (fun e => pattern e ∈ keywords ∧ (String.length (ep_message e) ≤ 200)%nat)
           found.
Proof.
  intros Habs Hnone. induction keywords as [|k ks IH].
  - by exists [].
  - destruct IH as (found & Hfound & Hall).
    { intros Hm k' Hk'. apply Habs; [done|by right]. }
    assert (Forall (fun e => pattern e ∈ k :: ks ∧
                             (String.length (ep_message e) ≤ 200)%nat) found) as Hall'.
    { eapply Forall_impl; [exact Hall|]. intros e [? ?]. split; [by right|done]. }
    cbn [patterns_of]. destruct (contains k lowered) eqn:Hk; [|by exists found].
    unfold truncated_message. destruct (message log) as [| |s] eqn:Em.
    + rewrite Habs in Hk; [done|done|left].
    + done.
    + cbn. rewrite Hfound. cbn. eexists. split; [reflexivity|].
      constructor; [|done]. cbn. split; [left|apply substring_length].
Qed.

Lemma scan_logs_ok (logs : list LogEntry) :
  Forall (fun log => message log ≠ Analysis.PyNone) logs →
  ∃ found, scan_logs logs = Ok found ∧
    Forall (fun e => pattern e ∈ error_keywords ∧
                     (String.length (ep_message e) ≤ 200)%nat) found.
Proof.
  induction 1 as [|log logs Hlog _ (more & Hmore & Hall)]; [by exists []|].
  cbn [scan_logs]. unfold lowered_message.
  destruct (message log) as [| |s] eqn:Em; [|done|].
  - cbn. rewrite Hmore. cbn. by exists more.
  - rewrite result_bind_ok.
    destruct (patterns_of_ok log (lower s) error_keywords)
      as (found & Hfound & Hf).
    { intros Ha. by rewrite Em in Ha. }
    { by rewrite Em. }
    rewrite Hfound, Hmore. cbn. eexists. split; [reflexivity|].
    by apply Forall_app.
Qed.

Lemma disjoint_counts {A} (P Q : A → bool) (l : list A) :
  (∀ x, P x = true → Q x = false) →
  (length (List.filter P l) + length (List.filter Q l) ≤ length l)%nat.
Proof.
  intros H. induction l as [|x l IH]; [done|]. cbn [List.filter].
  destruct (P x) eqn:HP.
  - rewrite (H x HP). cbn. lia.
  - destruct (Q x); cbn; lia.
Qed.

(** [_analyze_logs] returns on every list of entries whose message, where
    there is one, is a string: an entry without the key [message] matches
    no keyword, so the subscript [log.get('message')[:200]] is never applied
    to [None].  The result names at most ten patterns, each one of the eight
    keywords with a message of at most 200 characters, and counts no entry
    both as an error and as a warning. *)
Theorem analyze_logs_returns_bounded (logs : list LogEntry) :
  Forall (fun log => message log ≠ Analysis.PyNone) logs →
  ∃ analysis, _analyze_logs logs = Ok analysis ∧
    (length (error_patterns analysis) ≤ 10)%nat ∧
    Forall (fun e => pattern e ∈ error_keywords ∧
                     (String.length (ep_message e) ≤ 200)%nat)
           (error_patterns analysis) ∧
    (error_count analysis + warning_count analysis ≤ length logs)%nat.
Proof.
  intros H. destruct (scan_logs_ok logs H) as (found & Hfound & Hall).
  unfold _analyze_logs. rewrite Hfound. cbn. eexists. split; [reflexivity|].
  cbn [error_patterns error_count warning_count].
  split; [rewrite length_take; lia|]. split; [by apply Forall_take|].
  apply disjoint_counts. intros log HP. apply bool_decide_eq_true in HP.
  apply bool_decide_eq_false. by rewrite HP.
Qed.

Lemma first_logs_passes_over (skipped : list (result (list LogEntry))) rest :
  Forall (fun source => ∀ log logs, source ≠ Ok (log :: logs)) skipped →
  first_logs (skipped ++ rest) = first_logs rest.
Proof.
  induction 1 as [|source skipped Hs _ IH]; [done|].
  cbn [app first_logs]. destruct source as [[|log logs]|e]; try exact IH.
  by destruct (Hs log logs).
Qed.

(** [collect_logs] passes over the sources that raise or return no entry
    and analyses the entries of the first source that returns any; later
    sources are neither consulted nor mixed in.  When no source returns an
    entry the result is an empty collection with zero counts, not an
    error. *)
Theorem collect_logs_uses_the_first_source (skipped : list (result (list LogEntry))) :
  Forall (fun source => ∀ log logs, source ≠ Ok (log :: logs)) skipped →
  collect_logs skipped =
    LogsCollected []
      {| error_count := 0; warning_count := 0; error_patterns := [] |} ∧
  ∀ log logs rest,
    Forall (fun log => message log ≠ Analysis.PyNone) (log :: logs) →
    ∃ analysis,
      _analyze_logs (log :: logs) = Ok analysis ∧
      collect_logs (skipped ++ Ok (log :: logs) :: rest) =
        LogsCollected (log :: logs) analysis.
Proof.
  intros Hs. split.
  - unfold collect_logs. rewrite <- (app_nil_r skipped).
    by rewrite (first_logs_passes_over _ _ Hs).
  - intros log logs rest Hm.
    destruct (scan_logs_ok _ Hm) as (found & Hfound & _).
    assert (∃ analysis, _analyze_logs (log :: logs) = Ok analysis) as [analysis Ha].
    { unfold _analyze_logs. rewrite Hfound. by eexists. }
    exists analysis. split; [exact Ha|].
    unfold collect_logs. rewrite (first_logs_passes_over _ _ Hs).
    cbn [first_logs]. by rewrite Ha.
Qed.

(** *** Prometheus metrics *)

Lemma lstrip_head s c rest : lstrip s = String c rest → Analysis.is_space c = false.
Proof.
  induction s as [|c0 s IH]; [done|]. cbn [lstrip].
  destruct (Analysis.is_space c0) eqn:E; [exact IH|]. by intros [= <- _].
Qed.

Lemma rstrip_head s c rest : rstrip s = String c rest → ∃ rest', s = String c rest'.
Proof.
  destruct s as [|c0 s]; [done|]. cbn [rstrip].
  destruct (rstrip s); [destruct (Analysis.is_space c0); [done|]|];
    intros [= <- _]; by eexists.
Qed.

Lemma strip_head s c rest : strip s = String c rest → Analysis.is_space c = false.
Proof.
  unfold strip. intros [rest' H]%rstrip_head. by eapply lstrip_head.
Qed.

Lemma split_at_space_name line metric_name value :
  split_at_space line = Some (metric_name, value) →
  split_at_space metric_name = None ∧
  line = metric_name +:+ " " +:+ value.
Proof.
  revert metric_name. induction line as [|c line IH]; intros metric_name; [done|].
  cbn [split_at_space]. destruct (Ascii.eqb_spec c " ") as [->|Hc].
  - by intros [= <- <-].
  - destruct (split_at_space line) as [[n v]|]; [|done]. cbn.
    intros [= <- <-]. destruct (IH n eq_refl) as [Hn ->]. split; [|done].
    cbn [split_at_space]. destruct (Ascii.eqb_spec c " "); [done|]. by rewrite Hn.
Qed.

Section PrometheusFacts.

Context (float : string → option Q).

(** A turn of the loop either leaves an entry as it was or writes it from
    a line that is neither empty nor a comment. *)
Lemma parse_metric_line_entry (metrics : gmap string Q) line metric_name number :
  parse_metric_line float metrics line !! metric_name = Some number →
  metrics !! metric_name = Some number ∨
  ∃ value, split_at_space (strip line) = Some (metric_name, value) ∧
           float value = Some number ∧
           strip line ≠ "" ∧ String.prefix "#" (strip line) = false.
Proof.
  unfold parse_metric_line.
  destruct (truthy_str (Some (strip line)) && negb (String.prefix "#" (strip line)))
    eqn:E; [|by left].
  apply andb_true_iff in E as [Ht Hp]. apply negb_true_iff in Hp.
  destruct (split_at_space (strip line)) as [[n v]|] eqn:Es; [|by left].
  destruct (float v) as [x|] eqn:Ef; [|by left].
  destruct (decide (n = metric_name)) as [->|Hne].
  - rewrite lookup_insert_eq. intros [= <-]. right. exists v.
    repeat split; try done. intros E0. by rewrite E0 in Ht.
  - rewrite lookup_insert_ne by done. by left.
Qed.

Lemma parsed_entries (lines : list string) : ∀ (metrics : gmap string Q) metric_name number,
  foldl (parse_metric_line float) metrics lines !! metric_name = Some number →
  metrics !! metric_name = Some number ∨
  ∃ line value, line ∈ lines ∧
    split_at_space (strip line) = Some (metric_name, value) ∧
    float value = Some number ∧
    strip line ≠ "" ∧ String.prefix "#" (strip line) = false.
Proof.
  induction lines as [|line lines IH]; intros metrics k v; [by left|].
  cbn [foldl]. intros [H|(l & value & Hin & H)]%IH.
  - apply parse_metric_line_entry in H as [H|(value & H)]; [by left|right].
    exists line, value. split; [left|done].
  - right. exists l, value. split; [by right|done].
Qed.

(** Every metric [_parse_prometheus_metrics] returns comes from a line of
    the text that, once stripped, is neither empty nor a comment and has a
    space: its name is what precedes the first space, its value what
    [float] makes of the rest.  The name is therefore never empty, never
    starts with [#] and holds no space. *)
Theorem parsed_metrics_come_from_sample_lines metrics_text metric_name number :
  _parse_prometheus_metrics float metrics_text !! metric_name = Some number →
  metric_name ≠ "" ∧
  String.prefix "#" metric_name = false ∧
  split_at_space metric_name = None ∧
  ∃ line value,
    line ∈ split_lines (strip metrics_text) ∧
    strip line = metric_name +:+ " " +:+ value ∧
    float value = Some number.
Proof.
  unfold _parse_prometheus_metrics.
  intros [H|(line & value & Hin & Hs & Hf & Hne & Hp)]%parsed_entries;
    [by rewrite lookup_empty in H|].
  destruct (split_at_space_name _ _ _ Hs) as [Hname Hline].
  assert (metric_name ≠ "") as Hk.
  { intros ->. rewrite Hline in Hs.
    assert (Analysis.is_space " " = false) as Hsp; [|done].
    eapply (strip_head line). rewrite Hline. reflexivity. }
  split; [exact Hk|]. split.
  - destruct metric_name as [|c name]; [done|]. rewrite Hline in Hp.
    change (String c name +:+ " " +:+ value)
      with (String c (name +:+ " " +:+ value)) in Hp.
    cbn [String.prefix] in Hp |- *. destruct (ascii_dec "#" c); [|done].
    by destruct (name +:+ " " +:+ value).
  - split; [exact Hname|]. by exists line, value.
Qed.

End PrometheusFacts.

End CollectorOperations.

Section CollectorWitnesses.
Import Collectors Scenarios.

Lemma analyze_logs_returns_bounded_witness :
  ∃ analysis, _analyze_logs sample_logs = Ok analysis ∧
    (length (error_patterns analysis) ≤ 10)%nat ∧
    Forall (fun e => pattern e ∈ error_keywords ∧
                     (String.length (ep_message e) ≤ 200)%nat)
           (error_patterns analysis) ∧
    (error_count analysis + warning_count analysis ≤ length sample_logs)%nat.
Proof.
  apply (analyze_logs_returns_bounded sample_logs).
  unfold sample_logs. repeat constructor; done.
Defined.

Lemma collect_logs_uses_the_first_source_witness :
  collect_logs unreachable_sources =
    LogsCollected []
      {| error_count := 0; warning_count := 0; error_patterns := [] |} ∧
  ∃ analysis,
    _analyze_logs sample_logs = Ok analysis ∧
    collect_logs (unreachable_sources ++ Ok sample_logs :: [Ok sample_logs]) =
      LogsCollected sample_logs analysis.
Proof.
  assert (Forall (fun source : result (list LogEntry) =>
                    ∀ log logs, source ≠ Ok (log :: logs)) unreachable_sources)
    as Hs by (unfold unreachable_sources; repeat constructor; done).
  destruct (collect_logs_uses_the_first_source unreachable_sources Hs) as [H1 H2].
  split; [exact H1|].
  apply (H2 _ _ [Ok sample_logs]). unfold sample_logs. repeat constructor; done.
Defined.

Lemma parsed_metrics_come_from_sample_lines_witness :
  _parse_prometheus_metrics sample_float metrics_page !! "requests_total" = Some 42%Q ∧
  "requests_total" ≠ "" ∧
  String.prefix "#" "requests_total" = false ∧
  split_at_space "requests_total" = None ∧
  ∃ line value,
    line ∈ split_lines (strip metrics_page) ∧
    strip line = "requests_total" +:+ " " +:+ value ∧
    sample_float value = Some 42%Q.
Proof.
  assert (_parse_prometheus_metrics sample_float metrics_page !! "requests_total"
          = Some 42%Q) as H by (vm_compute; reflexivity).
  split; [exact H|].
  exact (parsed_metrics_come_from_sample_lines sample_float metrics_page
           "requests_total" 42%Q H).
Defined.

End CollectorWitnesses.

(** ** Analysis: the history, the correlation engine, the severity *)

Section CorrelationOperations.
Import Analysis.

Implicit Types (hc : HealthCheck) (hist : list HistoricalIncident)
  (i : HistoricalIncident) (ep : option string).

Lemma count_nonneg (n : nat) : (0 <= inject_Z (Z.of_nat n) * (1 # 10))%Q.
Proof.
  apply Qmult_le_0_compat; [|done]. change 0%Q with (inject_Z 0).
  rewrite <- Zle_Qle. lia.
Qed.

(** An earlier incident of the same endpoint always counts as similar,
    whatever its error message and its age; an incident of another endpoint
    whose error message shares no word with the current one never does. *)
Theorem same_endpoint_is_always_similar ep (current_error : string) now i s :
  similarity ep current_error now i = Ok s →
  (hi_endpoint_name i = ep → Qgt_bool s (3 # 10) = true) ∧
  (hi_endpoint_name i ≠ ep →
   (∀ hist_error, lowered_error (hi_health_check i) = Ok hist_error →
      list_intersection (split current_error) (split hist_error) = []) →
   Qgt_bool s (3 # 10) = false).
Proof.
  unfold similarity. destruct (lowered_error (hi_health_check i)) as [he|e] eqn:El;
    [|done].
  rewrite result_bind_ok. cbv zeta. intros [= <-]. split.
  - intros He. rewrite bool_decide_eq_true_2 by done.
    apply Qgt_bool_true.
    unfold truthy_str.
    destruct he as [|c1 he], current_error as [|c2 current_error]; cbn [andb];
      try (destruct (remove_dups _) as [|w ws];
           [|pose proof (count_nonneg (length (w :: ws)))]);
      (destruct (hi_timestamp i) as [t|];
         [destruct (_ <? 7); [|destruct (_ <? 30)]|]); lra.
  - intros He Hno. rewrite bool_decide_eq_false_2 by done.
    rewrite (Hno he eq_refl). cbn [remove_dups].
    destruct (Qgt_bool _ (3 # 10)) eqn:E; [|done].
    apply Qgt_bool_true in E. exfalso. revert E.
    unfold truthy_str.
    destruct he as [|c1 he], current_error as [|c2 current_error]; cbn [andb];
      (destruct (hi_timestamp i) as [t|];
         [destruct (_ <? 7); [|destruct (_ <? 30)]|]); lra.
Qed.

Lemma score_all_ok ep (current_error : string) now hist :
  Forall (fun i => error_message (hi_health_check i) ≠ PyNone) hist →
  ∃ sims, score_all ep current_error now hist = Ok sims.
Proof.
  induction 1 as [|i hist Hi _ [sims IH]]; [by exists []|].
  cbn [score_all]. unfold similarity, lowered_error.
  destruct (error_message (hi_health_check i)) as [| |m]; [|done|];
    cbn; rewrite IH; cbn; case_match; by eexists.
Qed.

Lemma score_all_sound ep (current_error : string) now hist sims :
  score_all ep current_error now hist = Ok sims →
  Forall (fun x => incident x ∈ hist ∧
                   similarity ep current_error now (incident x) = Ok (similarity_score x) ∧
                   (3 # 10 < similarity_score x)%Q) sims.
Proof.
  revert sims. induction hist as [|i hist IH]; intros sims.
  - cbn. by intros [= <-].
  - cbn [score_all].
    destruct (similarity ep current_error now i) as [s|e] eqn:Es; [|done].
    rewrite result_bind_ok.
    destruct (score_all ep current_error now hist) as [sims0|e] eqn:E0; [|done].
    rewrite result_bind_ok. specialize (IH sims0 eq_refl).
    assert (Forall (fun x => incident x ∈ i :: hist ∧
                similarity ep current_error now (incident x) = Ok (similarity_score x) ∧
                (3 # 10 < similarity_score x)%Q) sims0) as IH'.
    { eapply Forall_impl; [exact IH|]. intros x (? & ? & ?).
      split; [by right|done]. }
    destruct (Qgt_bool s (3 # 10)) eqn:Eg; intros [= <-]; [|done].
    constructor; [|done]. cbn. split; [left|]. split; [done|].
    by apply Qgt_bool_true.
Qed.

Lemma score_all_complete ep (current_error : string) now hist sims i s :
  score_all ep current_error now hist = Ok sims →
  i ∈ hist → similarity ep current_error now i = Ok s → (3 # 10 < s)%Q →
  {| incident := i; similarity_score := s |} ∈ sims.
Proof.
  revert sims. induction hist as [|i0 hist IH]; intros sims Hs Hin Hsim Hgt.
  - by apply elem_of_nil in Hin.
  - cbn [score_all] in Hs.
    destruct (similarity ep current_error now i0) as [s0|e] eqn:Es; [|done].
    rewrite result_bind_ok in Hs.
    destruct (score_all ep current_error now hist) as [sims0|e] eqn:E0; [|done].
    rewrite result_bind_ok in Hs.
    apply elem_of_cons in Hin as [->|Hin].
    + rewrite Hsim in Es. injection Es as <-.
      rewrite (proj2 (Qgt_bool_true _ _) Hgt) in Hs. injection Hs as <-. left.
    + specialize (IH sims0 eq_refl Hin Hsim Hgt).
      destruct (Qgt_bool s0 (3 # 10)); injection Hs as <-; [by right|done].
Qed.

Lemma sorted_take_drop {A} (R : A → A → Prop) (n : nat) (l : list A) :
  StronglySorted R l → ∀ x y, x ∈ take n l → y ∈ drop n l → R x y.
Proof.
  revert l. induction n as [|n IH]; intros l Hs x y Hx Hy.
  - by apply elem_of_nil in Hx.
  - destruct l as [|z l]; [by apply elem_of_nil in Hx|].
    apply StronglySorted_inv in Hs as [Hs Hz]. cbn in Hx, Hy.
    apply elem_of_cons in Hx as [->|Hx].
    + rewrite Forall_forall in Hz. apply Hz. by apply (subseteq_drop n l).
    + by eapply IH.
Qed.

Lemma sorted_take {A} (R : A → A → Prop) (n : nat) (l : list A) :
  StronglySorted R l → StronglySorted R (take n l).
Proof.
  revert l. induction n as [|n IH]; intros l Hs; [constructor|].
  destruct l as [|z l]; [constructor|].
  apply StronglySorted_inv in Hs as [Hs Hz]. cbn. constructor; [by apply IH|].
  rewrite Forall_forall in Hz |- *. intros x Hx. apply Hz.
  by apply (subseteq_take n l).
Qed.

(** When no error message is [None], [_find_similar_incidents] returns at
    most five incidents of the history, each scoring above 0.3, best first;
    an incident of the history that scores above 0.3 and is left out scores
    no more than any that is returned. *)
Theorem similar_incidents_are_the_best_five hc now hist :
  error_message hc ≠ PyNone →
  Forall (fun i => error_message (hi_health_check i) ≠ PyNone) hist →
  ∃ current_error similar,
    lowered_error hc = Ok current_error ∧
    _find_similar_incidents hc now hist = Ok similar ∧
    (length similar ≤ 5)%nat ∧
    StronglySorted (desc similarity_score) similar ∧
    Forall (fun x =>
              incident x ∈ hist ∧
              similarity (endpoint_name hc) current_error now (incident x)
                = Ok (similarity_score x) ∧
              (3 # 10 < similarity_score x)%Q) similar ∧
    ∀ i s, i ∈ hist →
      similarity (endpoint_name hc) current_error now i = Ok s → (3 # 10 < s)%Q →
      {| incident := i; similarity_score := s |} ∈ similar ∨
      Forall (fun x => (s <= similarity_score x)%Q) similar.
Proof.
  intros Hhc Hhist.
  assert (∃ current_error, lowered_error hc = Ok current_error) as [err Herr].
  { unfold lowered_error. destruct (error_message hc); [by eexists|done|by eexists]. }
  destruct (score_all_ok (endpoint_name hc) err now hist Hhist) as [sims Hsims].
  exists err, (take 5 (sort_desc similarity_score sims)).
  split; [exact Herr|]. split.
  { unfold _find_similar_incidents. rewrite Herr, result_bind_ok, Hsims. done. }
  split; [rewrite length_take; lia|].
  split; [apply sorted_take, sort_desc_sorted|].
  pose proof (score_all_sound _ _ _ _ _ Hsims) as Hsound.
  split.
  - rewrite Forall_forall in Hsound |- *. intros x Hx. apply Hsound.
    apply (subseteq_take 5) in Hx. by rewrite sort_desc_perm in Hx.
  - intros i s Hi Hs Hgt.
    pose proof (score_all_complete _ _ _ _ _ _ _ Hsims Hi Hs Hgt) as Hin.
    rewrite <- (sort_desc_perm similarity_score sims) in Hin.
    rewrite <- (take_drop 5 (sort_desc similarity_score sims)) in Hin.
    apply elem_of_app in Hin as [Hin|Hin]; [by left|right].
    rewrite Forall_forall. intros x Hx.
    exact (sorted_take_drop _ 5 _ (sort_desc_sorted similarity_score sims) x _ Hx Hin).
Qed.

Lemma similar_from_history hc now hist similar :
  _find_similar_incidents hc now hist = Ok similar →
  (length similar ≤ 5)%nat ∧ Forall (fun x => incident x ∈ hist) similar.
Proof.
  unfold _find_similar_incidents.
  destruct (lowered_error hc) as [err|e]; [|done]. rewrite result_bind_ok.
  destruct (score_all (endpoint_name hc) err now hist) as [sims|e] eqn:Es; [|done].
  rewrite result_bind_ok. intros [= <-]. split; [rewrite length_take; lia|].
  pose proof (score_all_sound _ _ _ _ _ Es) as Hsound.
  rewrite Forall_forall in Hsound |- *. intros x Hx.
  apply (subseteq_take 5) in Hx. rewrite sort_desc_perm in Hx.
  by apply Hsound.
Qed.

Lemma similar_incidents_at_most_five hc now hist :
  (length (get_similar_incidents (analyze_correlations hc now hist)) ≤ 5)%nat.
Proof.
  unfold analyze_correlations. destruct hist as [|i hist]; [cbn; lia|].
  destruct (_find_similar_incidents hc now (i :: hist)) as [similar|e] eqn:E;
    [|cbn; lia].
  cbn. by apply similar_from_history in E as [? _].
Qed.

(** A correlation hypothesis has a confidence between 0.2 and 0.5: it is
    made for two to five similar incidents, so the cap of 0.7 is never
    reached and its confidence level is never "high". *)
Theorem correlation_confidence_is_between hc now hist h :
  h ∈ _generate_correlation_hypotheses (analyze_correlations hc now hist) →
  (2 # 10 <= confidence h)%Q ∧ (confidence h <= 5 # 10)%Q ∧
  confidence_level (confidence h) ≠ high ∧
  pattern_based h = false.
Proof.
  pose proof (similar_incidents_at_most_five hc now hist) as H5.
  unfold _generate_correlation_hypotheses.
  set (n := length (get_similar_incidents (analyze_correlations hc now hist))) in *.
  destruct (Nat.leb 2 n) eqn:E2; [|by intros ?%elem_of_nil].
  apply Nat.leb_le in E2. intros Hh%list_elem_of_singleton. subst h.
  cbn [confidence pattern_based supporting_data].
  assert (n = 2 ∨ n = 3 ∨ n = 4 ∨ n = 5)%nat as Hn by lia. clearbody n.
  destruct Hn as [-> | [-> | [-> | ->]]]; repeat split; by vm_compute.
Qed.

End CorrelationOperations.

Section HistoryOperations.
Import Analysis.

Context (lib : PyLib).

Implicit Types (agent : AnalysisAgent) (hc : HealthCheck) (td : TriageData).

Lemma analysis_keeps_history agent incident_id hc td clock :
  historical_incidents
    (_perform_root_cause_analysis lib agent incident_id hc td clock).2
  = historical_incidents agent.
Proof.
  unfold _perform_root_cause_analysis.
  by destruct (analysis_body lib agent incident_id hc td clock) as [[r ps]|e].
Qed.

(** What [_store_incident_for_history] leaves: the snapshot last, after the
    newest entries of the history, a hundred entries at most. *)
Lemma store_keeps_the_newest agent hc now :
  ∃ kept snapshot,
    historical_incidents (_store_incident_for_history agent hc now) =
      kept ++ [snapshot] ∧
    kept `suffix_of` historical_incidents agent ∧
    hi_health_check snapshot = hc ∧ hi_timestamp snapshot = Some now ∧
    unresolved_snapshot snapshot ∧
    length (historical_incidents (_store_incident_for_history agent hc now)) =
      Nat.min 100 (S (length (historical_incidents agent))).
Proof.
  unfold _store_incident_for_history. cbn [historical_incidents].
  set (h := historical_incidents agent).
  set (snapshot := {| hi_endpoint_name := _ |}).
  rewrite length_app. cbn [length].
  destruct (Nat.ltb 100 (length h + 1)) eqn:E.
  - apply Nat.ltb_lt in E.
    exists (drop (length h + 1 - 100) h), snapshot.
    split; [rewrite drop_app_le by lia; done|].
    split; [apply suffix_drop|]. repeat split; try done.
    rewrite length_drop, length_app. cbn [length]. lia.
  - apply Nat.ltb_ge in E. exists h, snapshot. repeat split; try done.
    rewrite length_app. cbn [length]. lia.
Qed.

Lemma reachable_history agent :
  reachable lib agent →
  (length (historical_incidents agent) ≤ 100)%nat ∧
  Forall unresolved_snapshot (historical_incidents agent).
Proof.
  induction 1 as [|agent incident_id hc td clock _ IH|agent hc now _ [IHl IHs]].
  - cbn. split; [lia|constructor].
  - by rewrite analysis_keeps_history.
  - destruct (store_keeps_the_newest agent hc now)
      as (kept & snapshot & -> & [dropped Hk] & _ & _ & Hsnap & Hlen).
    split; [rewrite Hlen; lia|].
    apply Forall_app. split; [|by constructor].
    rewrite Hk in IHs. by apply Forall_app in IHs as [_ ?].
Qed.

(** The history never holds more than a hundred incidents: storing one
    more keeps the newest and drops the oldest. *)
Theorem history_keeps_the_last_hundred agent hc now :
  reachable lib agent →
  (length (historical_incidents agent) ≤ 100)%nat ∧
  ∃ kept snapshot,
    historical_incidents (_store_incident_for_history agent hc now) =
      kept ++ [snapshot] ∧
    kept `suffix_of` historical_incidents agent ∧
    hi_health_check snapshot = hc ∧
    (length (kept ++ [snapshot]) ≤ 100)%nat.
Proof.
  intros Hr. split; [by apply reachable_history|].
  destruct (store_keeps_the_newest agent hc now)
    as (kept & snapshot & E & Hk & Hhc & _ & _ & Hlen).
  exists kept, snapshot. repeat split; try done. rewrite <- E, Hlen. lia.
Qed.

Lemma no_effective_resolution (similar : list Similar) :
  Forall (fun x => unresolved_snapshot (incident x)) similar →
  List.filter (fun re : string * Q => truthy_str (Some re.1) && Qgt_bool re.2 (7 # 10))
    ((fun s => (hi_resolution (incident s), hi_resolution_effectiveness (incident s)))
       <$> similar) = [] ∧
  List.filter (fun r => truthy_str (Some r))
    ((fun s => hi_resolution (incident s)) <$> similar) = [] ∧
  omap (fun s => hi_resolution_time_minutes (incident s)) similar = [].
Proof.
  induction 1 as [|x similar [Hr Ht] _ (IH1 & IH2 & IH3)]; [done|].
  cbn. rewrite Hr, Ht. cbn. repeat split; assumption.
Qed.

(** The incidents the agent stores carry no resolution, so whatever the
    history of a reachable agent, the correlation analysis never recommends
    a resolution nor warns of long resolution times: its only recommendation
    is the one made for three similar incidents or more, and its only
    pattern is the one on business hours. *)
Theorem stored_history_gives_no_resolution_advice agent hc now :
  reachable lib agent →
  match analyze_correlations hc now (historical_incidents agent) with
  | CorrelationsDict similar patterns_found recommendations =>
      recommendations =
        (if Nat.leb 3 (length similar)
         then ["This type of incident occurs frequently - consider permanent fix"]
         else []) ∧
      (patterns_found = [] ∨
       patterns_found = ["Incidents tend to occur during business hours"] ∨
       patterns_found = ["Incidents tend to occur outside business hours"])
  | CorrelationsError _ => True
  end.
Proof.
  intros Hr. destruct (reachable_history agent Hr) as [_ Hsnap].
  unfold analyze_correlations.
  destruct (historical_incidents agent) as [|i0 hist] eqn:Eh; [by split; [|left]|].
  destruct (_find_similar_incidents hc now (i0 :: hist)) as [similar|e] eqn:Ef;
    [|done].
  apply similar_from_history in Ef as [_ Hfrom].
  assert (Forall (fun x => unresolved_snapshot (incident x)) similar) as Hun.
  { eapply Forall_impl; [exact Hfrom|]. intros x Hx.
    by apply (proj1 (Forall_forall _ _) Hsnap). }
  destruct (no_effective_resolution similar Hun) as (H1 & H2 & H3).
  unfold _generate_historical_recommendations, _analyze_historical_patterns.
  destruct similar as [|x similar]; [by split; [|left]|].
  rewrite H1, H2, H3. cbn [sort_desc foldr List.filter].
  split.
  - by destruct (Nat.leb 3 (length (x :: similar))).
  - change (most_common 3 []) with (@nil (string * nat)). cbn [fmap list_fmap app].
    destruct (Nat.leb 2 _); [|by left].
    destruct (Qle_bool 9 _ && Qle_bool _ 17); [right; by left|right; by right].
Qed.

(** The severity the analysis agent gives an incident is never "low": it is
    "critical", "high" or "medium" as the confidence level is high, medium
    or low, and "medium" when the analysis failed.  Every enabled channel
    whose minimum level is "low" or "medium", or unknown, is therefore
    selected for every analysed incident. *)
Theorem analysed_incident_is_at_least_medium hc (outcome : AnalysisOutcome) :
  _determine_alert_level hc outcome =
    match outcome with
    | Analysed r =>
        match ar_confidence_level r with
        | high => "critical"
        | medium => "high"
        | low => "medium"
        end
    | AnalysisFailed _ _ _ => "medium"
    end ∧
  _determine_alert_level hc outcome ≠ "low" ∧
  ∀ min_level, min_level ≠ "high" → min_level ≠ "critical" →
    Notification._should_use_channel (_determine_alert_level hc outcome) min_level
    = true.
Proof.
  assert (∀ min_level level, min_level ≠ "high" → min_level ≠ "critical" →
            level ∈ ["medium"; "high"; "critical"] →
            Notification._should_use_channel level min_level = true) as Huse.
  { intros min_level level Hh Hc Hl.
    unfold Notification._should_use_channel, Notification.level_value.
    apply bool_decide_eq_true.
    destruct (String.eqb_spec min_level "low"); [|
    destruct (String.eqb_spec min_level "medium"); [|
    destruct (String.eqb_spec min_level "high"); [done|
    destruct (String.eqb_spec min_level "critical"); [done|]]]];
      repeat (apply elem_of_cons in Hl as [->|Hl]; [cbn; lia|]);
      by apply elem_of_nil in Hl. }
  unfold _determine_alert_level, get_confidence_level.
  destruct outcome as [r|? ? ?]; [destruct (ar_confidence_level r)|];
    cbn; (split; [done|]); (split; [done|]); intros min_level Hh Hc;
    apply Huse; try done; set_solver.
Qed.

End HistoryOperations.

Section AnalysisOperationsWitnesses.
Import Analysis Scenarios.

Lemma agent_with_three_reachable : reachable RefLib.lib agent_with_three.
Proof.
  unfold agent_with_three, agent_with_history.
  do 3 apply reach_store. apply reach_analysis, reach_new.
Qed.

Lemma same_endpoint_is_always_similar_witness :
  ∃ s, similarity (Some "svc-a") "connection refused" 1010 (stored_outage 1003) = Ok s ∧
       Qgt_bool s (3 # 10) = true.
Proof.
  destruct (similarity (Some "svc-a") "connection refused" 1010 (stored_outage 1003))
    as [s|e] eqn:E; [|vm_compute in E; discriminate].
  exists s. split; [reflexivity|].
  exact (proj1 (same_endpoint_is_always_similar _ _ _ _ _ E) eq_refl).
Defined.

Lemma similar_incidents_are_the_best_five_witness :
  ∃ current_error similar,
    lowered_error outage_health_check = Ok current_error ∧
    _find_similar_incidents outage_health_check 1010 outage_history = Ok similar ∧
    (length similar ≤ 5)%nat ∧
    StronglySorted (desc similarity_score) similar ∧
    Forall (fun x =>
              incident x ∈ outage_history ∧
              similarity (endpoint_name outage_health_check) current_error 1010
                (incident x) = Ok (similarity_score x) ∧
              (3 # 10 < similarity_score x)%Q) similar ∧
    ∀ i s, i ∈ outage_history →
      similarity (endpoint_name outage_health_check) current_error 1010 i = Ok s →
      (3 # 10 < s)%Q →
      {| incident := i; similarity_score := s |} ∈ similar ∨
      Forall (fun x => (s <= similarity_score x)%Q) similar.
Proof.
  apply (similar_incidents_are_the_best_five outage_health_check 1010 outage_history).
  - done.
  - unfold outage_history. repeat constructor; done.
Defined.

Lemma correlation_confidence_is_between_witness :
  ∃ h, h ∈ _generate_correlation_hypotheses
             (analyze_correlations outage_health_check 1010 outage_history) ∧
       (2 # 10 <= confidence h)%Q ∧ (confidence h <= 5 # 10)%Q ∧
       confidence_level (confidence h) ≠ high ∧ pattern_based h = false.
Proof.
  destruct (_generate_correlation_hypotheses
              (analyze_correlations outage_health_check 1010 outage_history))
    as [|h hs] eqn:E; [vm_compute in E; discriminate|].
  exists h. split; [left|].
  apply (correlation_confidence_is_between outage_health_check 1010 outage_history).
  rewrite E. left.
Defined.

Lemma history_keeps_the_last_hundred_witness :
  (length (historical_incidents agent_with_three) ≤ 100)%nat.
Proof.
  exact (proj1 (history_keeps_the_last_hundred RefLib.lib agent_with_three
                  outage_health_check 1006 agent_with_three_reachable)).
Defined.

Lemma stored_history_gives_no_resolution_advice_witness :
  match analyze_correlations outage_health_check 1010
          (historical_incidents agent_with_three) with
  | CorrelationsDict similar patterns_found recommendations =>
      recommendations =
        (if Nat.leb 3 (length similar)
         then ["This type of incident occurs frequently - consider permanent fix"]
         else []) ∧
      (patterns_found = [] ∨
       patterns_found = ["Incidents tend to occur during business hours"] ∨
       patterns_found = ["Incidents tend to occur outside business hours"])
  | CorrelationsError _ => True
  end.
Proof.
  exact (stored_history_gives_no_resolution_advice RefLib.lib agent_with_three
           outage_health_check 1010 agent_with_three_reachable).
Defined.

End AnalysisOperationsWitnesses.

(** ** Notification: levels, channels, deliveries *)

Section DispatcherOperations.
Import Notification.

Implicit Types (s : AlertDeliveryService) (incident : Incident).

Lemma level_value_unknown dflt level : ¬ known_level level → level_value dflt level = dflt.
Proof.
  unfold known_level, level_value. intros H.
  destruct (String.eqb_spec level "low") as [->|_]; [exfalso; apply H; set_solver|].
  destruct (String.eqb_spec level "medium") as [->|_]; [exfalso; apply H; set_solver|].
  destruct (String.eqb_spec level "high") as [->|_]; [exfalso; apply H; set_solver|].
  destruct (String.eqb_spec level "critical") as [->|_]; [exfalso; apply H; set_solver|].
  done.
Qed.

Lemma level_value_known dflt level :
  known_level level → 1 ≤ level_value dflt level ≤ 4.
Proof.
  unfold known_level. rewrite !elem_of_cons.
  intros [->|[->|[->|[->|H]]]]; [cbn; lia..|by apply elem_of_nil in H].
Qed.

(** The severity filter of a channel.  A level that is not one of the four
    names, whether by spelling or by case, counts as "medium" when it is
    the level of the alert, and as "low" when it is the minimum of a channel,
    which then takes every alert; a "critical" alert passes every channel
    and a channel with minimum "low" takes every alert. *)
Theorem unknown_levels_fall_back current_level min_level :
  (¬ known_level current_level →
   _should_use_channel current_level min_level
   = _should_use_channel "medium" min_level) ∧
  (¬ known_level min_level → _should_use_channel current_level min_level = true) ∧
  _should_use_channel "critical" min_level = true ∧
  _should_use_channel current_level "low" = true.
Proof.
  assert (∀ level, 1 ≤ level_value 2 level ≤ 4) as H2.
  { intros level. destruct (decide (known_level level)) as [H|H].
    - by apply level_value_known.
    - rewrite level_value_unknown by done. lia. }
  assert (∀ level, 1 ≤ level_value 1 level ≤ 4) as H1.
  { intros level. destruct (decide (known_level level)) as [H|H].
    - by apply level_value_known.
    - rewrite level_value_unknown by done. lia. }
  unfold _should_use_channel. repeat split.
  - intros H. by rewrite (level_value_unknown 2 current_level H).
  - intros H. rewrite (level_value_unknown 1 min_level H).
    apply bool_decide_eq_true. apply H2.
  - apply bool_decide_eq_true. specialize (H1 min_level). cbn. lia.
  - apply bool_decide_eq_true. specialize (H2 current_level). cbn. lia.
Qed.

Lemma find_enabled_in cfg channel :
  channel_enabled cfg channel = true →
  ∃ kc, kc ∈ delivery_channels cfg ∧ kc.1 = channel ∧ default false (enabled kc.2) = true.
Proof.
  unfold channel_enabled.
  destruct (List.find _ (delivery_channels cfg)) as [kc|] eqn:E; [|done].
  intros He. apply find_some in E as [Hin Hk]. exists kc.
  split; [by apply list_elem_of_In|]. split; [by apply String.eqb_eq|done].
Qed.

(** The services [__init__] sets up: among the four supported channels,
    those the configuration enables, in the fixed order slack, email,
    pagerduty, teams. *)
Lemma initialized_services cfg channel :
  channel ∈ delivery_services (new_service cfg) ↔
  channel ∈ ["slack"; "email"; "pagerduty"; "teams"] ∧
  channel_enabled cfg channel = true.
Proof.
  cbn [new_service delivery_services]. unfold _initialize_delivery_services.
  rewrite list_elem_of_In, filter_In, <- list_elem_of_In. done.
Qed.

(** Whenever a delivery service is set up, a request that is not in
    cooldown is delivered somewhere: if no enabled channel accepts the level
    of the alert, the first service is used whatever its minimum level.  The
    branch "no_delivery_channels" therefore requires that no service is set
    up. *)
Theorem a_service_is_used_whatever_the_level s incident :
  delivery_services s ≠ [] →
  _determine_delivery_channels s incident ≠ [] ∧
  (Forall (fun kc : string * ChannelConfig =>
             default false (enabled kc.2) = true →
             _should_use_channel (default "medium" (alert_level incident))
               (default "low" (min_alert_level kc.2)) = false)
          (delivery_channels (notification_config s)) →
   _determine_delivery_channels s incident = take 1 (delivery_services s)).
Proof.
  intros Hs. unfold _determine_delivery_channels. split.
  - destruct ((List.filter _ _).*1) as [|c cs]; [|done].
    by destruct (delivery_services s).
  - intros Hnone.
    assert (List.filter
              (fun kc : string * ChannelConfig =>
                 default false (enabled kc.2) &&
                 _should_use_channel (default "medium" (alert_level incident))
                   (default "low" (min_alert_level kc.2)))
              (delivery_channels (notification_config s)) = []) as ->.
    { induction Hnone as [|kc l Hkc _ IH]; [done|]. cbn [List.filter].
      destruct (default false (enabled kc.2)) eqn:E; [|exact IH].
      rewrite (Hkc eq_refl). exact IH. }
    cbn. by destruct (delivery_services s).
Qed.

Lemma deliver_to_supported {Alert} (d : Delivery Alert) s incident now channel :
  channel ∈ ["slack"; "email"; "pagerduty"; "teams"] →
  channel ∈ delivery_services s →
  _deliver_to_channel d s incident now channel =
  send_alert d channel (format_alert d channel incident).
Proof.
  rewrite !elem_of_cons. intros [->|[->|[->|[->|H]]]] Hin;
    [..|by apply elem_of_nil in H];
    unfold _deliver_to_channel, deliver_with; cbn [String.eqb Ascii.eqb];
    cbn; by rewrite bool_decide_eq_true_2.
Qed.

(** With the services [__init__] sets up, [_deliver_alerts] hands each
    selected channel that has a service to that service, once, with the
    alert formatted for the channel, in the order selected: neither the
    "Unsupported channel" nor the lookup failure of [_deliver_to_channel]
    occurs.  A selected channel without a service, such as one the
    configuration enables under another name than the four supported, is
    passed over with no result at all. *)
Theorem deliveries_reach_their_service {Alert} (d : Delivery Alert) cfg recent
    incident now (channels : list string) :
  let s := {| notification_config := cfg;
              delivery_services := _initialize_delivery_services cfg;
              recent_alerts := recent |} in
  _deliver_alerts s channels (_deliver_to_channel d s incident now) =
    (fun channel => send_alert d channel (format_alert d channel incident)) <$>
      List.filter (fun channel => bool_decide (channel ∈ delivery_services s)) channels.
Proof.
  intros s. unfold _deliver_alerts.
  apply Forall_fmap_ext, Forall_forall. intros channel Hin.
  apply list_elem_of_In, filter_In in Hin as [_ Hb]. apply bool_decide_eq_true in Hb.
  apply deliver_to_supported; [|done].
  cbn [s delivery_services] in Hb. unfold _initialize_delivery_services in Hb.
  by apply list_elem_of_In, filter_In in Hb as [Hb%list_elem_of_In _].
Qed.

End DispatcherOperations.

Section DispatcherOperationsWitnesses.
Import Notification Scenarios.

(** Both channels ask for "medium" at least; an alert of level "low" goes
    to the first service all the same. *)
Lemma a_service_is_used_whatever_the_level_witness :
  _determine_delivery_channels (new_service (channels 15))
    (incident (request "svc-a" "low" 0)) = ["slack"].
Proof.
  assert (delivery_services (new_service (channels 15)) ≠ []) as Hs by done.
  refine (proj2 (a_service_is_used_whatever_the_level (new_service (channels 15))
                   (incident (request "svc-a" "low" 0)) Hs) _).
  repeat constructor.
Defined.

End DispatcherOperationsWitnesses.

(** ** Analysis: what the pattern matcher reads, and how low a primary
       hypothesis can score *)

Section PatternOperations.
Import Analysis.

Context (lib : PyLib).

Implicit Types (agent : AnalysisAgent) (hc : HealthCheck).

Lemma scan_patterns_same_text ps todo text hc logs1 logs2 tests metrics db :
  scan_patterns lib ps todo text hc
    {| logs := logs1; net_tests := tests; sys_metrics := metrics;
       database_diagnostics := db |} =
  scan_patterns lib ps todo text hc
    {| logs := logs2; net_tests := tests; sys_metrics := metrics;
       database_diagnostics := db |}.
Proof.
  induction todo as [|[n cfg] todo IH]; [done|].
  cbn [scan_patterns]. by rewrite IH.
Qed.

(** Of the log messages of the triage data, the pattern matcher reads the
    first twenty only: two bundles that agree on these and on the network
    tests, the metrics and the database diagnostics give the same
    hypotheses, with the same confidences and evidence. *)
Theorem only_the_first_twenty_logs_are_read ps hc logs1 logs2 tests metrics db :
  take 20 logs1 = take 20 logs2 →
  match_patterns lib ps hc
    {| logs := logs1; net_tests := tests; sys_metrics := metrics;
       database_diagnostics := db |} =
  match_patterns lib ps hc
    {| logs := logs2; net_tests := tests; sys_metrics := metrics;
       database_diagnostics := db |}.
Proof.
  intros H. unfold match_patterns.
  assert (_extract_text_data lib hc
            {| logs := logs1; net_tests := tests; sys_metrics := metrics;
               database_diagnostics := db |} =
          _extract_text_data lib hc
            {| logs := logs2; net_tests := tests; sys_metrics := metrics;
               database_diagnostics := db |}) as ->.
  { unfold _extract_text_data. cbn [logs net_tests sys_metrics]. by rewrite H. }
  by rewrite (scan_patterns_same_text ps ps _ hc logs1 logs2).
Qed.

(** The certificate pattern, whose base boost of 0.4 is the largest of the
    catalogue, always yields a hypothesis of confidence 0.4 at least. *)
Lemma certificate_hypothesis_on_reachable agent hc td :
  reachable lib agent →
  ∃ hs h, match_patterns lib (patterns agent) hc td = Ok hs ∧ h ∈ hs ∧
          (4 # 10 <= confidence h)%Q.
Proof.
  intros Hr. pose proof (reachable_catalogue lib agent Hr) as Hcat.
  pose proof (same_scoring_well_formed _ Hcat) as Hwf.
  assert (∃ nc, nc ∈ patterns agent ∧ confidence_boost nc.2 = 4 # 10) as ([n cfg] & Hin & Hb).
  { destruct (Forall2_lookup_r _ _ _ 3 ("ssl_certificate", _) Hcat eq_refl)
      as (nc & Hnc & (_ & _ & _ & Hboost)).
    exists nc. split; [by eapply list_elem_of_lookup_2|exact Hboost]. }
  cbn [snd] in Hb.
  assert (Forall (fun nc : string * PatternConfig =>
                    keywords nc.2 ≠ [] ∧ evidence_patterns nc.2 ≠ []) (patterns agent))
    as Hwf'.
  { eapply Forall_impl; [exact Hwf|]. by intros nc (? & ? & _). }
  destruct (scan_patterns_spec lib (patterns agent) (patterns agent)
              (_extract_text_data lib hc td) hc td Hwf') as (hs0 & Hscan & Hspec).
  pose proof (proj1 (Forall_forall _ _) Hwf _ Hin) as (Hk & He & _). cbn [snd] in Hk, He.
  pose proof (pattern_confidence_value lib (patterns agent) cfg
                (_extract_text_data lib hc td) hc td Hk He) as Hc.
  set (conf := Qmin _ 1) in Hc.
  assert (4 # 10 <= conf)%Q as Hconf.
  { subst conf. apply Q.min_glb; [|done].
    pose proof (context_boost_nonneg (patterns agent) cfg hc td).
    pose proof (ratio_nonneg (keyword_matches cfg (_extract_text_data lib hc td))
                  (length (keywords cfg))).
    pose proof (ratio_nonneg (pattern_matches lib cfg (_extract_text_data lib hc td))
                  (length (evidence_patterns cfg))).
    rewrite Hb.
    set (k := (inject_Z _ / inject_Z _)%Q) in *.
    set (e := (inject_Z _ / inject_Z _)%Q) in *.
    assert (0 <= k * (4 # 10))%Q by (apply Qmult_le_0_compat; done).
    assert (0 <= e * (4 # 10))%Q by (apply Qmult_le_0_compat; done).
    lra. }
  exists (sort_desc confidence hs0),
         (hypothesis_of lib n cfg conf (_extract_text_data lib hc td) hc td).
  split; [unfold match_patterns; by rewrite Hscan|].
  split; [|exact Hconf].
  rewrite sort_desc_perm. apply Hspec. exists n, cfg, conf.
  repeat split; try done. apply Qgt_bool_true. lra.
Qed.

(** The primary hypothesis of a completed analysis has a confidence of 0.4
    at least: the confidence level "low" stands for a confidence between
    0.4 and 0.5. *)
Theorem primary_confidence_is_at_least_four_tenths
    agent incident_id hc td clock analysis_result :
  reachable lib agent →
  (_perform_root_cause_analysis lib agent incident_id hc td clock).1
    = Analysed analysis_result →
  ∃ primary,
    ar_primary_hypothesis analysis_result = Some primary ∧
    (4 # 10 <= ph_confidence primary)%Q ∧
    (ar_confidence_level analysis_result = low → (ph_confidence primary < 5 # 10)%Q).
Proof.
  intros Hr Hrun.
  destruct (certificate_hypothesis_on_reachable agent hc td Hr)
    as (hs & h & Hm & Hh & Hconf).
  revert Hrun. unfold _perform_root_cause_analysis, analysis_body. rewrite Hm.
  rewrite result_bind_ok.
  set (ch := from_option _generate_correlation_hypotheses [] _).
  destruct (rank (hs ++ ch)) as [|primary others] eqn:Er.
  { apply sort_desc_nil, app_eq_nil in Er as [-> _]. by apply elem_of_nil in Hh. }
  assert (4 # 10 <= confidence primary)%Q as Hp.
  { eapply Qle_trans; [exact Hconf|].
    eapply sort_desc_head_max; [exact Er|]. apply elem_of_app. by left. }
  destruct (historical_incidents agent) as [|hist0 history]; [done|].
  cbn. intros [= <-]. eexists. split; [reflexivity|].
  cbn [ph_confidence ar_confidence_level confidence extend_primary].
  split; [exact Hp|]. unfold confidence_level.
  destruct (Qle_bool (8 # 10) (confidence primary)); [done|].
  destruct (Qle_bool (5 # 10) (confidence primary)) eqn:E5; [done|].
  intros _. apply Qnot_le_lt. intros Hle. apply Qle_bool_iff in Hle. congruence.
Qed.

End PatternOperations.

Section PatternOperationsWitnesses.
Import Analysis Scenarios.

Lemma only_the_first_twenty_logs_are_read_witness :
  match_patterns RefLib.lib _initialize_patterns outage_health_check
    {| logs := late_database_log; net_tests := []; sys_metrics := [];
       database_diagnostics := false |} =
  match_patterns RefLib.lib _initialize_patterns outage_health_check
    {| logs := quiet_logs; net_tests := []; sys_metrics := [];
       database_diagnostics := false |}.
Proof.
  apply (only_the_first_twenty_logs_are_read RefLib.lib _initialize_patterns
           outage_health_check late_database_log quiet_logs).
  reflexivity.
Defined.

Lemma primary_confidence_is_at_least_four_tenths_witness :
  ∃ analysis_result primary,
    (_perform_root_cause_analysis RefLib.lib agent_with_history "INC_2"
       outage_health_check outage_triage_data analysis_clock).1
      = Analysed analysis_result ∧
    ar_primary_hypothesis analysis_result = Some primary ∧
    (4 # 10 <= ph_confidence primary)%Q.
Proof.
  assert (reachable RefLib.lib agent_with_history) as Hr.
  { unfold agent_with_history. apply reach_store, reach_analysis, reach_new. }
  destruct ((_perform_root_cause_analysis RefLib.lib agent_with_history "INC_2"
               outage_health_check outage_triage_data analysis_clock).1)
    as [analysis_result|? ? ?] eqn:E; [|vm_compute in E; discriminate].
  destruct (primary_confidence_is_at_least_four_tenths RefLib.lib agent_with_history
              "INC_2" outage_health_check outage_triage_data analysis_clock
              analysis_result Hr E) as (primary & Hp & Hc & _).
  exists analysis_result, primary.
  split; [reflexivity|]. split; [exact Hp|exact Hc].
Defined.

End PatternOperationsWitnesses.
